(** * loclock_backend: the geofenced short-link access engine

    A shallow embedding of [app/core/geo.py], [app/models/link.py],
    [app/schemas/link.py] and the link handlers of [app/api/links.py],
    of the role checks of [app/core/security.py], of the blocklist
    handlers of [app/api/admin.py] and of [app/core/middleware.py],
    followed by the properties of the access-decision engine.

    Conventions.
    - A Python [float] is an IEEE-754 binary64 value: Rocq's primitive
      [float], whose [+ - * /] and [sqrt] are the correctly rounded
      operations CPython's float type uses.
    - A Python [int] is a [Z]; a [str] is a [string] (UTF-8 bytes);
      [Optional[T]] is [option T].
    - A handler is a function of the database state which returns the new
      state and either its response or the exception it raised.  A handler
      that raises before [db.commit()] leaves the database as it was.
    - A row is the columns the handlers assign.  The timestamps
      [created_at] and [updated_at], which the database server maintains,
      are not part of it, and [db.commit()] is modelled for rows that the
      column types of the table accept. *)

From Stdlib Require Import ZArith String Bool Lia Floats.
From stdpp Require Import base option list strings gmap.

#[local] Open Scope string_scope.
#[local] Open Scope Z_scope.

(** ** The Python runtime the source relies on *)

Module Py.

(** Exceptions the modelled code can raise: the two the [math] module and
    [float.__pow__] raise, and FastAPI's [HTTPException]. *)
Inductive exn : Type :=
| ValueError
| OverflowError
| HTTPException (status_code : Z) (detail : string).

Inductive result (A : Type) : Type :=
| Ok (a : A)
| Raise (e : exn).
Arguments Ok {A} a.
Arguments Raise {A} e.

Definition bind {A B} (r : result A) (k : A -> result B) : result B :=
  match r with
  | Ok a => k a
  | Raise e => Raise e
  end.

(** Python's numbers as far as the source mixes them: [radius_meters] is
    annotated [float] in geo.py and is an [Integer] column in the model. *)
Inductive number : Type :=
| Int (z : Z)
| Float (f : float).

(** The C library functions reached through [math.sin], [math.cos],
    [math.atan2] and [float ** float].  They are not part of the
    repository: the development is parametric in them. *)
Class Libm : Type := {
  c_sin : float -> float;
  c_cos : float -> float;
  c_atan2 : float -> float -> float;
  c_pow : float -> float -> float
}.

Definition isnan (x : float) : bool := PrimFloat.is_nan x.
Definition isinf (x : float) : bool := PrimFloat.is_infinity x.
Definition isfinite (x : float) : bool := PrimFloat.is_finite x.

(** [math_1] of CPython's mathmodule.c: call a one-argument libm function
    and turn an invalid result into an exception. *)
Definition math_1 (func : float -> float) (can_overflow : bool) (x : float)
  : result float :=
  let r := func x in
  if isnan r && negb (isnan x) then Raise ValueError
  else if isinf r && isfinite x then
    Raise (if can_overflow then OverflowError else ValueError)
  else Ok r.

(** [math_2] of mathmodule.c, for [atan2]. *)
Definition math_2 (func : float -> float -> float) (x y : float)
  : result float :=
  let r := func x y in
  if isnan r then
    if negb (isnan x) && negb (isnan y) then Raise ValueError else Ok r
  else if isinf r then
    if isfinite x && isfinite y then Raise OverflowError else Ok r
  else Ok r.

Definition Py_MATH_PI : float := 0x1.921fb54442d18p+1%float.
Definition degToRad : float := Eval cbv in (Py_MATH_PI / 180)%float.

Section Math.
Context {libm : Libm}.

Definition sin : float -> result float := math_1 c_sin false.
Definition cos : float -> result float := math_1 c_cos false.
Definition sqrt : float -> result float := math_1 PrimFloat.sqrt false.
Definition atan2 : float -> float -> result float := math_2 c_atan2.
Definition radians (x : float) : float := (x * degToRad)%float.

(** [iv ** 2]: the path of CPython's [float_pow] for the exponent 2.0
    (nonzero, finite, positive, an even integer).  [errno] after the
    call of [pow] is read off the result as glibc sets it: ERANGE on
    overflow, EDOM on an invalid result. *)
Definition float_pow2 (iv : float) : result float :=
  if isnan iv then Ok iv
  else if isinf iv then Ok (abs iv)
  else if (iv =? 0)%float then Ok 0%float
  else
    let iv := if (iv <? 0)%float then (- iv)%float else iv in
    if (iv =? 1)%float then Ok 1%float
    else
      let ix := c_pow iv 2%float in
      if isinf ix then Raise OverflowError
      else if isnan ix then Raise ValueError
      else Ok ix.
End Math.

(** *** Comparison of a float with a number

    [float <= int] compares the exact values (CPython's
    [float_richcompare]); [float <= float] is the IEEE comparison. *)
Definition float_compare_int (x : float) (z : Z) : option comparison :=
  match Prim2SF x with
  | S754_nan => None
  | S754_infinity s => Some (if s then Lt else Gt)
  | S754_zero _ => Some (0 ?= z)
  | S754_finite s m e =>
      let v := cond_Zopp s (Zpos m) in
      Some (if 0 <=? e then v * 2 ^ e ?= z else v ?= z * 2 ^ (- e))
  end.

Definition float_compare (x : float) (y : number) : option comparison :=
  match y with
  | Int z => float_compare_int x z
  | Float f => SFcompare (Prim2SF x) (Prim2SF f)
  end.

(** [x <= y], [x == y] and [x > y] for a float [x]. *)
Definition le (x : float) (y : number) : bool :=
  match float_compare x y with
  | Some (Lt | Eq) => true
  | _ => false
  end.
Definition eq (x : float) (y : number) : bool :=
  match float_compare x y with
  | Some Eq => true
  | _ => false
  end.
Definition gt (x : float) (y : number) : bool :=
  match float_compare x y with
  | Some Gt => true
  | _ => false
  end.

(** *** [round(x, ndigits)] for a float and [ndigits >= 0]

    CPython rounds the exact value of [x] to [ndigits] decimal places,
    ties to even, and returns the double nearest to that decimal.
    Non-finite values round to themselves. *)
Definition round_half_even (n d : Z) : Z :=
  let q := n / d in
  let r := n mod d in
  match 2 * r ?= d with
  | Lt => q
  | Gt => q + 1
  | Eq => if Z.even q then q else q + 1
  end.

Definition Z2SF (s : bool) (n : Z) : spec_float :=
  match n with
  | Zpos p => S754_finite s p 0
  | _ => S754_zero s
  end.

Definition round (x : float) (ndigits : Z) : float :=
  match Prim2SF x with
  | S754_finite s m e =>
      let p := 10 ^ ndigits in
      let n := if 0 <=? e then Zpos m * 2 ^ e * p
               else round_half_even (Zpos m * p) (2 ^ (- e)) in
      SF2Prim (SF64div (Z2SF s n) (Z2SF false p))
  | _ => x
  end.

End Py.

#[global] Instance result_bind : MBind Py.result := λ A B k r, Py.bind r k.
#[global] Instance result_fmap : FMap Py.result := λ A B f r,
  match r with
  | Py.Ok a => Py.Ok (f a)
  | Py.Raise e => Py.Raise e
  end.

(** ** app/core/geo.py *)

Module Geo.
Import Py.

Section Geo.
Context {libm : Libm}.

Definition calculate_distance (lat1 lng1 lat2 lng2 : float)
  : result float :=
  let R := 6371000%float in
  let φ1 := radians lat1 in
  let φ2 := radians lat2 in
  let Δφ := radians (lat2 - lat1) in
  let Δλ := radians (lng2 - lng1) in
  s1 ← sin (Δφ / 2);
  p1 ← float_pow2 s1;
  c1 ← cos φ1;
  c2 ← cos φ2;
  s2 ← sin (Δλ / 2);
  p2 ← float_pow2 s2;
  let a := (p1 + c1 * c2 * p2)%float in
  q1 ← sqrt a;
  q2 ← sqrt (1 - a);
  t ← atan2 q1 q2;
  let c := (2 * t)%float in
  let distance := (R * c)%float in
  Ok distance.

Definition is_within_radius
    (visitor_lat visitor_lng center_lat center_lng : float)
    (radius_meters : number) : result (bool * float) :=
  distance ← calculate_distance visitor_lat visitor_lng
                center_lat center_lng;
  let is_allowed := le distance radius_meters in
  Ok (is_allowed, distance).
End Geo.
End Geo.

(** ** A reference C library

    An executable stand-in for the four libm functions, accurate to a few
    units in the last place on the arguments [calculate_distance] produces
    (angles in [-pi, pi], non-negative arguments of [atan2], the exponent
    2).  The properties below are proved for every [Libm]; this instance
    evaluates the handlers on concrete requests. *)

Module RefLibm.
#[local] Open Scope float_scope.

(** [acc + t1 + t2 + ...] where [t(j+1) = - tj * x2 / ((k+1) * (k+2))]
    and [k] grows by 2: the alternating series of sine and cosine. *)
Fixpoint trig_series (n : nat) (k x2 term acc : float) : float :=
  match n with
  | O => acc
  | S n' =>
      let term' := - term * x2 / ((k + 1) * (k + 2)) in
      trig_series n' (k + 2) x2 term' (acc + term')
  end.

Definition ref_sin (x : float) : float :=
  x * trig_series 17 1 (x * x) 1 1.
Definition ref_cos (x : float) : float :=
  trig_series 17 0 (x * x) 1 1.

(** [1 - x2/3 + x2^2/5 - ...], the series of [atan t / t] at [x2 = t*t]. *)
Fixpoint atan_series (n : nat) (k x2 pw acc : float) : float :=
  match n with
  | O => acc
  | S n' =>
      let pw' := - pw * x2 in
      atan_series n' (k + 2) x2 pw' (acc + pw' / (k + 2))
  end.

Definition atan_small (t : float) : float :=
  t * atan_series 16 1 (t * t) 1 1.
Definition halve_angle (t : float) : float :=
  t / (1 + PrimFloat.sqrt (1 + t * t)).
Definition atan_unit (t : float) : float :=
  4 * atan_small (halve_angle (halve_angle t)).
Definition atan_pos (t : float) : float :=
  if t <=? 1 then atan_unit t else Py.Py_MATH_PI / 2 - atan_unit (1 / t).
Definition ref_atan (t : float) : float :=
  if t <? 0 then - atan_pos (- t) else atan_pos t.

Definition ref_atan2 (y x : float) : float :=
  if 0 <? x then ref_atan (y / x)
  else if x <? 0 then
    if y <? 0 then ref_atan (y / x) - Py.Py_MATH_PI
    else ref_atan (y / x) + Py.Py_MATH_PI
  else if 0 <? y then Py.Py_MATH_PI / 2
  else if y <? 0 then - (Py.Py_MATH_PI / 2)
  else y + x.

(** [x ** y] for an integral [y], by repeated multiplication. *)
Definition integral_value (m : positive) (e : Z) : option Z :=
  if (0 <=? e)%Z then Some (Zpos m * 2 ^ e)%Z
  else if (Zpos m mod 2 ^ (- e) =? 0)%Z then Some (Zpos m / 2 ^ (- e))%Z
  else None.

Definition ref_pow (x y : float) : float :=
  match Prim2SF y with
  | S754_zero _ => 1
  | S754_finite s m e =>
      match integral_value m e with
      | Some (Zpos n) =>
          let p := Pos.iter (PrimFloat.mul x) 1 n in
          if s then 1 / p else p
      | _ => nan
      end
  | _ => nan
  end.

Definition ref_libm : Py.Libm :=
  {| Py.c_sin := ref_sin; Py.c_cos := ref_cos;
     Py.c_atan2 := ref_atan2; Py.c_pow := ref_pow |}.
End RefLibm.

(** ** app/models and app/schemas *)

(** Timestamps ([DateTime] columns, [datetime] values): a count of
    microseconds since the epoch. *)
Definition datetime : Type := Z.

(** models/user.py, the two columns the link handlers read. *)
Module User.
Record t : Type := {
  id : Z;
  role : string
}.
End User.

(** models/link.py, class [Link].  [created_at] and [updated_at] are
    maintained by the database server and read by no handler.  The two
    [Numeric] coordinates are kept as the floats [float(link.center_lat)]
    and [float(link.center_lng)] evaluate to. *)
Module Link.
Record t : Type := {
  id : Z;
  title : option string;
  short_code : string;
  target_url : string;
  center_lat : float;
  center_lng : float;
  radius_meters : Z;
  location_name : option string;
  contact_wechat : option string;
  expire_at : option datetime;
  max_visits : option Z;
  created_by : Z;
  is_active : bool;
  is_banned : bool;
  is_deleted : bool;
  visit_count : Z;
  success_count : Z;
  denied_count : Z
}.

(** Attribute assignment, [link.field = v]. *)
Definition set_title (v : option string) (l : t) : t :=
  {| id := id l; title := v; short_code := short_code l;
     target_url := target_url l; center_lat := center_lat l;
     center_lng := center_lng l; radius_meters := radius_meters l;
     location_name := location_name l; contact_wechat := contact_wechat l;
     expire_at := expire_at l; max_visits := max_visits l;
     created_by := created_by l; is_active := is_active l;
     is_banned := is_banned l; is_deleted := is_deleted l;
     visit_count := visit_count l; success_count := success_count l;
     denied_count := denied_count l |}.
Definition set_target_url (v : string) (l : t) : t :=
  {| id := id l; title := title l; short_code := short_code l;
     target_url := v; center_lat := center_lat l;
     center_lng := center_lng l; radius_meters := radius_meters l;
     location_name := location_name l; contact_wechat := contact_wechat l;
     expire_at := expire_at l; max_visits := max_visits l;
     created_by := created_by l; is_active := is_active l;
     is_banned := is_banned l; is_deleted := is_deleted l;
     visit_count := visit_count l; success_count := success_count l;
     denied_count := denied_count l |}.
Definition set_center_lat (v : float) (l : t) : t :=
  {| id := id l; title := title l; short_code := short_code l;
     target_url := target_url l; center_lat := v;
     center_lng := center_lng l; radius_meters := radius_meters l;
     location_name := location_name l; contact_wechat := contact_wechat l;
     expire_at := expire_at l; max_visits := max_visits l;
     created_by := created_by l; is_active := is_active l;
     is_banned := is_banned l; is_deleted := is_deleted l;
     visit_count := visit_count l; success_count := success_count l;
     denied_count := denied_count l |}.
Definition set_center_lng (v : float) (l : t) : t :=
  {| id := id l; title := title l; short_code := short_code l;
     target_url := target_url l; center_lat := center_lat l;
     center_lng := v; radius_meters := radius_meters l;
     location_name := location_name l; contact_wechat := contact_wechat l;
     expire_at := expire_at l; max_visits := max_visits l;
     created_by := created_by l; is_active := is_active l;
     is_banned := is_banned l; is_deleted := is_deleted l;
     visit_count := visit_count l; success_count := success_count l;
     denied_count := denied_count l |}.
Definition set_radius_meters (v : Z) (l : t) : t :=
  {| id := id l; title := title l; short_code := short_code l;
     target_url := target_url l; center_lat := center_lat l;
     center_lng := center_lng l; radius_meters := v;
     location_name := location_name l; contact_wechat := contact_wechat l;
     expire_at := expire_at l; max_visits := max_visits l;
     created_by := created_by l; is_active := is_active l;
     is_banned := is_banned l; is_deleted := is_deleted l;
     visit_count := visit_count l; success_count := success_count l;
     denied_count := denied_count l |}.
Definition set_location_name (v : option string) (l : t) : t :=
  {| id := id l; title := title l; short_code := short_code l;
     target_url := target_url l; center_lat := center_lat l;
     center_lng := center_lng l; radius_meters := radius_meters l;
     location_name := v; contact_wechat := contact_wechat l;
     expire_at := expire_at l; max_visits := max_visits l;
     created_by := created_by l; is_active := is_active l;
     is_banned := is_banned l; is_deleted := is_deleted l;
     visit_count := visit_count l; success_count := success_count l;
     denied_count := denied_count l |}.
Definition set_contact_wechat (v : option string) (l : t) : t :=
  {| id := id l; title := title l; short_code := short_code l;
     target_url := target_url l; center_lat := center_lat l;
     center_lng := center_lng l; radius_meters := radius_meters l;
     location_name := location_name l; contact_wechat := v;
     expire_at := expire_at l; max_visits := max_visits l;
     created_by := created_by l; is_active := is_active l;
     is_banned := is_banned l; is_deleted := is_deleted l;
     visit_count := visit_count l; success_count := success_count l;
     denied_count := denied_count l |}.
Definition set_expire_at (v : option datetime) (l : t) : t :=
  {| id := id l; title := title l; short_code := short_code l;
     target_url := target_url l; center_lat := center_lat l;
     center_lng := center_lng l; radius_meters := radius_meters l;
     location_name := location_name l; contact_wechat := contact_wechat l;
     expire_at := v; max_visits := max_visits l;
     created_by := created_by l; is_active := is_active l;
     is_banned := is_banned l; is_deleted := is_deleted l;
     visit_count := visit_count l; success_count := success_count l;
     denied_count := denied_count l |}.
Definition set_max_visits (v : option Z) (l : t) : t :=
  {| id := id l; title := title l; short_code := short_code l;
     target_url := target_url l; center_lat := center_lat l;
     center_lng := center_lng l; radius_meters := radius_meters l;
     location_name := location_name l; contact_wechat := contact_wechat l;
     expire_at := expire_at l; max_visits := v;
     created_by := created_by l; is_active := is_active l;
     is_banned := is_banned l; is_deleted := is_deleted l;
     visit_count := visit_count l; success_count := success_count l;
     denied_count := denied_count l |}.
Definition set_is_active (v : bool) (l : t) : t :=
  {| id := id l; title := title l; short_code := short_code l;
     target_url := target_url l; center_lat := center_lat l;
     center_lng := center_lng l; radius_meters := radius_meters l;
     location_name := location_name l; contact_wechat := contact_wechat l;
     expire_at := expire_at l; max_visits := max_visits l;
     created_by := created_by l; is_active := v;
     is_banned := is_banned l; is_deleted := is_deleted l;
     visit_count := visit_count l; success_count := success_count l;
     denied_count := denied_count l |}.
Definition set_is_banned (v : bool) (l : t) : t :=
  {| id := id l; title := title l; short_code := short_code l;
     target_url := target_url l; center_lat := center_lat l;
     center_lng := center_lng l; radius_meters := radius_meters l;
     location_name := location_name l; contact_wechat := contact_wechat l;
     expire_at := expire_at l; max_visits := max_visits l;
     created_by := created_by l; is_active := is_active l;
     is_banned := v; is_deleted := is_deleted l;
     visit_count := visit_count l; success_count := success_count l;
     denied_count := denied_count l |}.
Definition set_is_deleted (v : bool) (l : t) : t :=
  {| id := id l; title := title l; short_code := short_code l;
     target_url := target_url l; center_lat := center_lat l;
     center_lng := center_lng l; radius_meters := radius_meters l;
     location_name := location_name l; contact_wechat := contact_wechat l;
     expire_at := expire_at l; max_visits := max_visits l;
     created_by := created_by l; is_active := is_active l;
     is_banned := is_banned l; is_deleted := v;
     visit_count := visit_count l; success_count := success_count l;
     denied_count := denied_count l |}.
Definition set_visit_count (v : Z) (l : t) : t :=
  {| id := id l; title := title l; short_code := short_code l;
     target_url := target_url l; center_lat := center_lat l;
     center_lng := center_lng l; radius_meters := radius_meters l;
     location_name := location_name l; contact_wechat := contact_wechat l;
     expire_at := expire_at l; max_visits := max_visits l;
     created_by := created_by l; is_active := is_active l;
     is_banned := is_banned l; is_deleted := is_deleted l;
     visit_count := v; success_count := success_count l;
     denied_count := denied_count l |}.
Definition set_success_count (v : Z) (l : t) : t :=
  {| id := id l; title := title l; short_code := short_code l;
     target_url := target_url l; center_lat := center_lat l;
     center_lng := center_lng l; radius_meters := radius_meters l;
     location_name := location_name l; contact_wechat := contact_wechat l;
     expire_at := expire_at l; max_visits := max_visits l;
     created_by := created_by l; is_active := is_active l;
     is_banned := is_banned l; is_deleted := is_deleted l;
     visit_count := visit_count l; success_count := v;
     denied_count := denied_count l |}.
Definition set_denied_count (v : Z) (l : t) : t :=
  {| id := id l; title := title l; short_code := short_code l;
     target_url := target_url l; center_lat := center_lat l;
     center_lng := center_lng l; radius_meters := radius_meters l;
     location_name := location_name l; contact_wechat := contact_wechat l;
     expire_at := expire_at l; max_visits := max_visits l;
     created_by := created_by l; is_active := is_active l;
     is_banned := is_banned l; is_deleted := is_deleted l;
     visit_count := visit_count l; success_count := success_count l;
     denied_count := v |}.
End Link.

(** models/link.py, class [AccessLog], as the constructor call of
    [verify_location] fills it; [id] and [accessed_at] are assigned by the
    database server. *)
Module AccessLog.
Record t : Type := {
  link_id : Z;
  visitor_lat : option float;
  visitor_lng : option float;
  distance_meters : option float;
  access_granted : bool;
  user_agent : option string;
  ip_address : option string
}.
End AccessLog.

(** schemas/link.py *)
Module LinkCreate.
Record t : Type := {
  title : option string;
  target_url : string;
  center_lat : float;
  center_lng : float;
  radius_meters : Z;
  location_name : option string;
  contact_wechat : option string;
  expire_at : option datetime;
  max_visits : option Z;
  short_code : option string
}.
End LinkCreate.

Module LinkUpdate.
Record t : Type := {
  title : option string;
  target_url : option string;
  center_lat : option float;
  center_lng : option float;
  radius_meters : option Z;
  location_name : option string;
  contact_wechat : option string;
  is_active : option bool;
  expire_at : option datetime;
  max_visits : option Z
}.
End LinkUpdate.

Module LocationVerifyRequest.
Record t : Type := {
  latitude : float;
  longitude : float
}.

(** [Field(..., ge=-90, le=90)] and [Field(..., ge=-180, le=180)]. *)
Definition valid (r : t) : bool :=
  ((-90) <=? latitude r)%float && (latitude r <=? 90)%float &&
  ((-180) <=? longitude r)%float && (longitude r <=? 180)%float.
End LocationVerifyRequest.

Module LocationVerifyResponse.
Record t : Type := {
  allowed : bool;
  target_url : option string;
  distance : float;
  radius : Z;
  message : option string;
  contact_wechat : option string;
  title : option string
}.
End LocationVerifyResponse.

Module PublicLinkInfo.
Record t : Type := {
  short_code : string;
  title : option string;
  is_active : bool;
  location_name : option string
}.
End PublicLinkInfo.

(** What [verify_location] reads of the Starlette request:
    [request.headers.get("user-agent")] and [request.client.host] when
    [request.client] is set. *)
Module Request.
Record t : Type := {
  user_agent : option string;
  client_host : option string
}.
End Request.

(** The database: the rows of [links] and [access_logs] in table order. *)
Record Db : Type := {
  links : list Link.t;
  access_logs : list AccessLog.t
}.

(** ** app/api/links.py *)

Module Links.
Import Py.

Definition HTTP_400_BAD_REQUEST : Z := 400.
Definition HTTP_403_FORBIDDEN : Z := 403.
Definition HTTP_404_NOT_FOUND : Z := 404.
Definition HTTP_500_INTERNAL_SERVER_ERROR : Z := 500.

(** [db.query(Link).filter(Link.id == link_id).first()] and
    [db.query(Link).filter(Link.short_code == short_code).first()]: the
    first matching row, with its position in the table. *)
Definition query_link_by_id (db : Db) (link_id : Z)
  : option (nat * Link.t) :=
  list_find (λ l, Link.id l = link_id) (links db).

Definition query_link_by_short_code (db : Db) (short_code : string)
  : option (nat * Link.t) :=
  list_find (λ l, Link.short_code l = short_code) (links db).

(** [db.commit()] after the attributes of the loaded row were assigned:
    the row is written back in place. *)
Definition commit_link (i : nat) (link : Link.t) (db : Db) : Db :=
  {| links := <[i := link]> (links db); access_logs := access_logs db |}.

(** [db.add(obj); db.commit()] for a new row. *)
Definition add_link (link : Link.t) (db : Db) : Db :=
  {| links := links db ++ [link]; access_logs := access_logs db |}.

Definition add_access_log (log : AccessLog.t) (db : Db) : Db :=
  {| links := links db; access_logs := access_logs db ++ [log] |}.

(** The primary key the database assigns to a new row of [links]: the
    next value of the sequence, above every key of the table (rows are
    never removed). *)
Definition next_link_id (db : Db) : Z :=
  1 + foldr Z.max 0 (Link.id <$> links db).

(** [current_user.role == "super_admin"] *)
Definition is_super_admin (u : User.t) : bool :=
  String.eqb (User.role u) "super_admin".

(** [current_user.role != "super_admin" and
     link.created_by != current_user.id] *)
Definition not_permitted (u : User.t) (link : Link.t) : bool :=
  negb (is_super_admin u) && negb (Link.created_by link =? User.id u).

(** [if v is not None: link.field = v] *)
Definition assign {A} (v : option A) (set : A -> Link.t -> Link.t)
    (link : Link.t) : Link.t :=
  match v with
  | Some x => set x link
  | None => link
  end.

(** The [for _ in range(max_attempts)] loop of [create_link]:
    [generate_short_code k] is the code the [k]-th call of
    [generate_short_code()] draws. *)
Fixpoint fresh_short_code (generate_short_code : nat -> string)
    (attempt remaining : nat) (db : Db) : option string :=
  match remaining with
  | O => None
  | S remaining' =>
      let short_code := generate_short_code attempt in
      match query_link_by_short_code db short_code with
      | None => Some short_code
      | Some _ =>
          fresh_short_code generate_short_code (S attempt) remaining' db
      end
  end.

Definition new_link (db : Db) (short_code : string) (link_data : LinkCreate.t)
    (current_user : User.t) : Link.t :=
  {| Link.id := next_link_id db;
     Link.title := LinkCreate.title link_data;
     Link.short_code := short_code;
     Link.target_url := LinkCreate.target_url link_data;
     Link.center_lat := LinkCreate.center_lat link_data;
     Link.center_lng := LinkCreate.center_lng link_data;
     Link.radius_meters := LinkCreate.radius_meters link_data;
     Link.location_name := LinkCreate.location_name link_data;
     Link.contact_wechat := LinkCreate.contact_wechat link_data;
     Link.expire_at := None;
     Link.max_visits := None;
     Link.created_by := User.id current_user;
     Link.is_active := true;
     Link.is_banned := false;
     Link.is_deleted := false;
     Link.visit_count := 0;
     Link.success_count := 0;
     Link.denied_count := 0 |}.

Definition create_link (generate_short_code : nat -> string)
    (link_data : LinkCreate.t) (current_user : User.t) (db : Db)
  : Db * result Link.t :=
  let chosen :=
    match LinkCreate.short_code link_data with
    | Some (String _ _ as short_code) =>
        match query_link_by_short_code db short_code with
        | Some _ =>
            Raise (HTTPException HTTP_400_BAD_REQUEST "该短链接代码已被使用")
        | None => Ok short_code
        end
    | _ =>
        let max_attempts := 10%nat in
        match fresh_short_code generate_short_code 0 max_attempts db with
        | Some short_code => Ok short_code
        | None =>
            Raise (HTTPException HTTP_500_INTERNAL_SERVER_ERROR
                     "生成短链接失败，请重试")
        end
    end in
  match chosen with
  | Raise e => (db, Raise e)
  | Ok short_code =>
      let link := new_link db short_code link_data current_user in
      (add_link link db, Ok link)
  end.

(** The [if link_data.is_active is not None] block of [update_link]. *)
Definition update_is_active (is_active : option bool)
    (current_user : User.t) (link : Link.t) : result Link.t :=
  match is_active with
  | None => Ok link
  | Some is_active =>
      if Link.is_banned link && is_active
         && negb (is_super_admin current_user)
      then Raise (HTTPException HTTP_403_FORBIDDEN
                    "此链接已被管理员封禁，无法启用")
      else
        let link :=
          if is_super_admin current_user && is_active
          then Link.set_is_banned false link else link in
        Ok (Link.set_is_active is_active link)
  end.

Definition update_link (link_id : Z) (link_data : LinkUpdate.t)
    (current_user : User.t) (db : Db) : Db * result Link.t :=
  match query_link_by_id db link_id with
  | None => (db, Raise (HTTPException HTTP_404_NOT_FOUND "短链接不存在"))
  | Some (i, link) =>
      if Link.is_deleted link then
        (db, Raise (HTTPException HTTP_404_NOT_FOUND "短链接不存在"))
      else if not_permitted current_user link then
        (db, Raise (HTTPException HTTP_403_FORBIDDEN "无权修改此短链接"))
      else
        let link :=
          assign (LinkUpdate.title link_data)
            (λ v, Link.set_title (Some v)) link in
        let link :=
          assign (LinkUpdate.target_url link_data) Link.set_target_url link in
        let link :=
          assign (LinkUpdate.center_lat link_data) Link.set_center_lat link in
        let link :=
          assign (LinkUpdate.center_lng link_data) Link.set_center_lng link in
        let link :=
          assign (LinkUpdate.radius_meters link_data)
            Link.set_radius_meters link in
        let link :=
          assign (LinkUpdate.location_name link_data)
            (λ v, Link.set_location_name (Some v)) link in
        let link :=
          assign (LinkUpdate.contact_wechat link_data)
            (λ v, Link.set_contact_wechat (Some v)) link in
        match update_is_active (LinkUpdate.is_active link_data)
                current_user link with
        | Raise e => (db, Raise e)
        | Ok link =>
            let link :=
              assign (LinkUpdate.expire_at link_data)
                (λ v, Link.set_expire_at (Some v)) link in
            let link :=
              assign (LinkUpdate.max_visits link_data)
                (λ v, Link.set_max_visits (Some v)) link in
            (commit_link i link db, Ok link)
        end
  end.

Definition delete_link (link_id : Z) (current_user : User.t) (db : Db)
  : Db * result unit :=
  match query_link_by_id db link_id with
  | None => (db, Raise (HTTPException HTTP_404_NOT_FOUND "短链接不存在"))
  | Some (i, link) =>
      if Link.is_deleted link then
        (db, Raise (HTTPException HTTP_404_NOT_FOUND "短链接不存在"))
      else if not_permitted current_user link then
        (db, Raise (HTTPException HTTP_403_FORBIDDEN "无权删除此短链接"))
      else
        let link :=
          if is_super_admin current_user
             && negb (Link.created_by link =? User.id current_user)
          then Link.set_is_active false (Link.set_is_banned true link)
          else Link.set_is_active false (Link.set_is_deleted true link) in
        (commit_link i link db, Ok ())
  end.

Definition restore_link (link_id : Z) (current_user : User.t) (db : Db)
  : Db * result Link.t :=
  match query_link_by_id db link_id with
  | None => (db, Raise (HTTPException HTTP_404_NOT_FOUND "短链接不存在"))
  | Some (i, link) =>
      if not_permitted current_user link then
        (db, Raise (HTTPException HTTP_403_FORBIDDEN "无权恢复此短链接"))
      else if negb (Link.is_deleted link) then
        (db, Raise (HTTPException HTTP_400_BAD_REQUEST "该链接未被删除"))
      else
        let link := Link.set_is_active true (Link.set_is_deleted false link) in
        (commit_link i link db, Ok link)
  end.

Definition get_public_link_info (short_code : string) (db : Db)
  : Db * result PublicLinkInfo.t :=
  match query_link_by_short_code db short_code with
  | None => (db, Raise (HTTPException HTTP_404_NOT_FOUND "链接不存在"))
  | Some (_, link) =>
      if Link.is_deleted link then
        (db, Raise (HTTPException HTTP_404_NOT_FOUND "链接不存在"))
      else
        (db, Ok {| PublicLinkInfo.short_code := Link.short_code link;
                   PublicLinkInfo.title := Link.title link;
                   PublicLinkInfo.is_active := Link.is_active link;
                   PublicLinkInfo.location_name := Link.location_name link |})
  end.

Section Verify.
Context {libm : Libm}.

Definition verify_location (short_code : string)
    (location : LocationVerifyRequest.t) (request : Request.t) (db : Db)
  : Db * result LocationVerifyResponse.t :=
  match query_link_by_short_code db short_code with
  | None => (db, Raise (HTTPException HTTP_404_NOT_FOUND "短链接不存在"))
  | Some (i, link) =>
      if Link.is_deleted link then
        (db, Raise (HTTPException HTTP_404_NOT_FOUND "短链接不存在"))
      else if negb (Link.is_active link) then
        let detail :=
          if Link.is_banned link then "此链接已被管理员封禁"
          else "此链接已被禁用" in
        (db, Raise (HTTPException HTTP_403_FORBIDDEN detail))
      else
        match Geo.is_within_radius
                (LocationVerifyRequest.latitude location)
                (LocationVerifyRequest.longitude location)
                (Link.center_lat link) (Link.center_lng link)
                (Int (Link.radius_meters link)) with
        | Raise e => (db, Raise e)
        | Ok (allowed, distance) =>
            let link :=
              Link.set_visit_count (Link.visit_count link + 1) link in
            let link :=
              if allowed
              then Link.set_success_count (Link.success_count link + 1) link
              else Link.set_denied_count (Link.denied_count link + 1) link in
            let access_log :=
              {| AccessLog.link_id := Link.id link;
                 AccessLog.visitor_lat :=
                   Some (LocationVerifyRequest.latitude location);
                 AccessLog.visitor_lng :=
                   Some (LocationVerifyRequest.longitude location);
                 AccessLog.distance_meters := Some (round distance 2);
                 AccessLog.access_granted := allowed;
                 AccessLog.user_agent := Request.user_agent request;
                 AccessLog.ip_address := Request.client_host request |} in
            let db := add_access_log access_log (commit_link i link db) in
            let message :=
              if allowed then None
              else Some "您不在允许访问的地理范围内" in
            let contact_wechat :=
              if allowed then None else Link.contact_wechat link in
            (db,
             Ok {| LocationVerifyResponse.allowed := allowed;
                   LocationVerifyResponse.target_url :=
                     if allowed then Some (Link.target_url link) else None;
                   LocationVerifyResponse.distance := round distance 2;
                   LocationVerifyResponse.radius := Link.radius_meters link;
                   LocationVerifyResponse.message := message;
                   LocationVerifyResponse.contact_wechat := contact_wechat;
                   LocationVerifyResponse.title := Link.title link |})
        end
  end.
End Verify.
End Links.

(** ** Vocabulary of the properties *)

Import Py.

(** One call of a handler that can change the database. *)
Inductive operation : Type :=
| CreateLink (generate_short_code : nat → string) (link_data : LinkCreate.t)
    (current_user : User.t)
| UpdateLink (link_id : Z) (link_data : LinkUpdate.t) (current_user : User.t)
| DeleteLink (link_id : Z) (current_user : User.t)
| RestoreLink (link_id : Z) (current_user : User.t)
| GetPublicLinkInfo (short_code : string)
| VerifyLocation (short_code : string) (location : LocationVerifyRequest.t)
    (request : Request.t).

Definition run {libm : Libm} (op : operation) (db : Db) : Db :=
  match op with
  | CreateLink g d u => fst (Links.create_link g d u db)
  | UpdateLink k d u => fst (Links.update_link k d u db)
  | DeleteLink k u => fst (Links.delete_link k u db)
  | RestoreLink k u => fst (Links.restore_link k u db)
  | GetPublicLinkInfo c => fst (Links.get_public_link_info c db)
  | VerifyLocation c l r => fst (Links.verify_location c l r db)
  end.

(** The databases the handlers can produce from the empty one. *)
Inductive reachable {libm : Libm} : Db → Prop :=
| reachable_empty : reachable {| links := []; access_logs := [] |}
| reachable_run (op : operation) (db : Db) :
    reachable db → reachable (run op db).

Definition counters_consistent (l : Link.t) : Prop :=
  Link.success_count l + Link.denied_count l = Link.visit_count l.

Definition same_counters (l l' : Link.t) : Prop :=
  Link.visit_count l' = Link.visit_count l ∧
  Link.success_count l' = Link.success_count l ∧
  Link.denied_count l' = Link.denied_count l.

(** The row [verify_location] writes back, the log entry it adds and the
    response it returns, as functions of the verdict. *)
Definition visited (allowed : bool) (link : Link.t) : Link.t :=
  let link := Link.set_visit_count (Link.visit_count link + 1) link in
  if allowed
  then Link.set_success_count (Link.success_count link + 1) link
  else Link.set_denied_count (Link.denied_count link + 1) link.

Definition access_log_of (link : Link.t) (location : LocationVerifyRequest.t)
    (request : Request.t) (allowed : bool) (distance : float) : AccessLog.t :=
  {| AccessLog.link_id := Link.id link;
     AccessLog.visitor_lat := Some (LocationVerifyRequest.latitude location);
     AccessLog.visitor_lng := Some (LocationVerifyRequest.longitude location);
     AccessLog.distance_meters := Some (round distance 2);
     AccessLog.access_granted := allowed;
     AccessLog.user_agent := Request.user_agent request;
     AccessLog.ip_address := Request.client_host request |}.

Definition response_of (link : Link.t) (allowed : bool) (distance : float)
  : LocationVerifyResponse.t :=
  {| LocationVerifyResponse.allowed := allowed;
     LocationVerifyResponse.target_url :=
       if allowed then Some (Link.target_url link) else None;
     LocationVerifyResponse.distance := round distance 2;
     LocationVerifyResponse.radius := Link.radius_meters link;
     LocationVerifyResponse.message :=
       if allowed then None else Some "您不在允许访问的地理范围内";
     LocationVerifyResponse.contact_wechat :=
       if allowed then None else Link.contact_wechat link;
     LocationVerifyResponse.title := Link.title link |}.

(** The number of log entries of a link that satisfy [p]. *)
Fixpoint count_logs (p : AccessLog.t → bool) (link_id : Z)
    (logs : list AccessLog.t) : Z :=
  match logs with
  | [] => 0
  | g :: logs' =>
      (if (AccessLog.link_id g =? link_id) && p g then 1 else 0)
      + count_logs p link_id logs'
  end.

(** The counters of [l] count its entries in [logs]. *)
Definition summarised (logs : list AccessLog.t) (l : Link.t) : Prop :=
  Link.visit_count l = count_logs (λ _, true) (Link.id l) logs ∧
  Link.success_count l = count_logs AccessLog.access_granted (Link.id l) logs ∧
  Link.denied_count l
    = count_logs (λ g, negb (AccessLog.access_granted g)) (Link.id l) logs.

Definition log_summary (db : Db) : Prop :=
  NoDup (Link.id <$> links db) ∧
  (∀ x, x ∈ (AccessLog.link_id <$> access_logs db) →
        x ∈ (Link.id <$> links db)) ∧
  (∀ j l, links db !! j = Some l → summarised (access_logs db) l).

Definition next_fresh (db : Db) : Prop :=
  Links.next_link_id db ∉ (Link.id <$> links db).

(** The four ways a handler changes the database: not at all, by writing
    back a row with its key and counters kept, by inserting a row with a
    new key and zero counters, or by recording a visit. *)
Inductive effect (db : Db) : Db → Prop :=
| effect_none : effect db db
| effect_update i l l' :
    links db !! i = Some l → Link.id l' = Link.id l → same_counters l l' →
    effect db (Links.commit_link i l' db)
| effect_insert l' :
    Link.id l' = Links.next_link_id db →
    Link.visit_count l' = 0 ∧ Link.success_count l' = 0
      ∧ Link.denied_count l' = 0 →
    effect db (Links.add_link l' db)
| effect_visit i l allowed g :
    links db !! i = Some l → AccessLog.link_id g = Link.id l →
    AccessLog.access_granted g = allowed →
    effect db (Links.add_access_log g
                 (Links.commit_link i (visited allowed l) db)).

Section HaversineParts.
Context {libm : Libm}.

(** [sin(radians(d)/2)**2] for a difference [d] in degrees, and the part of
    [calculate_distance] that follows the computation of [a]. *)
Definition half_chord2 (d : float) : result float :=
  s ← sin (radians d / 2); float_pow2 s.

Definition central_angle (a : float) : result float :=
  q1 ← sqrt a; q2 ← sqrt (1 - a); t ← atan2 q1 q2;
  Ok (6371000 * (2 * t))%float.

End HaversineParts.

(** ** Sample data *)

#[local] Set Warnings "-inexact-float".

Module Sample.

Definition owner : User.t := {| User.id := 2; User.role := "admin" |}.
Definition root : User.t := {| User.id := 1; User.role := "super_admin" |}.

Definition office : Link.t :=
  {| Link.id := 1; Link.title := Some "Office";
     Link.short_code := "abc123";
     Link.target_url := "https://example.com/doc";
     Link.center_lat := 37.7749%float; Link.center_lng := (-122.4194)%float;
     Link.radius_meters := 100; Link.location_name := Some "HQ";
     Link.contact_wechat := None;
     Link.expire_at := None; Link.max_visits := None;
     Link.created_by := 2;
     Link.is_active := true; Link.is_banned := false;
     Link.is_deleted := false;
     Link.visit_count := 0; Link.success_count := 0;
     Link.denied_count := 0 |}.

Definition db_of (link : Link.t) : Db :=
  {| links := [link]; access_logs := [] |}.

Definition request : Request.t :=
  {| Request.user_agent := Some "Mozilla/5.0";
     Request.client_host := Some "203.0.113.7" |}.

(** About 11 m and about 122 m north of the centre, and the centre. *)
Definition near : LocationVerifyRequest.t :=
  {| LocationVerifyRequest.latitude := 37.7750%float;
     LocationVerifyRequest.longitude := (-122.4194)%float |}.
Definition far : LocationVerifyRequest.t :=
  {| LocationVerifyRequest.latitude := 37.7760%float;
     LocationVerifyRequest.longitude := (-122.4194)%float |}.
Definition centre : LocationVerifyRequest.t :=
  {| LocationVerifyRequest.latitude := 37.7749%float;
     LocationVerifyRequest.longitude := (-122.4194)%float |}.

(** 2023-11-14 and 2027-01-15. *)
Definition past : datetime := 1700000000000000.
Definition now : datetime := 1800000000000000.

Definition expired : Link.t := Link.set_expire_at (Some past) office.
Definition expired_disabled : Link.t := Link.set_is_active false expired.
Definition capped : Link.t :=
  Link.set_max_visits (Some 5)
    (Link.set_visit_count 5
       (Link.set_success_count 4 (Link.set_denied_count 1 office))).
Definition deleted : Link.t :=
  Link.set_is_active false (Link.set_is_deleted true office).
Definition banned : Link.t :=
  Link.set_is_active false (Link.set_is_banned true office).
Definition point : Link.t := Link.set_radius_meters 0 office.

Definition enable : LinkUpdate.t :=
  {| LinkUpdate.title := None; LinkUpdate.target_url := None;
     LinkUpdate.center_lat := None; LinkUpdate.center_lng := None;
     LinkUpdate.radius_meters := None; LinkUpdate.location_name := None;
     LinkUpdate.contact_wechat := None; LinkUpdate.is_active := Some true;
     LinkUpdate.expire_at := None; LinkUpdate.max_visits := None |}.

Definition verify :=
  Links.verify_location (libm := RefLibm.ref_libm).
Definition distance :=
  Geo.calculate_distance (libm := RefLibm.ref_libm).


(** A history from the empty database: the owner creates the link, one
    visitor is admitted and one is turned away. *)
Definition empty_db : Db := {| links := []; access_logs := [] |}.
Definition create_office : operation :=
  CreateLink (λ _, "abc123")
    {| LinkCreate.title := Some "Office";
       LinkCreate.target_url := "https://example.com/doc";
       LinkCreate.center_lat := 37.7749%float;
       LinkCreate.center_lng := (-122.4194)%float;
       LinkCreate.radius_meters := 100;
       LinkCreate.location_name := Some "HQ";
       LinkCreate.contact_wechat := None;
       LinkCreate.expire_at := None;
       LinkCreate.max_visits := None;
       LinkCreate.short_code := None |} owner.
Definition visited_twice : Db :=
  run (libm := RefLibm.ref_libm) (VerifyLocation "abc123" far request)
    (run (libm := RefLibm.ref_libm) (VerifyLocation "abc123" near request)
       (run (libm := RefLibm.ref_libm) create_office empty_db)).

End Sample.

(** ** app/core/config.py, app/core/security.py and the rest of
       app/api/links.py *)

(** [int / int] of CPython ([long_true_divide]) for a positive divisor: the
    double nearest to the exact quotient, [OverflowError] when that is out
    of range. *)
Module PyInt.
Definition truediv (a : Z) (b : positive) : result float :=
  let q := SF2Prim (SF64div (Z2SF (a <? 0) (Z.abs a)) (Z2SF false (Zpos b))) in
  if isinf q then Raise OverflowError else Ok q.
End PyInt.

(** The two settings [generate_short_code] reads, at their defaults. *)
Module Config.
Definition SHORT_CODE_LENGTH : nat := 6.
Definition SHORT_CODE_CHARS : string :=
  "abcdefghijklmnopqrstuvwxyzABCDEFGHIJKLMNOPQRSTUVWXYZ0123456789".
End Config.

Module Security.

(** [require_admin] and [require_super_admin], applied to the user that
    [get_current_user] returned. *)
Definition require_admin (current_user : User.t) : result User.t :=
  if bool_decide (User.role current_user ∉ ["admin"; "super_admin"])
  then Raise (HTTPException 403 "需要管理员权限")
  else Ok current_user.

Definition require_super_admin (current_user : User.t) : result User.t :=
  if negb (String.eqb (User.role current_user) "super_admin")
  then Raise (HTTPException 403 "需要超级管理员权限")
  else Ok current_user.

(** A route with [current_user: User = Depends(dependency)]: the handler
    runs on the user the dependency returns, and not at all when the
    dependency raises. *)
Definition depends {S A : Type} (dependency : User.t → result User.t)
    (handler : User.t → S → S * result A) (current_user : User.t) (s : S)
  : S * result A :=
  match dependency current_user with
  | Ok current_user => handler current_user s
  | Raise e => (s, Raise e)
  end.

End Security.

(** schemas/link.py, class [LinkStats]. *)
Module LinkStats.
Record t : Type := {
  total_visits : Z;
  successful_visits : Z;
  denied_visits : Z;
  success_rate : float
}.
End LinkStats.

(** The dict [get_global_stats] returns. *)
Module GlobalStats.
Record t : Type := {
  totalAdmins : Z;
  totalLinks : Z;
  totalVisits : Z
}.
End GlobalStats.

(** The handlers of links.py that read one link or the whole table, and
    [generate_short_code]. *)
Module LinkQueries.

(** [secrets.choice(seq)] is [seq[randbelow(len(seq))]].  The system's
    random source is a parameter: [rng k n] is what the [k]-th call of
    [randbelow] returns for the bound [n], a number below [n].  [None] is
    the [IndexError] of an index out of range. *)
Definition choice (rng : nat → nat → nat) (k : nat) (seq : string)
  : option Ascii.ascii :=
  String.get (rng k (String.length seq)) seq.

(** [''.join(secrets.choice(chars) for _ in range(n))], the draws numbered
    from [k]. *)
Fixpoint join_choices (rng : nat → nat → nat) (k n : nat) (chars : string)
  : option string :=
  match n with
  | O => Some ""
  | S n' =>
      c ← choice rng k chars;
      s ← join_choices rng (S k) n' chars;
      Some (String c s)
  end.

Definition generate_short_code (rng : nat → nat → nat) (k : nat)
  : option string :=
  join_choices rng k Config.SHORT_CODE_LENGTH Config.SHORT_CODE_CHARS.

(** The code the [attempt]-th call of [generate_short_code()] returns when
    every call consumes [SHORT_CODE_LENGTH] draws. *)
Definition nth_short_code (rng : nat → nat → nat) (attempt : nat) : string :=
  default "" (generate_short_code rng (Config.SHORT_CODE_LENGTH * attempt)).

Definition get_link (link_id : Z) (current_user : User.t) (db : Db)
  : Db * result Link.t :=
  match Links.query_link_by_id db link_id with
  | None => (db, Raise (HTTPException Links.HTTP_404_NOT_FOUND "短链接不存在"))
  | Some (_, link) =>
      if Link.is_deleted link then
        (db, Raise (HTTPException Links.HTTP_404_NOT_FOUND "短链接不存在"))
      else if Links.not_permitted current_user link then
        (db, Raise (HTTPException Links.HTTP_403_FORBIDDEN "无权查看此短链接"))
      else (db, Ok link)
  end.

Definition get_link_stats (link_id : Z) (current_user : User.t) (db : Db)
  : Db * result LinkStats.t :=
  match Links.query_link_by_id db link_id with
  | None => (db, Raise (HTTPException Links.HTTP_404_NOT_FOUND "短链接不存在"))
  | Some (_, link) =>
      if Link.is_deleted link then
        (db, Raise (HTTPException Links.HTTP_404_NOT_FOUND "短链接不存在"))
      else if Links.not_permitted current_user link then
        (db, Raise (HTTPException Links.HTTP_403_FORBIDDEN
                      "无权访问此链接统计"))
      else
        let success_rate :=
          match Link.visit_count link with
          | Zpos visit_count =>
              q ← PyInt.truediv (Link.success_count link) visit_count;
              Ok (round (q * 100) 2)
          | _ => Ok 0%float
          end in
        match success_rate with
        | Raise e => (db, Raise e)
        | Ok success_rate =>
            (db,
             Ok {| LinkStats.total_visits := Link.visit_count link;
                   LinkStats.successful_visits := Link.success_count link;
                   LinkStats.denied_visits := Link.denied_count link;
                   LinkStats.success_rate := success_rate |})
        end
  end.

(** [db.query(func.sum(Link.visit_count)).scalar()]: SQL's [SUM], which is
    [NULL] over no rows. *)
Definition sum_scalar (column : list Z) : option Z :=
  match column with
  | [] => None
  | _ => Some (foldr Z.add 0 column)
  end.

(** [x or 0] for an optional int. *)
Definition or_zero (x : option Z) : Z :=
  match x with
  | Some v => if v =? 0 then 0 else v
  | None => 0
  end.

(** [users] are the rows of the table [users]. *)
Definition get_global_stats (users : list User.t) (current_user : User.t)
    (db : Db) : Db * result GlobalStats.t :=
  if negb (Links.is_super_admin current_user) then
    (db, Raise (HTTPException Links.HTTP_403_FORBIDDEN "无权访问"))
  else
    let total_admins := Z.of_nat (length users) in
    let total_links := Z.of_nat (length (links db)) in
    let total_visits := or_zero (sum_scalar (Link.visit_count <$> links db)) in
    (db, Ok {| GlobalStats.totalAdmins := total_admins;
               GlobalStats.totalLinks := total_links;
               GlobalStats.totalVisits := total_visits |}).

End LinkQueries.

(** The routes of links.py that take [Depends(require_admin)]. *)
Module Routes.
Definition create_link (generate_short_code : nat → string)
    (link_data : LinkCreate.t) :=
  Security.depends Security.require_admin
    (Links.create_link generate_short_code link_data).
Definition get_link (link_id : Z) :=
  Security.depends Security.require_admin (LinkQueries.get_link link_id).
Definition update_link (link_id : Z) (link_data : LinkUpdate.t) :=
  Security.depends Security.require_admin
    (Links.update_link link_id link_data).
Definition delete_link (link_id : Z) :=
  Security.depends Security.require_admin (Links.delete_link link_id).
Definition restore_link (link_id : Z) :=
  Security.depends Security.require_admin (Links.restore_link link_id).
Definition get_link_stats (link_id : Z) :=
  Security.depends Security.require_admin
    (LinkQueries.get_link_stats link_id).
Definition get_global_stats (users : list User.t) :=
  Security.depends Security.require_admin
    (LinkQueries.get_global_stats users).
End Routes.

(** ** app/models/blocked_ip.py, the blocklist handlers of app/api/admin.py
       and app/core/middleware.py *)

Module BlockedIp.
Record t : Type := {
  id : Z;
  ip_address : string;
  reason : option string;
  created_by : Z
}.
End BlockedIp.

Module BlockedIpCreate.
Record t : Type := {
  ip_address : string;
  reason : option string
}.
End BlockedIpCreate.

(** The table [blocked_ips] in table order, and the last value of the
    sequence of its primary key.  Rows of this table are removed, so the
    sequence is kept apart: the key of a removed row is not given out
    again. *)
Record BlockedIps : Type := {
  blocked_rows : list BlockedIp.t;
  blocked_seq : Z
}.

Module Admin.

Definition block_ip (ip_data : BlockedIpCreate.t) (current_user : User.t)
    (db : BlockedIps) : BlockedIps * result BlockedIp.t :=
  match list_find
          (λ r, BlockedIp.ip_address r = BlockedIpCreate.ip_address ip_data)
          (blocked_rows db) with
  | Some _ =>
      (db, Raise (HTTPException Links.HTTP_400_BAD_REQUEST "该IP已在黑名单中"))
  | None =>
      let new_blocked_ip :=
        {| BlockedIp.id := blocked_seq db + 1;
           BlockedIp.ip_address := BlockedIpCreate.ip_address ip_data;
           BlockedIp.reason := BlockedIpCreate.reason ip_data;
           BlockedIp.created_by := User.id current_user |} in
      ({| blocked_rows := blocked_rows db ++ [new_blocked_ip];
          blocked_seq := blocked_seq db + 1 |},
       Ok new_blocked_ip)
  end.

(** [db.delete(blocked_ip); db.commit()] removes the row with the key of
    the loaded one. *)
Definition unblock_ip (ip_id : Z) (current_user : User.t) (db : BlockedIps)
  : BlockedIps * result unit :=
  match list_find (λ r, BlockedIp.id r = ip_id) (blocked_rows db) with
  | None => (db, Raise (HTTPException Links.HTTP_404_NOT_FOUND "IP记录不存在"))
  | Some (_, blocked_ip) =>
      ({| blocked_rows :=
            filter (λ r, BlockedIp.id r ≠ BlockedIp.id blocked_ip)
              (blocked_rows db);
          blocked_seq := blocked_seq db |},
       Ok ())
  end.

End Admin.

(** The two blocklist routes, with [Depends(require_super_admin)]. *)
Inductive blocklist_operation : Type :=
| BlockIp (ip_data : BlockedIpCreate.t) (current_user : User.t)
| UnblockIp (ip_id : Z) (current_user : User.t).

Definition run_blocklist (op : blocklist_operation) (db : BlockedIps)
  : BlockedIps :=
  match op with
  | BlockIp d u =>
      fst (Security.depends Security.require_super_admin
             (Admin.block_ip d) u db)
  | UnblockIp k u =>
      fst (Security.depends Security.require_super_admin
             (Admin.unblock_ip k) u db)
  end.

Inductive blocklist_reachable : BlockedIps → Prop :=
| blocklist_empty :
    blocklist_reachable {| blocked_rows := []; blocked_seq := 0 |}
| blocklist_run (op : blocklist_operation) (db : BlockedIps) :
    blocklist_reachable db → blocklist_reachable (run_blocklist op db).

Module IPBlockMiddleware.

(** The attributes of the middleware object.  [last_update] starts as the
    int 0, which the subtraction in [_update_blocked_ips] converts to the
    float 0.0. *)
Record t : Type := {
  blocked_ips : gset string;
  last_update : float;
  update_interval : Z
}.

Definition __init__ : t :=
  {| blocked_ips := ∅; last_update := 0%float; update_interval := 60 |}.

(** [current_time] is the value of [time.time()], [table] the rows the
    query of the session returns. *)
Definition _update_blocked_ips (current_time : float)
    (table : list BlockedIp.t) (self : t) : t :=
  if Py.gt (current_time - last_update self)%float
       (Int (update_interval self))
  then {| blocked_ips := list_to_set (BlockedIp.ip_address <$> table);
          last_update := current_time;
          update_interval := update_interval self |}
  else self.

(** What [dispatch] answers: its own [JSONResponse], the response of
    [call_next], or the [AttributeError] of [request.client.host] when
    [request.client] is [None]. *)
Inductive outcome (A : Type) : Type :=
| JSONResponse (status_code : Z) (detail : string)
| Forwarded (response : A)
| AttributeError.
Arguments JSONResponse {A} status_code detail.
Arguments Forwarded {A} response.
Arguments AttributeError {A}.

Definition dispatch {S A : Type} (current_time : float)
    (table : list BlockedIp.t) (request : Request.t)
    (call_next : S → S * A) (self : t) (s : S) : t * S * outcome A :=
  let self := _update_blocked_ips current_time table self in
  match Request.client_host request with
  | None => (self, s, AttributeError)
  | Some client_ip =>
      if bool_decide (client_ip ∈ blocked_ips self) then
        (self, s,
         JSONResponse Links.HTTP_403_FORBIDDEN
           "Your IP address has been blocked.")
      else
        let '(s, response) := call_next s in
        (self, s, Forwarded response)
  end.

End IPBlockMiddleware.

(** ** Vocabulary of the further properties *)

(** The user an operation is called by. *)
Definition operation_user (op : operation) : option User.t :=
  match op with
  | CreateLink _ _ u | UpdateLink _ _ u | DeleteLink _ u | RestoreLink _ u =>
      Some u
  | GetPublicLinkInfo _ | VerifyLocation _ _ _ => None
  end.

(** The columns no handler assigns after the row was created. *)
Definition same_identity (l l' : Link.t) : Prop :=
  Link.id l' = Link.id l ∧ Link.short_code l' = Link.short_code l ∧
  Link.created_by l' = Link.created_by l.

(** The assignments of [update_link] before and after its block on
    [is_active]. *)
Definition update_first (link_data : LinkUpdate.t) (link : Link.t) : Link.t :=
  let link :=
    Links.assign (LinkUpdate.title link_data)
      (λ v, Link.set_title (Some v)) link in
  let link :=
    Links.assign (LinkUpdate.target_url link_data) Link.set_target_url link in
  let link :=
    Links.assign (LinkUpdate.center_lat link_data) Link.set_center_lat link in
  let link :=
    Links.assign (LinkUpdate.center_lng link_data) Link.set_center_lng link in
  let link :=
    Links.assign (LinkUpdate.radius_meters link_data)
      Link.set_radius_meters link in
  let link :=
    Links.assign (LinkUpdate.location_name link_data)
      (λ v, Link.set_location_name (Some v)) link in
  Links.assign (LinkUpdate.contact_wechat link_data)
    (λ v, Link.set_contact_wechat (Some v)) link.

Definition update_last (link_data : LinkUpdate.t) (link : Link.t) : Link.t :=
  let link :=
    Links.assign (LinkUpdate.expire_at link_data)
      (λ v, Link.set_expire_at (Some v)) link in
  Links.assign (LinkUpdate.max_visits link_data)
    (λ v, Link.set_max_visits (Some v)) link.

(** A column that none of the assignments of [update_link],
    [delete_link], [restore_link] and [verify_location] touches. *)
Definition untouched {B : Type} (f : Link.t → B) : Prop :=
  (∀ v l, f (Link.set_title v l) = f l) ∧
  (∀ v l, f (Link.set_target_url v l) = f l) ∧
  (∀ v l, f (Link.set_center_lat v l) = f l) ∧
  (∀ v l, f (Link.set_center_lng v l) = f l) ∧
  (∀ v l, f (Link.set_radius_meters v l) = f l) ∧
  (∀ v l, f (Link.set_location_name v l) = f l) ∧
  (∀ v l, f (Link.set_contact_wechat v l) = f l) ∧
  (∀ v l, f (Link.set_expire_at v l) = f l) ∧
  (∀ v l, f (Link.set_max_visits v l) = f l) ∧
  (∀ v l, f (Link.set_is_active v l) = f l) ∧
  (∀ v l, f (Link.set_is_banned v l) = f l) ∧
  (∀ v l, f (Link.set_is_deleted v l) = f l) ∧
  (∀ v l, f (Link.set_visit_count v l) = f l) ∧
  (∀ v l, f (Link.set_success_count v l) = f l) ∧
  (∀ v l, f (Link.set_denied_count v l) = f l).

(** A [LinkUpdate] with no field set: the body [{}]. *)
Definition empty_update : LinkUpdate.t :=
  {| LinkUpdate.title := None; LinkUpdate.target_url := None;
     LinkUpdate.center_lat := None; LinkUpdate.center_lng := None;
     LinkUpdate.radius_meters := None; LinkUpdate.location_name := None;
     LinkUpdate.contact_wechat := None; LinkUpdate.is_active := None;
     LinkUpdate.expire_at := None; LinkUpdate.max_visits := None |}.

(** Who may read, change and delete a link through the admin routes. *)
Definition may_manage (u : User.t) (link : Link.t) : Prop :=
  User.role u = "super_admin" ∨
  (User.role u = "admin" ∧ Link.created_by link = User.id u).

(** Agreement of two rows on the columns the handlers assign, apart from
    [is_active] and [is_deleted]; and on all of them.  Nothing is said of
    [updated_at], which the server sets whenever a row is written. *)
Definition same_settings (l l' : Link.t) : Prop :=
  Link.id l' = Link.id l ∧ Link.title l' = Link.title l ∧
  Link.short_code l' = Link.short_code l ∧
  Link.target_url l' = Link.target_url l ∧
  Link.center_lat l' = Link.center_lat l ∧
  Link.center_lng l' = Link.center_lng l ∧
  Link.radius_meters l' = Link.radius_meters l ∧
  Link.location_name l' = Link.location_name l ∧
  Link.contact_wechat l' = Link.contact_wechat l ∧
  Link.expire_at l' = Link.expire_at l ∧
  Link.max_visits l' = Link.max_visits l ∧
  Link.created_by l' = Link.created_by l ∧
  Link.is_banned l' = Link.is_banned l ∧
  Link.visit_count l' = Link.visit_count l ∧
  Link.success_count l' = Link.success_count l ∧
  Link.denied_count l' = Link.denied_count l.

Definition same_columns (l l' : Link.t) : Prop :=
  same_settings l l' ∧ Link.is_active l' = Link.is_active l ∧
  Link.is_deleted l' = Link.is_deleted l.

Definition characters (s : string) : list Ascii.ascii := list_ascii_of_string s.

(** ** More sample data *)

Module Scenario.

Definition guest : User.t := {| User.id := 3; User.role := "user" |}.
Definition other : User.t := {| User.id := 4; User.role := "admin" |}.

(** A link centred near the antimeridian and a visitor almost opposite
    on the globe. *)
Definition dateline : Link.t :=
  Link.set_center_lat (-2.5)%float (Link.set_center_lng 180%float Sample.office).
Definition antipode : LocationVerifyRequest.t :=
  {| LocationVerifyRequest.latitude := 2.5%float;
     LocationVerifyRequest.longitude := 0%float |}.

Definition custom : LinkCreate.t :=
  {| LinkCreate.title := Some "Lab";
     LinkCreate.target_url := "https://example.com/lab";
     LinkCreate.center_lat := 48.8584%float;
     LinkCreate.center_lng := 2.2945%float;
     LinkCreate.radius_meters := 50;
     LinkCreate.location_name := None;
     LinkCreate.contact_wechat := Some "lab-admin";
     LinkCreate.expire_at := Some Sample.now;
     LinkCreate.max_visits := Some 3;
     LinkCreate.short_code := Some "lab" |}.
Definition random : LinkCreate.t :=
  {| LinkCreate.title := LinkCreate.title custom;
     LinkCreate.target_url := LinkCreate.target_url custom;
     LinkCreate.center_lat := LinkCreate.center_lat custom;
     LinkCreate.center_lng := LinkCreate.center_lng custom;
     LinkCreate.radius_meters := LinkCreate.radius_meters custom;
     LinkCreate.location_name := LinkCreate.location_name custom;
     LinkCreate.contact_wechat := LinkCreate.contact_wechat custom;
     LinkCreate.expire_at := LinkCreate.expire_at custom;
     LinkCreate.max_visits := LinkCreate.max_visits custom;
     LinkCreate.short_code := None |}.

(** A random source that counts up, and the code it spells first. *)
Definition counting (k n : nat) : nat := (k mod n)%nat.

Definition rename : LinkUpdate.t :=
  {| LinkUpdate.title := Some "Head office"; LinkUpdate.target_url := None;
     LinkUpdate.center_lat := None; LinkUpdate.center_lng := None;
     LinkUpdate.radius_meters := None; LinkUpdate.location_name := None;
     LinkUpdate.contact_wechat := None; LinkUpdate.is_active := None;
     LinkUpdate.expire_at := None; LinkUpdate.max_visits := None |}.
Definition spammer : BlockedIpCreate.t :=
  {| BlockedIpCreate.ip_address := "203.0.113.7";
     BlockedIpCreate.reason := Some "abuse" |}.
Definition no_blocked : BlockedIps :=
  {| blocked_rows := []; blocked_seq := 0 |}.
Definition one_blocked : BlockedIps :=
  fst (Admin.block_ip spammer Sample.root no_blocked).

(** Seconds since the epoch: a refresh, 30 s later, 90 s later. *)
Definition t0 : float := 1800000000%float.
Definition t1 : float := 1800000030%float.
Definition t2 : float := 1800000090%float.
Definition refreshed : IPBlockMiddleware.t :=
  IPBlockMiddleware._update_blocked_ips t0 [] IPBlockMiddleware.__init__.

Definition spammer_row : BlockedIp.t :=
  {| BlockedIp.id := 1; BlockedIp.ip_address := "203.0.113.7";
     BlockedIp.reason := Some "abuse"; BlockedIp.created_by := 1 |}.
Definition listed : IPBlockMiddleware.t :=
  IPBlockMiddleware._update_blocked_ips t0 (blocked_rows one_blocked)
    IPBlockMiddleware.__init__.

(** A request for the short code of the sample link. *)
Definition reuse : LinkCreate.t :=
  {| LinkCreate.title := None;
     LinkCreate.target_url := "https://example.com/new";
     LinkCreate.center_lat := 0; LinkCreate.center_lng := 0;
     LinkCreate.radius_meters := 10; LinkCreate.location_name := None;
     LinkCreate.contact_wechat := None; LinkCreate.expire_at := None;
     LinkCreate.max_visits := None;
     LinkCreate.short_code := Some "abc123" |}.

(** A table of two links: a deleted one and an active one. *)
Definition lab : Link.t :=
  Links.new_link (Sample.db_of Sample.deleted) "lab" custom Sample.owner.
Definition archive : Db :=
  {| links := [Sample.deleted; lab]; access_logs := [] |}.

End Scenario.

(** * Properties *)

(** ** Facts of binary64 arithmetic *)

Section FloatFacts.
#[local] Open Scope float_scope.

Lemma compare_cont_refl m : PosDef.Pos.compare_cont Eq m m = Eq.
Proof. exact (Pos.compare_cont_refl m Eq). Qed.

Lemma SFcompare_refl_finite s m e :
  SFcompare (S754_finite s m e) (S754_finite s m e) = Some Eq.
Proof.
  destruct s; simpl; by rewrite Z.compare_refl, compare_cont_refl.
Qed.

Lemma isnan_spec x :
  isnan x = match Prim2SF x with S754_nan => true | _ => false end.
Proof.
  unfold isnan, is_nan. rewrite FloatAxioms.eqb_spec. unfold SFeqb.
  destruct (Prim2SF x) as [s|s| |s m e]; [by destruct s..|done|].
  by rewrite SFcompare_refl_finite.
Qed.

Lemma isinf_spec x :
  isinf x = match Prim2SF x with S754_infinity _ => true | _ => false end.
Proof.
  unfold isinf, is_infinity. rewrite FloatAxioms.eqb_spec, abs_spec.
  by destruct (Prim2SF x) as [s|s| |s m e].
Qed.

Lemma isfinite_spec x :
  isfinite x = match Prim2SF x with
               | S754_zero _ | S754_finite _ _ _ => true
               | _ => false
               end.
Proof.
  unfold isfinite, is_finite.
  change (negb (isnan x || isinf x) = match Prim2SF x with
               | S754_zero _ | S754_finite _ _ _ => true
               | _ => false
               end).
  rewrite isnan_spec, isinf_spec. by destruct (Prim2SF x).
Qed.

Lemma SFopp_involutive x : SFopp (SFopp x) = x.
Proof. destruct x as [s|s| |s m e]; simpl; by rewrite ?negb_involutive. Qed.

Lemma opp_involutive x : - - x = x.
Proof. apply Prim2SF_inj. by rewrite !opp_spec, SFopp_involutive. Qed.

(** Rounding does not look at the sign. *)
Lemma binary_round_aux_opp s m e l :
  binary_round_aux prec emax (negb s) m e l
    = SFopp (binary_round_aux prec emax s m e l).
Proof.
  unfold binary_round_aux.
  destruct (shr_fexp prec emax m e l) as [mrs' e'].
  destruct (shr_fexp prec emax _ e' loc_Exact) as [mrs'' e''].
  destruct (shr_m mrs''); [done| |done].
  by destruct (e'' <=? emax - prec)%Z.
Qed.

Lemma xorb_negb_l a b : xorb (negb a) b = negb (xorb a b).
Proof. by destruct a, b. Qed.

Lemma SFmul_opp_l x y : SF64mul (SFopp x) y = SFopp (SF64mul x y).
Proof.
  destruct x as [sx|sx| |sx mx ex], y as [sy|sy| |sy my ey]; simpl;
    rewrite ?xorb_negb_l; try done.
  apply binary_round_aux_opp.
Qed.

Lemma SFdiv_opp_l x y : SF64div (SFopp x) y = SFopp (SF64div x y).
Proof.
  destruct x as [sx|sx| |sx mx ex], y as [sy|sy| |sy my ey]; simpl;
    rewrite ?xorb_negb_l; try done.
  destruct (SFdiv_core_binary prec emax _ ex _ ey) as [[mz ez] lz].
  apply binary_round_aux_opp.
Qed.

Lemma SFmul_comm x y : SF64mul x y = SF64mul y x.
Proof.
  destruct x as [sx|sx| |sx mx ex], y as [sy|sy| |sy my ey]; simpl;
    rewrite ?(xorb_comm sx sy); try done.
  by rewrite Pos.mul_comm, Z.add_comm.
Qed.

Lemma mul_opp_l x y : (- x) * y = - (x * y).
Proof.
  apply Prim2SF_inj. by rewrite opp_spec, !mul_spec, opp_spec, SFmul_opp_l.
Qed.

Lemma mul_comm x y : x * y = y * x.
Proof. apply Prim2SF_inj. by rewrite !mul_spec, SFmul_comm. Qed.

Lemma mul_opp_opp x : (- x) * (- x) = x * x.
Proof. by rewrite mul_opp_l, (mul_comm x), mul_opp_l, opp_involutive. Qed.

Lemma div_opp_l x y : (- x) / y = - (x / y).
Proof.
  apply Prim2SF_inj. by rewrite opp_spec, !div_spec, opp_spec, SFdiv_opp_l.
Qed.

Lemma binary_normalize_opp m e :
  m ≠ 0%Z →
  binary_normalize prec emax (- m) e false
    = SFopp (binary_normalize prec emax m e false).
Proof.
  intros Hm. destruct m as [|p|p]; [done|..]; simpl; unfold binary_round;
    destruct (shl_align _ _ _) as [mz ez].
  - apply (binary_round_aux_opp false).
  - by rewrite (binary_round_aux_opp false), SFopp_involutive.
Qed.

(** Exchanging the operands of a subtraction negates the difference,
    except that a zero difference is [+0] both ways. *)
Lemma SFsub_antisym x y :
  SF64sub y x = SFopp (SF64sub x y) ∨ SF64sub y x = SF64sub x y.
Proof.
  destruct x as [sx|sx| |sx mx ex], y as [sy|sy| |sy my ey];
    try (destruct sx, sy; simpl; by auto);
    try (simpl; rewrite ?negb_involutive; by auto).
  unfold SF64sub, SFsub. rewrite (Z.min_comm ey ex).
  set (a := cond_Zopp sx _). set (b := cond_Zopp sy _).
  destruct (decide (a - b = 0)%Z) as [Hab|Hab].
  - right. replace (b - a)%Z with 0%Z by lia. by rewrite Hab.
  - left. replace (b - a)%Z with (- (a - b))%Z by lia.
    by apply binary_normalize_opp.
Qed.

Lemma sub_antisym x y : y - x = - (x - y) ∨ y - x = x - y.
Proof.
  destruct (SFsub_antisym (Prim2SF x) (Prim2SF y)) as [H|H]; [left|right];
    apply Prim2SF_inj; by rewrite ?opp_spec, !sub_spec.
Qed.

Lemma SFsub_diag x :
  match x with S754_zero _ | S754_finite _ _ _ => True | _ => False end →
  SF64sub x x = S754_zero false.
Proof.
  destruct x as [s|s| |s m e]; try done; intros _.
  - by destruct s.
  - unfold SF64sub, SFsub. by rewrite Z.sub_diag.
Qed.

Lemma sub_diag x : isfinite x = true → x - x = 0.
Proof.
  rewrite isfinite_spec. intros Hx. apply Prim2SF_inj.
  rewrite sub_spec, SFsub_diag; [done|]. by destruct (Prim2SF x).
Qed.

Lemma isnan_opp x : isnan (- x) = isnan x.
Proof. rewrite !isnan_spec, opp_spec. by destruct (Prim2SF x). Qed.

Lemma isinf_opp x : isinf (- x) = isinf x.
Proof. rewrite !isinf_spec, opp_spec. by destruct (Prim2SF x). Qed.

Lemma isfinite_opp x : isfinite (- x) = isfinite x.
Proof. rewrite !isfinite_spec, opp_spec. by destruct (Prim2SF x). Qed.

Lemma isnan_eq x : isnan x = true → x = nan.
Proof.
  rewrite isnan_spec. intros Hx. apply Prim2SF_inj.
  by destruct (Prim2SF x).
Qed.

Lemma abs_opp x : abs (- x) = abs x.
Proof.
  apply Prim2SF_inj. rewrite !abs_spec, opp_spec. by destruct (Prim2SF x).
Qed.

Lemma eqb_zero_opp x : (- x =? 0) = (x =? 0).
Proof.
  rewrite !FloatAxioms.eqb_spec, opp_spec.
  by destruct (Prim2SF x) as [s|s| |s m e]; try destruct s.
Qed.

(** The absolute value [float_pow] takes of a nonzero base. *)
Lemma abs_by_sign_opp x :
  isnan x = false → (x =? 0) = false →
  (if - x <? 0 then - - x else - x) = (if x <? 0 then - x else x).
Proof.
  rewrite isnan_spec, FloatAxioms.eqb_spec, !FloatAxioms.ltb_spec, opp_spec,
    opp_involutive.
  destruct (Prim2SF x) as [s|s| |s m e]; try done; by destruct s.
Qed.

(** A value between two finite bounds is finite: what the [ge]/[le]
    constraints of [LocationVerifyRequest] give. *)
Lemma between_isfinite lo hi x :
  isfinite lo = true → isfinite hi = true →
  (lo <=? x) = true → (x <=? hi) = true → isfinite x = true.
Proof.
  rewrite !isfinite_spec, !FloatAxioms.leb_spec. unfold SFleb.
  destruct (Prim2SF x) as [s|s| |s m e]; try done;
    destruct (Prim2SF lo) as [sl|sl| |sl ml el]; try done;
    destruct (Prim2SF hi) as [sh|sh| |sh mh eh]; try done;
    by destruct s.
Qed.

Lemma valid_isfinite (r : LocationVerifyRequest.t) :
  LocationVerifyRequest.valid r = true →
  isfinite (LocationVerifyRequest.latitude r) = true ∧
  isfinite (LocationVerifyRequest.longitude r) = true.
Proof.
  unfold LocationVerifyRequest.valid.
  intros [[[Hlat1 Hlat2]%andb_prop Hlng1]%andb_prop Hlng2]%andb_prop.
  split; [by apply (between_isfinite (-90) 90)
         |by apply (between_isfinite (-180) 180)].
Qed.

End FloatFacts.

(** ** Products of small floats do not overflow *)

Section Rounding.

Lemma digits2_pos_upper m : Zpos m < 2 ^ Zpos (digits2_pos m).
Proof.
  induction m as [p IH|p IH|]; simpl digits2_pos; [| |done];
    rewrite Pos2Z.inj_succ, Z.pow_succ_r by lia; lia.
Qed.

Lemma digits2_pos_lower m : 2 ^ (Zpos (digits2_pos m) - 1) ≤ Zpos m.
Proof.
  induction m as [p IH|p IH|]; simpl digits2_pos; [| |done];
    rewrite Pos2Z.inj_succ;
    replace (Z.succ (Zpos (digits2_pos p)) - 1)
      with (Z.succ (Zpos (digits2_pos p) - 1)) by lia;
    rewrite Z.pow_succ_r by lia; lia.
Qed.

Lemma Zdigits2_le z k : 0 ≤ k → 0 ≤ z < 2 ^ k → Zdigits2 z ≤ k.
Proof.
  intros Hk [Hz0 Hz]. destruct z as [|p|p]; simpl; [done| |lia].
  destruct (decide (Zpos (digits2_pos p) ≤ k)) as [|Hgt]; [done|].
  pose proof (digits2_pos_lower p) as Hlow.
  assert (2 ^ k ≤ 2 ^ (Zpos (digits2_pos p) - 1)); [|lia].
  apply Z.pow_le_mono_r; lia.
Qed.

Lemma iter_pos_invariant {A} (P : A → Prop) (f : A → A) n x :
  (∀ y, P y → P (f y)) → P x → P (SpecFloat.iter_pos f n x).
Proof.
  intros Hf. revert x. induction n as [n IH|n IH|]; simpl; auto.
Qed.

Lemma shr_1_bound M mrs :
  0 ≤ shr_m mrs ≤ M → 0 ≤ shr_m (shr_1 mrs) ≤ M.
Proof.
  destruct mrs as [m r s]. simpl.
  destruct m as [|[p|p|]|[p|p|]]; simpl; lia.
Qed.

(** [shr_fexp] never enlarges a non-negative mantissa, and the exponent
    it returns is the larger of the given one and the canonical one. *)
Lemma shr_fexp_bound m e l mrs' e' :
  0 ≤ m →
  shr_fexp prec emax m e l = (mrs', e') →
  0 ≤ shr_m mrs' ≤ m ∧ e' ≤ Z.max e (fexp prec emax (Zdigits2 m + e)).
Proof.
  intros Hm. unfold shr_fexp, shr.
  assert (Hinit : 0 ≤ shr_m (shr_record_of_loc m l) ≤ m).
  { destruct l as [|[]]; simpl; lia. }
  destruct (fexp prec emax (Zdigits2 m + e) - e) as [|n|n] eqn:Hn;
    intros [= <- <-]; [split; [done|lia]| |split; [done|lia]].
  split; [|lia].
  apply (iter_pos_invariant (λ mrs, 0 ≤ shr_m mrs ≤ m)); [|done].
  apply shr_1_bound.
Qed.

Lemma round_nearest_even_bound m l :
  m ≤ round_nearest_even m l ≤ m + 1.
Proof.
  destruct l as [|[]]; simpl; try lia. destruct (Z.even m); lia.
Qed.

(** Rounding a mantissa below [2^106] at an exponent of at most [-104]
    gives a zero or a finite number. *)
Lemma binary_round_aux_small s m e :
  0 ≤ m < 2 ^ 106 → e ≤ -104 →
  binary_round_aux prec emax s m e loc_Exact = S754_zero s ∨
  ∃ m' e', binary_round_aux prec emax s m e loc_Exact = S754_finite s m' e'.
Proof.
  intros Hm He. unfold binary_round_aux.
  destruct (shr_fexp prec emax m e loc_Exact) as [mrs' e'] eqn:H1.
  apply shr_fexp_bound in H1 as [Hm' He']; [|lia].
  pose proof (round_nearest_even_bound (shr_m mrs') (loc_of_shr_record mrs'))
    as Hr.
  set (m1 := round_nearest_even _ _) in *.
  destruct (shr_fexp prec emax m1 e' loc_Exact) as [mrs'' e''] eqn:H2.
  apply shr_fexp_bound in H2 as [Hm'' He'']; [|lia].
  assert (Zdigits2 m ≤ 106) by (apply Zdigits2_le; lia).
  assert (Zdigits2 m1 ≤ 107).
  { apply Zdigits2_le; [lia|]. change (2 ^ 107) with (2 * 2 ^ 106). lia. }
  unfold fexp, emin, prec, emax in *.
  destruct (shr_m mrs'') as [|p|p]; [by left| |lia].
  right. exists p, e''.
  destruct (e'' <=? 1024 - 53) eqn:Hle; [done|]. lia.
Qed.

Lemma bounded_digits m e :
  bounded prec emax m e = true → Zpos m < 2 ^ 53.
Proof.
  unfold bounded, canonical_mantissa, fexp, emin, prec, emax.
  intros [Hc _]%andb_prop. apply Z.eqb_eq in Hc.
  pose proof (digits2_pos_upper m) as Hm.
  assert (2 ^ Zpos (digits2_pos m) ≤ 2 ^ 53); [|lia].
  apply Z.pow_le_mono_r; lia.
Qed.

End Rounding.

Section Small.
#[local] Open Scope float_scope.

(** A float of magnitude at most one, as a specification float. *)
Lemma abs_le_one_spec c :
  (abs c <=? 1) = true →
  (∃ s, Prim2SF c = S754_zero s) ∨
  (∃ s m e,
     Prim2SF c = S754_finite s m e ∧ (Zpos m < 2 ^ 53)%Z ∧ (e ≤ -52)%Z).
Proof.
  rewrite FloatAxioms.leb_spec, abs_spec. pose proof (Prim2SF_valid c) as Hv.
  destruct (Prim2SF c) as [s|s| |s m e]; [left; by exists s|done|done|].
  intros Hle. right. exists s, m, e. split; [done|].
  split; [by apply (bounded_digits m e)|].
  change (Prim2SF 1) with (S754_finite false 4503599627370496 (-52)) in Hle.
  unfold SFleb, SFcompare, SFabs in Hle.
  destruct (Z.compare_spec e (-52)) as [He|He|He]; [lia|lia|done].
Qed.

Lemma abs_le_one_isnan c : (abs c <=? 1) = true → isnan c = false.
Proof.
  intros [[s Hc]|(s & m & e & Hc & _)]%abs_le_one_spec;
    by rewrite isnan_spec, Hc.
Qed.

Lemma abs_le_one_isinf c : (abs c <=? 1) = true → isinf c = false.
Proof.
  intros [[s Hc]|(s & m & e & Hc & _)]%abs_le_one_spec;
    by rewrite isinf_spec, Hc.
Qed.

Lemma square_mul_zero c : (abs c <=? 1) = true → c * c * 0 = 0.
Proof.
  intros Hc. apply Prim2SF_inj. rewrite !mul_spec.
  change (Prim2SF 0) with (S754_zero false).
  apply abs_le_one_spec in Hc as [[s ->]|(s & m & e & -> & Hm & He)].
  - by destruct s.
  - unfold SF64mul at 2. unfold SFmul.
    destruct (binary_round_aux_small (xorb s s) (Zpos (m * m)) (e + e))
      as [-> | (m' & e' & ->)]; [| lia | |]; simpl;
      rewrite ?xorb_nilpotent; try done.
    rewrite Pos2Z.inj_mul. change (2 ^ 106)%Z with (2 ^ 53 * 2 ^ 53)%Z.
    split; [lia|]. apply Z.mul_lt_mono_nonneg; lia.
Qed.

End Small.

(** ** The haversine distance *)

Section Haversine.
Context {libm : Libm}.
#[local] Open Scope float_scope.

Lemma math_1_opp func can_overflow x :
  func (- x) = - func x →
  math_1 func can_overflow (- x) = opp <$> math_1 func can_overflow x.
Proof.
  intros Hodd. unfold math_1. cbv zeta.
  rewrite Hodd, !isnan_opp, !isinf_opp, isfinite_opp.
  destruct (isnan (func x) && negb (isnan x)); [done|].
  by destruct (isinf (func x) && isfinite x).
Qed.

Lemma float_pow2_opp x : float_pow2 (- x) = float_pow2 x.
Proof.
  unfold float_pow2. rewrite isnan_opp, isinf_opp, abs_opp, eqb_zero_opp.
  destruct (isnan x) eqn:Hnan.
  { apply isnan_eq in Hnan. by subst x. }
  destruct (isinf x); [done|].
  destruct (x =? 0) eqn:Hzero; [done|].
  cbv zeta. by rewrite abs_by_sign_opp.
Qed.

Lemma calculate_distance_unfold lat1 lng1 lat2 lng2 :
  Geo.calculate_distance lat1 lng1 lat2 lng2 =
    p1 ← half_chord2 (lat2 - lat1);
    c1 ← cos (radians lat1);
    c2 ← cos (radians lat2);
    p2 ← half_chord2 (lng2 - lng1);
    central_angle (p1 + c1 * c2 * p2).
Proof.
  unfold Geo.calculate_distance, half_chord2, central_angle. cbv zeta.
  destruct (sin (radians (lat2 - lat1) / 2)) as [s1|e]; [|done]. simpl.
  destruct (float_pow2 s1) as [p1|e]; [|done]. simpl.
  destruct (cos (radians lat1)) as [c1|e]; [|done]. simpl.
  destruct (cos (radians lat2)) as [c2|e]; [|done]. simpl.
  by destruct (sin (radians (lng2 - lng1) / 2)) as [s2|e].
Qed.

Lemma cos_Raise x e : cos x = Raise e → e = ValueError.
Proof.
  unfold cos, math_1. cbv zeta.
  destruct (isnan (c_cos x) && negb (isnan x)); [congruence|].
  destruct (isinf (c_cos x) && isfinite x); congruence.
Qed.

Lemma cos_bounded_Ok x :
  (abs (c_cos x) <=? 1) = true → cos x = Ok (c_cos x).
Proof.
  intros Hc. unfold cos, math_1. cbv zeta.
  by rewrite (abs_le_one_isnan _ Hc), (abs_le_one_isinf _ Hc).
Qed.

Section Odd.
Hypothesis sin_odd : ∀ x, c_sin (- x) = - c_sin x.

Lemma half_chord2_opp d : half_chord2 (- d) = half_chord2 d.
Proof.
  unfold half_chord2, radians, sin.
  rewrite mul_opp_l, div_opp_l, math_1_opp by apply sin_odd.
  destruct (math_1 c_sin false (d * degToRad / 2)) as [s|e]; [|done].
  apply float_pow2_opp.
Qed.

Lemma half_chord2_sub x y : half_chord2 (y - x) = half_chord2 (x - y).
Proof.
  destruct (sub_antisym x y) as [-> | ->]; [apply half_chord2_opp|done].
Qed.

Lemma calculate_distance_sym lat1 lng1 lat2 lng2 :
  Geo.calculate_distance lat1 lng1 lat2 lng2
    = Geo.calculate_distance lat2 lng2 lat1 lng1.
Proof.
  rewrite !calculate_distance_unfold.
  rewrite (half_chord2_sub lat1 lat2), (half_chord2_sub lng1 lng2).
  destruct (half_chord2 (lat1 - lat2)) as [p1|e]; [|done]. simpl.
  destruct (cos (radians lat1)) as [c1|e1] eqn:H1,
           (cos (radians lat2)) as [c2|e2] eqn:H2; simpl; try done.
  - by rewrite (mul_comm c1 c2).
  - apply cos_Raise in H1, H2. by subst.
Qed.

End Odd.

Section Zero.
Hypothesis sin_zero : c_sin 0 = 0.
Hypothesis atan2_zero : c_atan2 0 1 = 0.

Lemma half_chord2_zero : half_chord2 0 = Ok 0.
Proof.
  unfold half_chord2, radians, sin, math_1. cbv zeta.
  change (0 * degToRad / 2) with 0. by rewrite sin_zero.
Qed.

Lemma central_angle_zero : central_angle 0 = Ok 0.
Proof.
  unfold central_angle, atan2, math_2. cbv zeta.
  change (sqrt 0) with (Ok 0 : result float).
  change (sqrt (1 - 0)) with (Ok 1 : result float).
  simpl. by rewrite atan2_zero.
Qed.

Lemma calculate_distance_self lat lng :
  isfinite lat = true → isfinite lng = true →
  (abs (c_cos (radians lat)) <=? 1) = true →
  Geo.calculate_distance lat lng lat lng = Ok 0.
Proof.
  intros Hlat Hlng Hcos. rewrite calculate_distance_unfold.
  rewrite !sub_diag, half_chord2_zero, cos_bounded_Ok by done. simpl.
  rewrite square_mul_zero by done.
  change (0 + 0) with 0. apply central_angle_zero.
Qed.

End Zero.

End Haversine.

(** The reference sine is odd. *)
Lemma ref_sin_odd x : RefLibm.ref_sin (- x) = (- RefLibm.ref_sin x)%float.
Proof. unfold RefLibm.ref_sin. by rewrite mul_opp_opp, mul_opp_l. Qed.

(** C8.  The distance is symmetric, and the distance of a point to itself
    is zero.  [calculate_distance] is computed in binary64 through the C
    library, so the statement is for every libm whose sine is odd and
    exact at zero and whose [atan2 (0, 1)] is zero.  Symmetry holds for
    all floats: the two calls have the same outcome (the same float, or
    the same exception), so when one returns a number, Python's [==] of
    the two distances is true.  The zero distance is for finite
    coordinates at which the cosine the library returns lies in
    [-1, 1]. *)
Theorem calculate_distance_symmetric_zero {libm : Libm} :
  (∀ x, c_sin (- x) = (- c_sin x)%float) →
  c_sin 0 = 0%float →
  c_atan2 0 1 = 0%float →
  (∀ lat1 lng1 lat2 lng2,
     Geo.calculate_distance lat1 lng1 lat2 lng2
       = Geo.calculate_distance lat2 lng2 lat1 lng1) ∧
  (∀ lat1 lng1 lat2 lng2 d,
     Geo.calculate_distance lat1 lng1 lat2 lng2 = Ok d →
     isnan d = false →
     ∃ d', Geo.calculate_distance lat2 lng2 lat1 lng1 = Ok d' ∧
           (d =? d')%float = true) ∧
  (∀ lat lng,
     isfinite lat = true → isfinite lng = true →
     (abs (c_cos (radians lat)) <=? 1)%float = true →
     Geo.calculate_distance lat lng lat lng = Ok 0%float).
Proof.
  intros Hodd Hsin Hatan. split_and!.
  - intros. by apply calculate_distance_sym.
  - intros lat1 lng1 lat2 lng2 d Hd Hnan. exists d.
    rewrite <-(calculate_distance_sym Hodd). split; [done|].
    unfold isnan, is_nan in Hnan. by apply negb_false_iff in Hnan.
  - intros. by apply calculate_distance_self.
Qed.

Lemma calculate_distance_symmetric_zero_witness :
  Sample.distance 37.7750 (-122.4194) 37.7749 (-122.4194)
    = Sample.distance 37.7749 (-122.4194) 37.7750 (-122.4194) ∧
  (∃ d', Sample.distance 37.7749 (-122.4194) 37.7750 (-122.4194) = Ok d' ∧
         (11.119492664034915 =? d')%float = true) ∧
  Sample.distance 37.7749 (-122.4194) 37.7749 (-122.4194) = Ok 0%float.
Proof.
  destruct (calculate_distance_symmetric_zero (libm := RefLibm.ref_libm)
              ref_sin_odd eq_refl eq_refl) as (Hsym & Heqb & Hzero).
  split_and!.
  - apply Hsym.
  - eapply Heqb; [vm_compute|]; reflexivity.
  - apply Hzero; reflexivity.
Defined.

(** ** Comparison of the distance with the radius *)

Lemma eq_le x y : Py.eq x y = true → Py.le x y = true.
Proof. unfold eq, le. by destruct (float_compare x y) as [[]|]. Qed.

Lemma gt_not_le x y : Py.gt x y = true → Py.le x y = false.
Proof. unfold gt, le. by destruct (float_compare x y) as [[]|]. Qed.

(** The comparison is exact: a distance one unit in the last place above
    an integral radius is outside, the radius itself is inside. *)
Example le_at_radius :
  Py.le 100%float (Int 100) = true ∧
  Py.le (next_up 100%float) (Int 100) = false ∧
  Py.le (next_down 100%float) (Int 100) = true.
Proof. by vm_compute. Qed.

(** ** The handlers *)

Section Handlers.
Context {libm : Libm}.

Lemma query_link_by_short_code_Some db short_code i link :
  Links.query_link_by_short_code db short_code = Some (i, link) →
  links db !! i = Some link ∧ Link.short_code link = short_code.
Proof.
  unfold Links.query_link_by_short_code.
  intros Hfind. apply list_find_Some in Hfind. tauto.
Qed.

Lemma query_link_by_id_Some db link_id i link :
  Links.query_link_by_id db link_id = Some (i, link) →
  links db !! i = Some link ∧ Link.id link = link_id.
Proof.
  unfold Links.query_link_by_id.
  intros Hfind. apply list_find_Some in Hfind. tauto.
Qed.

Lemma same_counters_refl l : same_counters l l.
Proof. by repeat split. Qed.

Lemma same_counters_trans l1 l2 l3 :
  same_counters l1 l2 → same_counters l2 l3 → same_counters l1 l3.
Proof. unfold same_counters. intuition congruence. Qed.

Lemma assign_same_counters {A} (v : option A) set l :
  (∀ x l0, same_counters l0 (set x l0)) →
  same_counters l (Links.assign v set l).
Proof. intros Hs. destruct v; simpl; [apply Hs | apply same_counters_refl]. Qed.

Lemma assign_is_banned {A} (v : option A) set (link : Link.t) :
  (∀ x l, Link.is_banned (set x l) = Link.is_banned l) →
  Link.is_banned (Links.assign v set link) = Link.is_banned link.
Proof. intros Hset. destruct v; simpl; [apply Hset | done]. Qed.

Lemma update_is_active_same_counters a u l l' :
  Links.update_is_active a u l = Ok l' → same_counters l l'.
Proof.
  unfold Links.update_is_active. intros Hupd.
  destruct a as [a|]; [|injection Hupd as <-; apply same_counters_refl].
  destruct (Link.is_banned l && a && negb (Links.is_super_admin u)); [done|].
  injection Hupd as <-.
  destruct (Links.is_super_admin u && a); by repeat split.
Qed.

Lemma update_is_active_super (current_user : User.t) (link : Link.t) :
  Links.is_super_admin current_user = true →
  Links.update_is_active (Some true) current_user link
    = Ok (Link.set_is_active true (Link.set_is_banned false link)).
Proof.
  intros Hsuper. unfold Links.update_is_active. rewrite Hsuper.
  by rewrite andb_false_r.
Qed.

Lemma update_is_active_banned (current_user : User.t) (link : Link.t) :
  Links.is_super_admin current_user = false →
  Link.is_banned link = true →
  Links.update_is_active (Some true) current_user link
    = Raise (HTTPException 403 "此链接已被管理员封禁，无法启用").
Proof.
  intros Hsuper Hban. unfold Links.update_is_active.
  by rewrite Hsuper, Hban.
Qed.

(** The row at position [j] after a commit at position [i]. *)
Lemma lookup_commit_link i j link db :
  links (Links.commit_link i link db) !! j =
    if decide (i = j) then (λ _, link) <$> links db !! j else links db !! j.
Proof.
  unfold Links.commit_link; simpl. case_decide as Hij.
  - subst j. destruct (links db !! i) eqn:Hi; simpl.
    + apply list_lookup_insert_eq. by eapply lookup_lt_Some.
    + rewrite list_insert_ge; [done|]. by apply lookup_ge_None.
  - by apply list_lookup_insert_ne.
Qed.

(** [verify_location], case by case. *)
Lemma verify_location_cases short_code location request db :
  Links.verify_location short_code location request db =
    match Links.query_link_by_short_code db short_code with
    | None => (db, Raise (HTTPException 404 "短链接不存在"))
    | Some (i, link) =>
        if Link.is_deleted link then
          (db, Raise (HTTPException 404 "短链接不存在"))
        else if negb (Link.is_active link) then
          (db, Raise (HTTPException 403
                        (if Link.is_banned link then "此链接已被管理员封禁"
                         else "此链接已被禁用")))
        else
          match Geo.is_within_radius
                  (LocationVerifyRequest.latitude location)
                  (LocationVerifyRequest.longitude location)
                  (Link.center_lat link) (Link.center_lng link)
                  (Int (Link.radius_meters link)) with
          | Raise e => (db, Raise e)
          | Ok (allowed, distance) =>
              (Links.add_access_log
                 (access_log_of link location request allowed distance)
                 (Links.commit_link i (visited allowed link) db),
               Ok (response_of link allowed distance))
          end
    end.
Proof.
  unfold Links.verify_location.
  destruct (Links.query_link_by_short_code db short_code) as [[i link]|];
    [|done].
  destruct (Link.is_deleted link); [done|].
  destruct (Link.is_active link); simpl; [|done].
  destruct (Geo.is_within_radius _ _ _ _ _) as [[allowed distance]|e]; [|done].
  by destruct allowed.
Qed.

Lemma verify_location_Ok short_code location request db db' response :
  Links.verify_location short_code location request db = (db', Ok response) →
  ∃ i link allowed distance,
    Links.query_link_by_short_code db short_code = Some (i, link) ∧
    Link.is_deleted link = false ∧ Link.is_active link = true ∧
    Geo.is_within_radius
      (LocationVerifyRequest.latitude location)
      (LocationVerifyRequest.longitude location)
      (Link.center_lat link) (Link.center_lng link)
      (Int (Link.radius_meters link)) = Ok (allowed, distance) ∧
    response = response_of link allowed distance ∧
    db' = Links.add_access_log
            (access_log_of link location request allowed distance)
            (Links.commit_link i (visited allowed link) db).
Proof.
  rewrite verify_location_cases.
  destruct (Links.query_link_by_short_code db short_code) as [[i link]|];
    [|done].
  destruct (Link.is_deleted link) eqn:Hdel; [done|].
  destruct (Link.is_active link) eqn:Hact; simpl; [|done].
  destruct (Geo.is_within_radius _ _ _ _ _) as [[allowed distance]|e] eqn:Hgeo;
    [|done].
  intros [= <- <-]. by exists i, link, allowed, distance.
Qed.

(** X3.  A verification that raises leaves the database as it was: no
    counter changes and no log entry is added. *)
Lemma verify_location_Raise short_code location request db db' e :
  Links.verify_location short_code location request db = (db', Raise e) →
  db' = db.
Proof.
  rewrite verify_location_cases.
  destruct (Links.query_link_by_short_code db short_code) as [[i link]|];
    [|congruence].
  destruct (Link.is_deleted link); [congruence|].
  destruct (Link.is_active link); simpl; [|congruence].
  destruct (Geo.is_within_radius _ _ _ _ _) as [[allowed distance]|e'];
    congruence.
Qed.

Lemma assign_id {A} (v : option A) set (link : Link.t) :
  (∀ x l, Link.id (set x l) = Link.id l) →
  Link.id (Links.assign v set link) = Link.id link.
Proof. intros Hset. destruct v; simpl; [apply Hset | done]. Qed.

Lemma update_is_active_id a u l l' :
  Links.update_is_active a u l = Ok l' → Link.id l' = Link.id l.
Proof.
  unfold Links.update_is_active. intros Hupd.
  destruct a as [a|]; [|by injection Hupd as <-].
  destruct (Link.is_banned l && a && negb (Links.is_super_admin u)); [done|].
  injection Hupd as <-. by destruct (Links.is_super_admin u && a).
Qed.

Lemma foldr_max_bound (x : Z) (xs : list Z) :
  x ∈ xs → x ≤ foldr Z.max 0 xs.
Proof.
  induction xs as [|y xs IH]; simpl; intros Hx; [by apply elem_of_nil in Hx|].
  apply elem_of_cons in Hx as [->|Hx]; [lia|]. specialize (IH Hx). lia.
Qed.

Lemma next_link_id_fresh db : next_fresh db.
Proof.
  unfold next_fresh, Links.next_link_id. intros Hin.
  apply foldr_max_bound in Hin. lia.
Qed.

(** What one operation does to the database. *)
Lemma run_effect (op : operation) (db : Db) : effect db (run op db).
Proof.
  destruct op as [g d u|k d u|k u|k u|c|c loc r]; simpl.
  - unfold Links.create_link.
    destruct (match LinkCreate.short_code d with Some _ => _ | None => _ end)
      as [sc|e]; simpl; [|by apply effect_none].
    by apply effect_insert.
  - unfold Links.update_link.
    destruct (Links.query_link_by_id db k) as [[i l]|] eqn:Hq;
      [|by apply effect_none].
    apply query_link_by_id_Some in Hq as [Hi _].
    destruct (Link.is_deleted l); [by apply effect_none|].
    destruct (Links.not_permitted u l); [by apply effect_none|].
    match goal with |- context [Links.update_is_active ?a ?u ?l0] =>
      destruct (Links.update_is_active a u l0) as [l1|e] eqn:Hupd;
      [assert (same_counters l l0 ∧ Link.id l0 = Link.id l) as [Hs0 Hid0]
      |by apply effect_none] end.
    { split; [|by rewrite !assign_id].
      repeat (eapply same_counters_trans;
              [|apply assign_same_counters; by repeat split]).
      apply same_counters_refl. }
    cbn [fst]. apply (effect_update _ i l); [done| |].
    + rewrite !assign_id by done.
      apply update_is_active_id in Hupd. congruence.
    + apply update_is_active_same_counters in Hupd.
      eapply same_counters_trans; [exact Hs0|].
      eapply same_counters_trans; [exact Hupd|].
      eapply same_counters_trans;
        [|apply assign_same_counters; by repeat split].
      apply assign_same_counters; by repeat split.
  - unfold Links.delete_link.
    destruct (Links.query_link_by_id db k) as [[i l]|] eqn:Hq;
      [|by apply effect_none].
    apply query_link_by_id_Some in Hq as [Hi _].
    destruct (Link.is_deleted l); [by apply effect_none|].
    destruct (Links.not_permitted u l); [by apply effect_none|].
    cbv zeta. cbn [fst].
    apply (effect_update _ i l); [done|by destruct (_ && _)|].
    destruct (_ && _); by repeat split.
  - unfold Links.restore_link.
    destruct (Links.query_link_by_id db k) as [[i l]|] eqn:Hq;
      [|by apply effect_none].
    apply query_link_by_id_Some in Hq as [Hi _].
    destruct (Links.not_permitted u l); [by apply effect_none|].
    destruct (Link.is_deleted l); [|by apply effect_none].
    cbv zeta. cbn [fst negb]. by apply (effect_update _ i l).
  - unfold Links.get_public_link_info.
    destruct (Links.query_link_by_short_code db c) as [[i l]|];
      [|by apply effect_none].
    destruct (Link.is_deleted l); by apply effect_none.
  - rewrite verify_location_cases.
    destruct (Links.query_link_by_short_code db c) as [[i l]|] eqn:Hq;
      [|by apply effect_none].
    apply query_link_by_short_code_Some in Hq as [Hi _].
    destruct (Link.is_deleted l); [by apply effect_none|].
    destruct (Link.is_active l); simpl; [|by apply effect_none].
    destruct (Geo.is_within_radius _ _ _ _ _) as [[allowed distance]|e];
      [|by apply effect_none].
    cbn [fst]. by apply effect_visit.
Qed.

(** A row that was there stays in place, with the same counters or with
    one more recorded visit. *)
Lemma effect_row db db' (j : nat) (link : Link.t) :
  effect db db' → links db !! j = Some link →
  ∃ link', links db' !! j = Some link' ∧
    (same_counters link link' ∨ ∃ allowed, link' = visited allowed link).
Proof.
  intros Heff Hj.
  destruct Heff as [|i l l' Hi Hid Hsame|l' Hid Hzero|i l allowed g Hi Hg Ha].
  - exists link. split; [done|]. left. apply same_counters_refl.
  - rewrite lookup_commit_link. case_decide as Hij.
    + subst j. assert (l = link) as -> by congruence.
      rewrite Hj. exists l'. split; [done|]. by left.
    + exists link. split; [done|]. left. apply same_counters_refl.
  - exists link. split; [by apply lookup_app_l_Some|].
    left. apply same_counters_refl.
  - unfold Links.add_access_log. cbn [links].
    rewrite lookup_commit_link. case_decide as Hij.
    + subst j. assert (l = link) as -> by congruence.
      rewrite Hj. exists (visited allowed link). split; [done|].
      right. by exists allowed.
    + exists link. split; [done|]. left. apply same_counters_refl.
Qed.

(** Every row after an operation is a row that was there, or a new row
    with zero counters. *)
Lemma effect_rows db db' (j : nat) (link' : Link.t) :
  effect db db' → links db' !! j = Some link' →
  (∃ link, links db !! j = Some link ∧
     (same_counters link link' ∨ ∃ allowed, link' = visited allowed link)) ∨
  (Link.visit_count link' = 0 ∧ Link.success_count link' = 0 ∧
   Link.denied_count link' = 0).
Proof.
  intros Heff Hj'. destruct (links db !! j) as [link|] eqn:Hj.
  - destruct (effect_row db db' j link Heff Hj) as (l & Hl & Hrel).
    assert (l = link') as -> by congruence. left. by exists link.
  - destruct Heff as [|i l l' Hi Hid Hsame|l' Hid Hzero|i l allowed g Hi Hg Ha].
    + congruence.
    + rewrite lookup_commit_link, Hj in Hj'. by case_decide.
    + apply lookup_app_Some in Hj' as [Hold|[_ Hnew]]; [congruence|].
      apply list_lookup_singleton_Some in Hnew as [_ <-]. by right.
    + unfold Links.add_access_log in Hj'. cbn [links] in Hj'.
      rewrite lookup_commit_link, Hj in Hj'. by case_decide.
Qed.

(** X4.  A [restore_link] that succeeds is on a row of [links] with the
    given key that is deleted and that the caller may restore: he is a
    super admin or the row's creator.  It commits that row with
    [is_deleted] cleared and [is_active] set, and leaves [is_banned] as it
    was. *)
Lemma restore_link_flags (link_id : Z) (current_user : User.t) (db db' : Db)
    (link' : Link.t) :
  Links.restore_link link_id current_user db = (db', Ok link') →
  ∃ i link,
    Links.query_link_by_id db link_id = Some (i, link) ∧
    links db !! i = Some link ∧ Link.id link = link_id ∧
    Link.is_deleted link = true ∧
    (User.role current_user = "super_admin"
       ∨ Link.created_by link = User.id current_user) ∧
    db' = Links.commit_link i link' db ∧
    links db' !! i = Some link' ∧
    Link.is_deleted link' = false ∧ Link.is_active link' = true ∧
    Link.is_banned link' = Link.is_banned link.
Proof.
  unfold Links.restore_link.
  destruct (Links.query_link_by_id db link_id) as [[i link]|] eqn:Hq; [|done].
  pose proof Hq as [Hi Hid]%query_link_by_id_Some.
  destruct (Links.not_permitted current_user link) eqn:Hperm; [done|].
  destruct (Link.is_deleted link) eqn:Hdel; simpl; [|done].
  intros [= <- <-]. exists i, link. split_and!; try done.
  - unfold Links.not_permitted, Links.is_super_admin in Hperm.
    apply andb_false_iff in Hperm as [Hs|Ho].
    + left. by apply negb_false_iff, String.eqb_eq in Hs.
    + right. by apply negb_false_iff, Z.eqb_eq in Ho.
  - rewrite lookup_commit_link, decide_True by done. by rewrite Hi.
Qed.

End Handlers.

(** ** Looking a row up *)

Section Lookup.

Lemma query_link_by_short_code_None db short_code :
  Links.query_link_by_short_code db short_code = None ↔
  short_code ∉ (Link.short_code <$> links db).
Proof.
  unfold Links.query_link_by_short_code.
  rewrite list_find_None, Forall_forall, list_elem_of_fmap. split.
  - intros Hall (l & -> & Hl). by apply (Hall l).
  - intros Hnot l Hl Heq. apply Hnot. by exists l.
Qed.

Lemma query_link_by_short_code_is_Some db short_code :
  is_Some (Links.query_link_by_short_code db short_code) ↔
  short_code ∈ (Link.short_code <$> links db).
Proof.
  rewrite <-not_eq_None_Some, query_link_by_short_code_None.
  destruct (decide (short_code ∈ Link.short_code <$> links db)); tauto.
Qed.

Lemma query_link_by_id_None db link_id :
  Links.query_link_by_id db link_id = None ↔
  link_id ∉ (Link.id <$> links db).
Proof.
  unfold Links.query_link_by_id.
  rewrite list_find_None, Forall_forall, list_elem_of_fmap. split.
  - intros Hall (l & -> & Hl). by apply (Hall l).
  - intros Hnot l Hl Heq. apply Hnot. by exists l.
Qed.

Lemma NoDup_fmap_inj_on {A B} (f : A → B) (l : list A) (x y : A) :
  NoDup (f <$> l) → x ∈ l → y ∈ l → f x = f y → x = y.
Proof.
  intros Hnodup [i Hi]%list_elem_of_lookup [j Hj]%list_elem_of_lookup Heq.
  assert (i = j) as ->; [|congruence].
  apply (NoDup_lookup (f <$> l) i j (f x)); [done|..];
    rewrite list_lookup_fmap; [by rewrite Hi|by rewrite Hj, Heq].
Qed.

End Lookup.

(** ** The claims *)

Import Sample.

(** C1 (as amended).  For a link whose [expire_at] lies in the past and
    which is deleted or not active, [verify_location] rejects the request:
    404 when the link is deleted, otherwise 403 with the message of a
    banned or of a disabled link.  The flags are tested before anything
    else; the database, hence the three counters and the access log, is
    unchanged. *)
Theorem expired_link_flags_first {libm : Libm} (now expire_at : datetime)
    (db : Db) (short_code : string) (i : nat) (link : Link.t)
    (location : LocationVerifyRequest.t) (request : Request.t) :
  Links.query_link_by_short_code db short_code = Some (i, link) →
  Link.expire_at link = Some expire_at →
  expire_at < now →
  Link.is_deleted link = true ∨ Link.is_active link = false →
  Links.verify_location short_code location request db =
    (db,
     Raise (if Link.is_deleted link
            then HTTPException 404 "短链接不存在"
            else HTTPException 403
                   (if Link.is_banned link then "此链接已被管理员封禁"
                    else "此链接已被禁用"))).
Proof.
  intros Hq _ _ Hflags. rewrite verify_location_cases, Hq.
  destruct (Link.is_deleted link); [done|].
  destruct Hflags as [?|Hact]; [done|]. by rewrite Hact.
Qed.

Lemma expired_link_flags_first_witness :
  verify "abc123" near request (db_of expired_disabled)
    = (db_of expired_disabled, Raise (HTTPException 403 "此链接已被禁用")).
Proof.
  apply (expired_link_flags_first (libm := RefLibm.ref_libm) now past
           (db_of expired_disabled) "abc123" 0 expired_disabled near request).
  - vm_compute. reflexivity.
  - reflexivity.
  - reflexivity.
  - right. reflexivity.
Defined.

(** C1, as stated, fails.  An expired link that its owner disabled is
    reported as disabled (403), not as expired: the flags come first.
    And [verify_location] never reads [expire_at]: an active link past
    its expiry is verified like any other, the visitor is admitted, the
    visit is counted and logged. *)
Lemma expired_link_is_not_reported_expired :
  (Link.expire_at expired_disabled = Some past ∧ past < now ∧
   verify "abc123" near request (db_of expired_disabled)
     = (db_of expired_disabled,
        Raise (HTTPException 403 "此链接已被禁用"))) ∧
  (Link.expire_at expired = Some past ∧ past < now ∧
   Link.is_active expired = true ∧
   ∃ db' response,
     verify "abc123" near request (db_of expired) = (db', Ok response) ∧
     LocationVerifyResponse.allowed response = true ∧
     LocationVerifyResponse.target_url response
       = Some "https://example.com/doc" ∧
     Link.visit_count <$> links db' = [1] ∧
     Link.success_count <$> links db' = [1] ∧
     length (access_logs db') = 1%nat).
Proof.
  split.
  - split; [reflexivity|]. split; [reflexivity|]. vm_compute. reflexivity.
  - do 3 (split; [reflexivity|]).
    eexists _, _. split; [vm_compute; reflexivity|]. by repeat split.
Qed.

(** C2.  The code at the failing input: a link with [max_visits = 5] and
    [visit_count = 5] still grants access, hands out the target URL and
    counts a sixth visit. *)
Theorem verify_location_ignores_max_visits :
  Link.max_visits capped = Some 5 ∧ Link.visit_count capped = 5 ∧
  Link.is_active capped = true ∧ Link.is_deleted capped = false ∧
  ∃ db' response,
    verify "abc123" near request (db_of capped) = (db', Ok response) ∧
    LocationVerifyResponse.allowed response = true ∧
    LocationVerifyResponse.target_url response
      = Some "https://example.com/doc" ∧
    Link.visit_count <$> links db' = [6] ∧
    Link.success_count <$> links db' = [5] ∧
    length (access_logs db') = 1%nat.
Proof.
  do 4 (split; [reflexivity|]).
  eexists _, _. split; [vm_compute; reflexivity|]. by repeat split.
Qed.

(** C3.  The code at the failing input: the super admin bans the link of
    another admin, the owner deletes the banned link and restores it; the
    restored link is still marked banned and [verify_location] grants
    access to it. *)
Theorem restored_banned_link_is_accessible :
  let db1 := fst (Links.delete_link 1 root (db_of office)) in
  let db2 := fst (Links.delete_link 1 owner db1) in
  let db3 := fst (Links.restore_link 1 owner db2) in
  Link.is_banned <$> links db1 = [true] ∧
  snd (verify "abc123" near request db1)
    = Raise (HTTPException 403 "此链接已被管理员封禁") ∧
  Link.is_deleted <$> links db2 = [true] ∧
  Link.is_banned <$> links db3 = [true] ∧
  Link.is_deleted <$> links db3 = [false] ∧
  Link.is_active <$> links db3 = [true] ∧
  ∃ db4 response,
    verify "abc123" near request db3 = (db4, Ok response) ∧
    LocationVerifyResponse.allowed response = true ∧
    LocationVerifyResponse.target_url response
      = Some "https://example.com/doc".
Proof.
  cbv zeta. do 6 (split; [vm_compute; reflexivity|]).
  eexists _, _. split; [vm_compute; reflexivity|]. by split.
Qed.

(** C4.  Whatever the operation, every row of [links] stays in place with
    counters that did not decrease, and [success_count + denied_count =
    visit_count] is preserved.  When the operation is a verification of
    this row that returns a response, [visit_count] grew by one, exactly
    one of [success_count] and [denied_count] grew by one, according to
    the verdict, and one log entry with that verdict was appended. *)
Theorem counters_never_diverge {libm : Libm} (op : operation) (db : Db) (i : nat)
    (link : Link.t) :
  links db !! i = Some link →
  ∃ link', links (run op db) !! i = Some link' ∧
    Link.visit_count link ≤ Link.visit_count link' ∧
    Link.success_count link ≤ Link.success_count link' ∧
    Link.denied_count link ≤ Link.denied_count link' ∧
    (counters_consistent link → counters_consistent link') ∧
    (∀ short_code location request db' response,
       op = VerifyLocation short_code location request →
       Links.verify_location short_code location request db
         = (db', Ok response) →
       Links.query_link_by_short_code db short_code = Some (i, link) →
       Link.visit_count link' = Link.visit_count link + 1 ∧
       Link.success_count link' = Link.success_count link
         + (if LocationVerifyResponse.allowed response then 1 else 0) ∧
       Link.denied_count link' = Link.denied_count link
         + (if LocationVerifyResponse.allowed response then 0 else 1) ∧
       ∃ log, access_logs db' = (access_logs db ++ [log])%list ∧
         AccessLog.link_id log = Link.id link ∧
         AccessLog.access_granted log
           = LocationVerifyResponse.allowed response).
Proof.
  intros Hi.
  destruct (effect_row db (run op db) i link (run_effect op db) Hi)
    as (link' & Hi' & Hrow).
  exists link'. split; [done|].
  assert (Hmono : Link.visit_count link ≤ Link.visit_count link' ∧
    Link.success_count link ≤ Link.success_count link' ∧
    Link.denied_count link ≤ Link.denied_count link' ∧
    (counters_consistent link → counters_consistent link')).
  { unfold counters_consistent.
    destruct Hrow as [(Hv & Hs & Hd)|[allowed ->]].
    - rewrite Hv, Hs, Hd. repeat split; lia || done.
    - destruct allowed; simpl; repeat split; lia. }
  destruct Hmono as (? & ? & ? & ?). repeat (split; [done|]).
  intros short_code location request db' response -> Hver Hq.
  cbn [run] in Hi'. rewrite Hver in Hi'. cbn [fst] in Hi'.
  apply verify_location_Ok in Hver
    as (i0 & link0 & allowed & distance & Hq0 & _ & _ & _ & -> & ->).
  rewrite Hq in Hq0. injection Hq0 as <- <-.
  unfold Links.add_access_log in Hi' |- *. cbn [links access_logs] in Hi' |- *.
  rewrite lookup_commit_link, decide_True in Hi' by done.
  rewrite Hi in Hi'. injection Hi' as <-.
  split_and!; [destruct allowed; simpl; lia..|].
  eexists. by split_and!.
Qed.

Lemma counters_never_diverge_witness :
  ∃ link',
    links (run (libm := RefLibm.ref_libm)
             (VerifyLocation "abc123" far request) (db_of capped)) !! 0%nat
      = Some link' ∧
    Link.visit_count capped ≤ Link.visit_count link' ∧
    Link.success_count capped ≤ Link.success_count link' ∧
    Link.denied_count capped ≤ Link.denied_count link' ∧
    (counters_consistent capped → counters_consistent link') ∧
    (∀ short_code location request db' response,
       VerifyLocation "abc123" far Sample.request
         = VerifyLocation short_code location request →
       verify short_code location request (db_of capped)
         = (db', Ok response) →
       Links.query_link_by_short_code (db_of capped) short_code
         = Some (0%nat, capped) →
       Link.visit_count link' = Link.visit_count capped + 1 ∧
       Link.success_count link' = Link.success_count capped
         + (if LocationVerifyResponse.allowed response then 1 else 0) ∧
       Link.denied_count link' = Link.denied_count capped
         + (if LocationVerifyResponse.allowed response then 0 else 1) ∧
       ∃ log,
         access_logs db' = (access_logs (db_of capped) ++ [log])%list ∧
         AccessLog.link_id log = Link.id capped ∧
         AccessLog.access_granted log
           = LocationVerifyResponse.allowed response).
Proof.
  apply (counters_never_diverge (libm := RefLibm.ref_libm)
           (VerifyLocation "abc123" far request) (db_of capped) 0 capped).
  reflexivity.
Defined.

(** C5.  The verdict of a verification is [distance <= radius_meters],
    the exact comparison of the computed distance with the link's radius:
    a distance equal to the radius is admitted, a larger one is denied. *)
Theorem geofence_verdict_inclusive {libm : Libm} (short_code : string)
    (location : LocationVerifyRequest.t) (request : Request.t)
    (db db' : Db) (response : LocationVerifyResponse.t) :
  Links.verify_location short_code location request db = (db', Ok response) →
  ∃ i link distance,
    Links.query_link_by_short_code db short_code = Some (i, link) ∧
    Geo.calculate_distance
      (LocationVerifyRequest.latitude location)
      (LocationVerifyRequest.longitude location)
      (Link.center_lat link) (Link.center_lng link) = Ok distance ∧
    Geo.is_within_radius
      (LocationVerifyRequest.latitude location)
      (LocationVerifyRequest.longitude location)
      (Link.center_lat link) (Link.center_lng link)
      (Int (Link.radius_meters link))
      = Ok (Py.le distance (Int (Link.radius_meters link)), distance) ∧
    LocationVerifyResponse.allowed response
      = Py.le distance (Int (Link.radius_meters link)) ∧
    (Py.eq distance (Int (Link.radius_meters link)) = true →
       LocationVerifyResponse.allowed response = true) ∧
    (Py.gt distance (Int (Link.radius_meters link)) = true →
       LocationVerifyResponse.allowed response = false).
Proof.
  intros Hver.
  apply verify_location_Ok in Hver
    as (i & link & allowed & distance & Hq & _ & _ & Hgeo & -> & _).
  exists i, link, distance. split; [done|].
  unfold Geo.is_within_radius in Hgeo |- *.
  destruct (Geo.calculate_distance _ _ _ _) as [d|e]; [|done].
  simpl in Hgeo |- *. injection Hgeo as <- <-.
  split_and!; [done..|apply eq_le|apply gt_not_le].
Qed.

(** The witness is on the boundary: a link of radius 0 and a visitor at
    its centre, at distance 0. *)
Lemma geofence_verdict_inclusive_witness :
  ∃ db' response,
    verify "abc123" centre request (db_of point) = (db', Ok response) ∧
    ∃ i link distance,
      Links.query_link_by_short_code (db_of point) "abc123"
        = Some (i, link) ∧
      Sample.distance
        (LocationVerifyRequest.latitude centre)
        (LocationVerifyRequest.longitude centre)
        (Link.center_lat link) (Link.center_lng link) = Ok distance ∧
      Geo.is_within_radius (libm := RefLibm.ref_libm)
        (LocationVerifyRequest.latitude centre)
        (LocationVerifyRequest.longitude centre)
        (Link.center_lat link) (Link.center_lng link)
        (Int (Link.radius_meters link))
        = Ok (Py.le distance (Int (Link.radius_meters link)), distance) ∧
      LocationVerifyResponse.allowed response
        = Py.le distance (Int (Link.radius_meters link)) ∧
      (Py.eq distance (Int (Link.radius_meters link)) = true →
         LocationVerifyResponse.allowed response = true) ∧
      (Py.gt distance (Int (Link.radius_meters link)) = true →
         LocationVerifyResponse.allowed response = false).
Proof.
  eexists _, _. split; [vm_compute; reflexivity|].
  eapply (geofence_verdict_inclusive (libm := RefLibm.ref_libm)
            "abc123" centre request (db_of point)).
  vm_compute. reflexivity.
Defined.

(** The two visitors of the sample data, about 11.1 m and about 122 m from
    the centre of a link of radius 100: the first is admitted, the second
    is not.  On these inputs the reference library returns the floats
    that CPython's [math] returns. *)
Example sample_distances :
  Sample.distance 37.7750 (-122.4194) 37.7749 (-122.4194)
    = Ok 11.119492664034915%float ∧
  Sample.distance 37.7760 (-122.4194) 37.7749 (-122.4194)
    = Ok 122.31441930912459%float ∧
  LocationVerifyResponse.allowed
    <$> snd (verify "abc123" near request (db_of office)) = Ok true ∧
  LocationVerifyResponse.allowed
    <$> snd (verify "abc123" far request (db_of office)) = Ok false ∧
  LocationVerifyResponse.distance
    <$> snd (verify "abc123" far request (db_of office)) = Ok 122.31%float.
Proof. by vm_compute. Qed.

(** A visitor exactly at the radius is admitted. *)
Example boundary_is_admitted :
  Sample.distance 37.7749 (-122.4194) 37.7749 (-122.4194) = Ok 0%float ∧
  Py.eq 0%float (Int (Link.radius_meters point)) = true ∧
  LocationVerifyResponse.allowed
    <$> snd (verify "abc123" centre request (db_of point)) = Ok true.
Proof. by vm_compute. Qed.

(** C6.  [verify_location] on the short code of a deleted link returns the
    404 it returns for a short code with no row, with the same detail,
    and so does [get_public_link_info]; neither changes the database. *)
Theorem deleted_link_is_not_found {libm : Libm} (db db' : Db)
    (short_code short_code' : string) (i : nat) (link : Link.t)
    (location : LocationVerifyRequest.t) (request : Request.t) :
  Links.query_link_by_short_code db short_code = Some (i, link) →
  Link.is_deleted link = true →
  Links.query_link_by_short_code db' short_code' = None →
  Links.verify_location short_code location request db
    = (db, Raise (HTTPException 404 "短链接不存在")) ∧
  Links.verify_location short_code' location request db'
    = (db', Raise (HTTPException 404 "短链接不存在")) ∧
  Links.get_public_link_info short_code db
    = (db, Raise (HTTPException 404 "链接不存在")) ∧
  Links.get_public_link_info short_code' db'
    = (db', Raise (HTTPException 404 "链接不存在")).
Proof.
  intros Hq Hdel Hnone.
  unfold Links.verify_location, Links.get_public_link_info.
  by rewrite Hq, Hnone, Hdel.
Qed.

Lemma deleted_link_is_not_found_witness :
  verify "abc123" near request (db_of deleted)
    = (db_of deleted, Raise (HTTPException 404 "短链接不存在")) ∧
  verify "nosuch" near request (db_of office)
    = (db_of office, Raise (HTTPException 404 "短链接不存在")) ∧
  Links.get_public_link_info "abc123" (db_of deleted)
    = (db_of deleted, Raise (HTTPException 404 "链接不存在")) ∧
  Links.get_public_link_info "nosuch" (db_of office)
    = (db_of office, Raise (HTTPException 404 "链接不存在")).
Proof.
  apply (deleted_link_is_not_found (libm := RefLibm.ref_libm)
           (db_of deleted) (db_of office) "abc123" "nosuch" 0 deleted
           near request).
  - vm_compute. reflexivity.
  - reflexivity.
  - vm_compute. reflexivity.
Defined.

(** C7 (as amended).  In every response of [verify_location],
    [target_url] is present iff [allowed]; [message] is present iff not
    [allowed]; [contact_wechat] is present iff not [allowed] and the link
    has a contact. *)
Theorem verify_response_fields {libm : Libm} (short_code : string)
    (location : LocationVerifyRequest.t) (request : Request.t)
    (db db' : Db) (response : LocationVerifyResponse.t) :
  Links.verify_location short_code location request db = (db', Ok response) →
  ∃ i link,
    Links.query_link_by_short_code db short_code = Some (i, link) ∧
    (is_Some (LocationVerifyResponse.target_url response)
       ↔ LocationVerifyResponse.allowed response = true) ∧
    (is_Some (LocationVerifyResponse.message response)
       ↔ LocationVerifyResponse.allowed response = false) ∧
    (is_Some (LocationVerifyResponse.contact_wechat response)
       ↔ LocationVerifyResponse.allowed response = false
          ∧ is_Some (Link.contact_wechat link)).
Proof.
  intros Hver.
  apply verify_location_Ok in Hver
    as (i & link & allowed & distance & Hq & _ & _ & _ & -> & _).
  exists i, link. split; [done|]. unfold response_of; simpl.
  destruct allowed; rewrite <-!not_eq_None_Some; intuition congruence.
Qed.

Lemma verify_response_fields_witness :
  ∃ db' response,
    verify "abc123" far request (db_of office) = (db', Ok response) ∧
    ∃ i link,
      Links.query_link_by_short_code (db_of office) "abc123"
        = Some (i, link) ∧
      (is_Some (LocationVerifyResponse.target_url response)
         ↔ LocationVerifyResponse.allowed response = true) ∧
      (is_Some (LocationVerifyResponse.message response)
         ↔ LocationVerifyResponse.allowed response = false) ∧
      (is_Some (LocationVerifyResponse.contact_wechat response)
         ↔ LocationVerifyResponse.allowed response = false
            ∧ is_Some (Link.contact_wechat link)).
Proof.
  eexists _, _. split; [vm_compute; reflexivity|].
  eapply (verify_response_fields (libm := RefLibm.ref_libm)
            "abc123" far request (db_of office)).
  vm_compute. reflexivity.
Defined.

(** C7, as stated, fails: a visitor out of range of a link without a
    contact gets a message, and no contact. *)
Lemma denied_message_without_contact :
  Link.contact_wechat office = None ∧
  ∃ db' response,
    verify "abc123" far request (db_of office) = (db', Ok response) ∧
    LocationVerifyResponse.allowed response = false ∧
    LocationVerifyResponse.message response
      = Some "您不在允许访问的地理范围内" ∧
    LocationVerifyResponse.contact_wechat response = None ∧
    ¬ (is_Some (LocationVerifyResponse.message response)
       ↔ LocationVerifyResponse.allowed response = false
          ∧ is_Some (Link.contact_wechat office)).
Proof.
  split; [reflexivity|].
  eexists _, _. split; [vm_compute; reflexivity|]. simpl.
  do 3 (split; [reflexivity|]).
  intros [Hpresent _]. destruct Hpresent as [_ [x Hx]]; [by eexists|].
  discriminate Hx.
Qed.

(** C9.  Short codes are unique in [links].  [get_public_link_info]
    returns the four public fields of the row that carries the short code
    when that row is not deleted; it returns 404 otherwise, that is when
    every row with the short code, if there is one, is deleted.  It takes
    no location, and it returns the database it was given: rows, counters,
    flags and log. *)
Theorem get_public_link_info_spec (short_code : string) (db : Db) :
  NoDup (Link.short_code <$> links db) →
  fst (Links.get_public_link_info short_code db) = db ∧
  (∀ link,
     link ∈ links db → Link.short_code link = short_code →
     Link.is_deleted link = false →
     snd (Links.get_public_link_info short_code db) =
       Ok {| PublicLinkInfo.short_code := short_code;
             PublicLinkInfo.title := Link.title link;
             PublicLinkInfo.is_active := Link.is_active link;
             PublicLinkInfo.location_name := Link.location_name link |}) ∧
  ((∀ link,
      link ∈ links db → Link.short_code link = short_code →
      Link.is_deleted link = true) →
   snd (Links.get_public_link_info short_code db) =
     Raise (HTTPException 404 "链接不存在")).
Proof.
  intros Hnodup. unfold Links.get_public_link_info.
  destruct (Links.query_link_by_short_code db short_code) as [[i l]|] eqn:Hq.
  - apply query_link_by_short_code_Some in Hq as [Hi Hsc].
    assert (Hl : l ∈ links db) by by eapply list_elem_of_lookup_2.
    split_and!.
    + by destruct (Link.is_deleted l).
    + intros link Hin Hc Hdel.
      assert (link = l) as ->.
      { apply (NoDup_fmap_inj_on Link.short_code (links db)); congruence. }
      by rewrite Hdel, Hsc.
    + intros Hall. by rewrite (Hall l Hl Hsc).
  - apply query_link_by_short_code_None in Hq. split_and!; [done| |done].
    intros link Hin Hc _. exfalso. apply Hq, list_elem_of_fmap.
    by exists link.
Qed.

(** A table with a deleted link and an active one: the active one is
    shown, the deleted one and a short code that no row carries are not
    found, and the table is returned as it was. *)
Lemma get_public_link_info_spec_witness :
  fst (Links.get_public_link_info "lab" Scenario.archive) = Scenario.archive ∧
  snd (Links.get_public_link_info "lab" Scenario.archive) =
    Ok {| PublicLinkInfo.short_code := "lab";
          PublicLinkInfo.title := Some "Lab";
          PublicLinkInfo.is_active := true;
          PublicLinkInfo.location_name := None |} ∧
  snd (Links.get_public_link_info "abc123" Scenario.archive) =
    Raise (HTTPException 404 "链接不存在") ∧
  snd (Links.get_public_link_info "nosuch" Scenario.archive) =
    Raise (HTTPException 404 "链接不存在").
Proof.
  assert (Hnodup : NoDup (Link.short_code <$> links Scenario.archive)).
  { apply NoDup_cons. split; [|apply NoDup_singleton].
    by intros ?%list_elem_of_singleton. }
  destruct (get_public_link_info_spec "lab" Scenario.archive Hnodup)
    as (Hdb & Hok & _).
  destruct (get_public_link_info_spec "abc123" Scenario.archive Hnodup)
    as (_ & _ & Hdeleted).
  destruct (get_public_link_info_spec "nosuch" Scenario.archive Hnodup)
    as (_ & _ & Hmissing).
  split_and!.
  - exact Hdb.
  - apply (Hok Scenario.lab); [|reflexivity..].
    apply list_elem_of_further, list_elem_of_here.
  - apply Hdeleted. intros link [->|[->|[]%elem_of_nil]%elem_of_cons]%elem_of_cons;
      [reflexivity|discriminate].
  - apply Hmissing. intros link [->|[->|[]%elem_of_nil]%elem_of_cons]%elem_of_cons;
      discriminate.
Defined.

(** C10.  On a link that exists and is not deleted, an update with
    [is_active = true] by a super admin commits a row with [is_banned]
    cleared and [is_active] set; the same update of a banned link by a
    user who is not a super admin raises 403 and changes nothing. *)
Theorem update_link_is_active_and_ban (link_id : Z)
    (link_data : LinkUpdate.t) (super_admin admin : User.t) (db : Db)
    (i : nat) (link : Link.t) :
  Links.query_link_by_id db link_id = Some (i, link) →
  Link.is_deleted link = false →
  LinkUpdate.is_active link_data = Some true →
  Links.is_super_admin super_admin = true →
  Links.is_super_admin admin = false →
  (∃ link',
     Links.update_link link_id link_data super_admin db
       = (Links.commit_link i link' db, Ok link') ∧
     links (Links.commit_link i link' db) !! i = Some link' ∧
     Link.is_banned link' = false ∧ Link.is_active link' = true) ∧
  (Link.is_banned link = true →
   ∃ detail,
     Links.update_link link_id link_data admin db
       = (db, Raise (HTTPException 403 detail))).
Proof.
  intros Hq Hdel Hact Hsuper Hadmin. unfold Links.update_link.
  rewrite Hq, Hdel, Hact. split.
  - unfold Links.not_permitted. rewrite Hsuper.
    cbn [negb andb]. rewrite update_is_active_super by done.
    eexists. split; [reflexivity|]. split.
    + rewrite lookup_commit_link, decide_True by done.
      apply query_link_by_id_Some in Hq as [Hi _]. by rewrite Hi.
    + by destruct (LinkUpdate.expire_at link_data),
        (LinkUpdate.max_visits link_data).
  - intros Hban.
    destruct (Links.not_permitted admin link); [by eexists|].
    rewrite update_is_active_banned; [by eexists|done|].
    by rewrite !assign_is_banned.
Qed.

Lemma update_link_is_active_and_ban_witness :
  (∃ link',
     Links.update_link 1 enable root (db_of banned)
       = (Links.commit_link 0 link' (db_of banned), Ok link') ∧
     links (Links.commit_link 0 link' (db_of banned)) !! 0%nat = Some link' ∧
     Link.is_banned link' = false ∧ Link.is_active link' = true) ∧
  (Link.is_banned banned = true →
   ∃ detail,
     Links.update_link 1 enable owner (db_of banned)
       = (db_of banned, Raise (HTTPException 403 detail))).
Proof.
  apply (update_link_is_active_and_ban 1 enable root owner (db_of banned)
           0 banned); reflexivity.
Defined.

(** ** Further properties of the handlers *)

Section Reachable.
Context {libm : Libm}.

(** X1.  The counters of every link of a reachable database are consistent:
    [success_count + denied_count = visit_count]. *)
Theorem reachable_counters_consistent (db : Db) (j : nat) (link : Link.t) :
  reachable db → links db !! j = Some link → counters_consistent link.
Proof.
  intros Hreach. revert j link.
  induction Hreach as [|op db Hreach IH]; intros j link' Hj; [done|].
  destruct (effect_rows db _ j link' (run_effect op db) Hj)
    as [(link & Hlink & Hrel)|(Hv & Hs & Hd)].
  - specialize (IH j link Hlink). unfold counters_consistent in *.
    destruct Hrel as [(Hv & Hs & Hd)|[allowed ->]].
    + by rewrite Hv, Hs, Hd.
    + destruct allowed; simpl; lia.
  - unfold counters_consistent. lia.
Qed.

(** X5.  [delete_link] bans when a super admin deletes the link of another
    user and soft-deletes otherwise; either way the link is disabled. *)
Theorem delete_link_flags (link_id : Z) (current_user : User.t)
    (db db' : Db) :
  Links.delete_link link_id current_user db = (db', Ok ()) →
  ∃ i link link',
    Links.query_link_by_id db link_id = Some (i, link) ∧
    db' = Links.commit_link i link' db ∧
    Link.is_active link' = false ∧
    (if Links.is_super_admin current_user
        && negb (Link.created_by link =? User.id current_user)
     then Link.is_banned link' = true ∧
          Link.is_deleted link' = Link.is_deleted link
     else Link.is_deleted link' = true ∧
          Link.is_banned link' = Link.is_banned link).
Proof.
  unfold Links.delete_link.
  destruct (Links.query_link_by_id db link_id) as [[i link]|]; [|done].
  destruct (Link.is_deleted link) eqn:Hdel; [done|].
  destruct (Links.not_permitted current_user link); [done|].
  intros [= <-]. eexists i, link, _. split; [done|]. split; [done|].
  by destruct (_ && _).
Qed.

End Reachable.

Lemma reachable_counters_consistent_witness :
  counters_consistent (visited false (visited true office)).
Proof.
  apply (reachable_counters_consistent (libm := RefLibm.ref_libm)
           visited_twice 0).
  - do 3 apply reachable_run. apply reachable_empty.
  - vm_compute. reflexivity.
Defined.

Lemma delete_link_flags_witness :
  ∃ i link link',
    Links.query_link_by_id (db_of office) 1 = Some (i, link) ∧
    Links.commit_link 0 banned (db_of office)
      = Links.commit_link i link' (db_of office) ∧
    Link.is_active link' = false ∧
    (if Links.is_super_admin root
        && negb (Link.created_by link =? User.id root)
     then Link.is_banned link' = true ∧
          Link.is_deleted link' = Link.is_deleted link
     else Link.is_deleted link' = true ∧
          Link.is_banned link' = Link.is_banned link).
Proof.
  apply (delete_link_flags 1 root (db_of office)). reflexivity.
Defined.

Lemma verify_location_Raise_witness :
  db_of banned = db_of banned.
Proof.
  apply (verify_location_Raise (libm := RefLibm.ref_libm)
           "abc123" near request (db_of banned) (db_of banned)
           (HTTPException 403 "此链接已被管理员封禁")).
  vm_compute. reflexivity.
Defined.

Lemma restore_link_flags_witness :
  ∃ i link,
    Links.query_link_by_id (db_of deleted) 1 = Some (i, link) ∧
    links (db_of deleted) !! i = Some link ∧ Link.id link = 1 ∧
    Link.is_deleted link = true ∧
    (User.role owner = "super_admin"
       ∨ Link.created_by link = User.id owner) ∧
    db_of office = Links.commit_link i office (db_of deleted) ∧
    links (db_of office) !! i = Some office ∧
    Link.is_deleted office = false ∧ Link.is_active office = true ∧
    Link.is_banned office = Link.is_banned link.
Proof.
  apply (restore_link_flags 1 owner (db_of deleted) (db_of office) office).
  reflexivity.
Defined.

(** ** The counters summarise the access log *)

Section LogSummary.
Context {libm : Libm}.

Lemma count_logs_app p link_id logs logs' :
  count_logs p link_id (logs ++ logs')
    = count_logs p link_id logs + count_logs p link_id logs'.
Proof. induction logs as [|g logs IH]; simpl; lia. Qed.

Lemma count_logs_absent p link_id logs :
  link_id ∉ (AccessLog.link_id <$> logs) → count_logs p link_id logs = 0.
Proof.
  induction logs as [|g logs IH]; simpl; [done|].
  rewrite not_elem_of_cons. intros [Hne Hnotin].
  rewrite IH by done. destruct (Z.eqb_spec (AccessLog.link_id g) link_id);
    [congruence|done].
Qed.

Lemma ids_commit_link i l l' db :
  links db !! i = Some l → Link.id l' = Link.id l →
  Link.id <$> links (Links.commit_link i l' db) = Link.id <$> links db.
Proof.
  intros Hi Hid. unfold Links.commit_link; simpl.
  rewrite list_fmap_insert, Hid. apply list_insert_id.
  by rewrite list_lookup_fmap, Hi.
Qed.

Lemma summarised_same_counters logs l l' :
  Link.id l' = Link.id l → same_counters l l' →
  summarised logs l → summarised logs l'.
Proof.
  unfold summarised. intros -> (-> & -> & ->). done.
Qed.

(** The effect of an operation preserves: primary keys are distinct,
    every log entry belongs to a link, and the counters of every link
    count its log entries. *)
Lemma effect_log_summary db db' :
  effect db db' → log_summary db → log_summary db'.
Proof.
  intros Heff (Hnodup & Hlogs & Hsum). unfold log_summary.
  destruct Heff as [|i l l' Hi Hid Hsame|l' Hid Hzero|i l allowed g Hi Hg Ha].
  - done.
  - change (access_logs (Links.commit_link i l' db)) with (access_logs db).
    split_and!.
    + by rewrite (ids_commit_link i l).
    + by rewrite (ids_commit_link i l).
    + intros j lj. rewrite lookup_commit_link. case_decide as Hij.
      * subst j. rewrite Hi. intros [= <-].
        apply (summarised_same_counters _ l); [done..|]. by apply (Hsum i).
      * apply Hsum.
  - pose proof (next_link_id_fresh db) as Hfresh. unfold next_fresh in Hfresh.
    unfold Links.add_link; cbn [links access_logs].
    rewrite fmap_app. cbn [fmap list_fmap].
    split_and!.
    + apply NoDup_app. split_and!; [done| |apply NoDup_singleton].
      intros x Hx ->%list_elem_of_singleton. congruence.
    + intros x Hx. apply elem_of_app. left. by apply Hlogs.
    + intros j lj [Hj|[_ Hj]]%lookup_app_Some; [by apply (Hsum j)|].
      apply list_lookup_singleton_Some in Hj as [_ <-].
      destruct Hzero as (Hv & Hs & Hd). unfold summarised.
      rewrite Hv, Hs, Hd, !count_logs_absent; [done|..];
        rewrite Hid; intros Hin; apply Hfresh, Hlogs, Hin.
  - unfold Links.add_access_log; cbn [links access_logs].
    change (access_logs (Links.commit_link i (visited allowed l) db))
      with (access_logs db).
    assert (Hidv : Link.id (visited allowed l) = Link.id l)
      by by destruct allowed.
    rewrite fmap_app. cbn [fmap list_fmap]. split_and!.
    + by rewrite (ids_commit_link i l).
    + rewrite (ids_commit_link i l) by done.
      intros x [Hx| ->%list_elem_of_singleton]%elem_of_app; [by apply Hlogs|].
      rewrite Hg. apply list_elem_of_lookup. exists i.
      by rewrite list_lookup_fmap, Hi.
    + intros j lj. rewrite lookup_commit_link. case_decide as Hij.
      * subst j. rewrite Hi. intros [= <-].
        destruct (Hsum i l Hi) as (Hv & Hs & Hd).
        unfold summarised. rewrite !count_logs_app, Hidv. simpl.
        rewrite Hg, Z.eqb_refl, Ha. destruct allowed; simpl; lia.
      * intros Hj. destruct (Hsum j lj Hj) as (Hv & Hs & Hd).
        unfold summarised. rewrite !count_logs_app. simpl.
        destruct (Z.eqb_spec (AccessLog.link_id g) (Link.id lj)) as [Heq|];
          [|simpl; lia].
        exfalso. apply Hij.
        apply (NoDup_lookup (Link.id <$> links db) i j (Link.id l));
          [done|by rewrite list_lookup_fmap, Hi|].
        rewrite list_lookup_fmap, Hj. simpl. congruence.
Qed.

Lemma reachable_log_summary db : reachable db → log_summary db.
Proof.
  induction 1 as [|op db Hreach IH].
  - split_and!; [apply NoDup_nil_2|by intros x ?%elem_of_nil|done].
  - eapply effect_log_summary; [apply run_effect|done].
Qed.

(** X2.  In every database the handlers produce from the empty one, the three
    counters of a link are the numbers of its log entries: all, granted,
    denied. *)
Theorem reachable_counters_summarise_log (db : Db) (j : nat) (link : Link.t) :
  reachable db → links db !! j = Some link →
  Link.visit_count link
    = count_logs (λ _, true) (Link.id link) (access_logs db) ∧
  Link.success_count link
    = count_logs AccessLog.access_granted (Link.id link) (access_logs db) ∧
  Link.denied_count link
    = count_logs (λ g, negb (AccessLog.access_granted g)) (Link.id link)
        (access_logs db).
Proof.
  intros Hreach Hj. destruct (reachable_log_summary db Hreach) as (_ & _ & Hsum).
  by apply (Hsum j).
Qed.

End LogSummary.

Lemma reachable_counters_summarise_log_witness :
  Link.visit_count (visited false (visited true office))
    = count_logs (λ _, true) 1 (access_logs visited_twice) ∧
  Link.success_count (visited false (visited true office))
    = count_logs AccessLog.access_granted 1 (access_logs visited_twice) ∧
  Link.denied_count (visited false (visited true office))
    = count_logs (λ g, negb (AccessLog.access_granted g)) 1
        (access_logs visited_twice).
Proof.
  apply (reachable_counters_summarise_log (libm := RefLibm.ref_libm)
           visited_twice 0 (visited false (visited true office))).
  - do 3 apply reachable_run. apply reachable_empty.
  - vm_compute. reflexivity.
Defined.

(** ** Creating a link *)

Section Create.

(** The row [create_link] adds is the one a query for its short code, or
    for its key, finds. *)
Lemma query_short_code_add_link link db :
  Link.short_code link ∉ (Link.short_code <$> links db) →
  Links.query_link_by_short_code (Links.add_link link db)
    (Link.short_code link) = Some (length (links db), link).
Proof.
  intros Hnew%query_link_by_short_code_None.
  unfold Links.query_link_by_short_code, Links.add_link in *. cbn [links].
  rewrite list_find_app_r by done. simpl.
  by rewrite decide_True by done.
Qed.

Lemma query_id_add_link link db :
  Link.id link ∉ (Link.id <$> links db) →
  Links.query_link_by_id (Links.add_link link db) (Link.id link)
    = Some (length (links db), link).
Proof.
  intros Hnew%query_link_by_id_None.
  unfold Links.query_link_by_id, Links.add_link in *. cbn [links].
  rewrite list_find_app_r by done. simpl.
  by rewrite decide_True by done.
Qed.

(** The loop over the attempts returns the first draw that is not in use. *)
Lemma fresh_short_code_Some g db (n a k : nat) :
  (k < n)%nat →
  g (a + k)%nat ∉ (Link.short_code <$> links db) →
  (∀ j, (j < k)%nat → g (a + j)%nat ∈ (Link.short_code <$> links db)) →
  Links.fresh_short_code g a n db = Some (g (a + k)%nat).
Proof.
  revert a k. induction n as [|n IH]; intros a k Hk Hfree Hused; [lia|].
  simpl. destruct k as [|k].
  - rewrite Nat.add_0_r in Hfree.
    apply query_link_by_short_code_None in Hfree. by rewrite Hfree, Nat.add_0_r.
  - destruct (Links.query_link_by_short_code db (g a)) as [?|] eqn:Hq.
    + replace (a + S k)%nat with (S a + k)%nat in * by lia.
      apply IH; [lia|done|].
      intros j Hj. replace (S a + j)%nat with (a + S j)%nat by lia.
      apply Hused. lia.
    + apply query_link_by_short_code_None in Hq.
      specialize (Hused 0%nat). rewrite Nat.add_0_r in Hused.
      exfalso. apply Hq, Hused. lia.
Qed.

Lemma fresh_short_code_None g db (n a : nat) :
  (∀ j, (j < n)%nat → g (a + j)%nat ∈ (Link.short_code <$> links db)) →
  Links.fresh_short_code g a n db = None.
Proof.
  revert a. induction n as [|n IH]; intros a Hused; [done|]. simpl.
  destruct (Links.query_link_by_short_code db (g a)) as [?|] eqn:Hq.
  - apply IH. intros j Hj. replace (S a + j)%nat with (a + S j)%nat by lia.
    apply Hused. lia.
  - apply query_link_by_short_code_None in Hq.
    specialize (Hused 0%nat). rewrite Nat.add_0_r in Hused.
    exfalso. apply Hq, Hused. lia.
Qed.

(** What a successful [create_link] returns. *)
Lemma create_link_Ok g d u db db' link :
  Links.create_link g d u db = (db', Ok link) →
  link = Links.new_link db (Link.short_code link) d u ∧
  db' = Links.add_link link db ∧
  Link.short_code link ∉ (Link.short_code <$> links db).
Proof.
  unfold Links.create_link.
  destruct (LinkCreate.short_code d) as [[|c s]|].
  - destruct (Links.fresh_short_code g 0 10 db) as [sc|] eqn:Hf; [|done].
    intros [= <- <-]. split_and!; [done..|]. simpl.
    clear -Hf. revert Hf. generalize 0%nat 10%nat. intros a n. revert a.
    induction n as [|n IH]; intros a; [done|]. simpl.
    destruct (Links.query_link_by_short_code db (g a)) eqn:Hq; [apply IH|].
    intros [= <-]. by apply query_link_by_short_code_None.
  - destruct (Links.query_link_by_short_code db (String c s)) eqn:Hq; [done|].
    intros [= <- <-]. split_and!; [done..|].
    by apply query_link_by_short_code_None.
  - destruct (Links.fresh_short_code g 0 10 db) as [sc|] eqn:Hf; [|done].
    intros [= <- <-]. split_and!; [done..|]. simpl.
    clear -Hf. revert Hf. generalize 0%nat 10%nat. intros a n. revert a.
    induction n as [|n IH]; intros a; [done|]. simpl.
    destruct (Links.query_link_by_short_code db (g a)) eqn:Hq; [apply IH|].
    intros [= <-]. by apply query_link_by_short_code_None.
Qed.

End Create.

(** X6.  A custom short code that a row of [links] carries, deleted or
    not, is refused: [create_link] answers 400 and changes nothing.  When
    [create_link] returns a link for a request with a custom short code,
    no row carried the code, the link carries it, and the link is the one
    row added.  Whether the commit of the new row succeeds is the
    database's matter: the column takes 20 characters. *)
Theorem create_link_custom_code (g : nat → string) (link_data : LinkCreate.t)
    (current_user : User.t) (db : Db) (short_code : string) :
  LinkCreate.short_code link_data = Some short_code →
  short_code ≠ "" →
  (short_code ∈ (Link.short_code <$> links db) →
   Links.create_link g link_data current_user db =
     (db, Raise (HTTPException 400 "该短链接代码已被使用"))) ∧
  (∀ db' link,
     Links.create_link g link_data current_user db = (db', Ok link) →
     (short_code ∉ (Link.short_code <$> links db)) ∧
     Link.short_code link = short_code ∧
     links db' = (links db ++ [link])%list ∧
     access_logs db' = access_logs db).
Proof.
  intros Hsc Hne. unfold Links.create_link. rewrite Hsc.
  destruct short_code as [|c s]; [done|]. split.
  - intros [x Hx]%query_link_by_short_code_is_Some. by rewrite Hx.
  - intros db' link.
    destruct (Links.query_link_by_short_code db (String c s)) eqn:Hq; [done|].
    intros [= <- <-]. split_and!; [|done..].
    by apply query_link_by_short_code_None.
Qed.

(** The short code of a deleted link stays taken; one that no row carries
    is given to the new link. *)
Lemma create_link_custom_code_witness :
  Links.create_link (λ _, "zzzzzz") Scenario.reuse owner (db_of deleted)
  = (db_of deleted, Raise (HTTPException 400 "该短链接代码已被使用")) ∧
  ("lab" ∉ (Link.short_code <$> links (db_of deleted))) ∧
  Link.short_code Scenario.lab = "lab" ∧
  links Scenario.archive = (links (db_of deleted) ++ [Scenario.lab])%list ∧
  access_logs Scenario.archive = access_logs (db_of deleted).
Proof.
  split.
  - apply (proj1 (create_link_custom_code (λ _, "zzzzzz") Scenario.reuse
                    owner (db_of deleted) "abc123" eq_refl
                    ltac:(discriminate))).
    apply list_elem_of_here.
  - apply (proj2 (create_link_custom_code (λ _, "zzzzzz") Scenario.custom
                    owner (db_of deleted) "lab" eq_refl
                    ltac:(discriminate)) Scenario.archive Scenario.lab).
    reflexivity.
Defined.

(** X7.  Without a custom short code, [create_link] uses the first of ten
    generated codes that no row carries; when all ten are in use it answers
    500 and changes nothing. *)
Theorem create_link_generated_code (g : nat → string)
    (link_data : LinkCreate.t) (current_user : User.t) (db : Db) :
  LinkCreate.short_code link_data = None
    ∨ LinkCreate.short_code link_data = Some "" →
  (∀ k, (k < 10)%nat →
     g k ∉ (Link.short_code <$> links db) →
     (∀ j, (j < k)%nat → g j ∈ (Link.short_code <$> links db)) →
     Links.create_link g link_data current_user db =
       let link := Links.new_link db (g k) link_data current_user in
       (Links.add_link link db, Ok link)) ∧
  ((∀ j, (j < 10)%nat → g j ∈ (Link.short_code <$> links db)) →
   Links.create_link g link_data current_user db =
     (db, Raise (HTTPException 500 "生成短链接失败，请重试"))).
Proof.
  intros Hsc. split.
  - intros k Hk Hfree Hused. unfold Links.create_link.
    rewrite (fresh_short_code_Some g db 10 0 k) by done.
    by destruct Hsc as [-> | ->].
  - intros Hused. unfold Links.create_link.
    rewrite (fresh_short_code_None g db 10 0) by done.
    by destruct Hsc as [-> | ->].
Qed.

Lemma create_link_generated_code_witness :
  Links.create_link (λ k, if (k <? 3)%nat then "abc123" else "fresh1")
    Scenario.random owner (db_of office) =
    (Links.add_link
       (Links.new_link (db_of office) "fresh1" Scenario.random owner)
       (db_of office),
     Ok (Links.new_link (db_of office) "fresh1" Scenario.random owner)) ∧
  Links.create_link (λ _, "abc123") Scenario.random owner (db_of office) =
    (db_of office, Raise (HTTPException 500 "生成短链接失败，请重试")).
Proof.
  split.
  - apply (proj1 (create_link_generated_code
                    (λ k, if (k <? 3)%nat then "abc123" else "fresh1")
                    Scenario.random owner (db_of office)
                    (or_introl eq_refl)) 3%nat).
    + lia.
    + simpl. by intros ?%list_elem_of_singleton.
    + intros j Hj%Nat.ltb_lt. rewrite Hj. simpl.
      by apply list_elem_of_singleton.
  - apply (proj2 (create_link_generated_code (λ _, "abc123")
                    Scenario.random owner (db_of office)
                    (or_introl eq_refl))).
    intros j Hj. simpl. by apply list_elem_of_singleton.
Defined.

(** X8.  A link that [create_link] returned is served at once: the public
    information of its short code and [get_link] of its key by the creator
    find it.  It is active, and it has no expiry and no cap on the visits,
    whatever [expire_at] and [max_visits] the request carried. *)
Theorem created_link_is_served (g : nat → string) (link_data : LinkCreate.t)
    (current_user : User.t) (db db' : Db) (link : Link.t) :
  Links.create_link g link_data current_user db = (db', Ok link) →
  Links.get_public_link_info (Link.short_code link) db' =
    (db', Ok {| PublicLinkInfo.short_code := Link.short_code link;
                PublicLinkInfo.title := LinkCreate.title link_data;
                PublicLinkInfo.is_active := true;
                PublicLinkInfo.location_name :=
                  LinkCreate.location_name link_data |}) ∧
  LinkQueries.get_link (Link.id link) current_user db' = (db', Ok link) ∧
  Link.expire_at link = None ∧ Link.max_visits link = None.
Proof.
  intros (Hlink & -> & Hfresh)%create_link_Ok.
  assert (Hid : Link.id link ∉ (Link.id <$> links db)).
  { rewrite Hlink. apply next_link_id_fresh. }
  unfold Links.get_public_link_info, LinkQueries.get_link.
  rewrite query_short_code_add_link, query_id_add_link by done.
  rewrite Hlink. cbn. unfold Links.not_permitted. cbn.
  by rewrite Z.eqb_refl, andb_false_r.
Qed.

Lemma created_link_is_served_witness :
  let link := Links.new_link (db_of office) "lab" Scenario.custom owner in
  LinkCreate.expire_at Scenario.custom = Some now ∧
  LinkCreate.max_visits Scenario.custom = Some 3 ∧
  Links.get_public_link_info "lab" (Links.add_link link (db_of office)) =
    (Links.add_link link (db_of office),
     Ok {| PublicLinkInfo.short_code := "lab";
           PublicLinkInfo.title := Some "Lab";
           PublicLinkInfo.is_active := true;
           PublicLinkInfo.location_name := None |}) ∧
  LinkQueries.get_link 2 owner (Links.add_link link (db_of office))
    = (Links.add_link link (db_of office), Ok link) ∧
  Link.expire_at link = None ∧ Link.max_visits link = None.
Proof.
  cbv zeta. do 2 (split; [reflexivity|]).
  apply (created_link_is_served (λ _, "zzzzzz") Scenario.custom owner
           (db_of office)
           (Links.add_link
              (Links.new_link (db_of office) "lab" Scenario.custom owner)
              (db_of office))
           (Links.new_link (db_of office) "lab" Scenario.custom owner)).
  reflexivity.
Defined.

(** ** What the operations do to the rows of [links] *)

Section Rows.
Context {libm : Libm}.

Lemma untouched_id : untouched Link.id.
Proof. by repeat split. Qed.
Lemma untouched_short_code : untouched Link.short_code.
Proof. by repeat split. Qed.
Lemma untouched_created_by : untouched Link.created_by.
Proof. by repeat split. Qed.

Lemma assign_untouched {A B} (f : Link.t → B) (v : option A) set link :
  (∀ x l, f (set x l) = f l) → f (Links.assign v set link) = f link.
Proof. intros Hset. destruct v; simpl; [apply Hset | done]. Qed.

Lemma update_first_untouched {B} (f : Link.t → B) d l :
  untouched f → f (update_first d l) = f l.
Proof.
  intros (H1 & H2 & H3 & H4 & H5 & H6 & H7 & _). unfold update_first.
  cbv zeta. by rewrite !assign_untouched.
Qed.

Lemma update_last_untouched {B} (f : Link.t → B) d l :
  untouched f → f (update_last d l) = f l.
Proof.
  intros (_ & _ & _ & _ & _ & _ & _ & H8 & H9 & _). unfold update_last.
  cbv zeta. by rewrite !assign_untouched.
Qed.

Lemma update_is_active_untouched {B} (f : Link.t → B) a u l l' :
  untouched f → Links.update_is_active a u l = Ok l' → f l' = f l.
Proof.
  intros (_ & _ & _ & _ & _ & _ & _ & _ & _ & Hact & Hban & _).
  unfold Links.update_is_active. intros Hupd.
  destruct a as [a|]; [|by injection Hupd as <-].
  destruct (Link.is_banned l && a && negb (Links.is_super_admin u)); [done|].
  injection Hupd as <-. rewrite Hact.
  by destruct (Links.is_super_admin u && a); rewrite ?Hban.
Qed.

Lemma visited_untouched {B} (f : Link.t → B) allowed l :
  untouched f → f (visited allowed l) = f l.
Proof.
  intros (_ & _ & _ & _ & _ & _ & _ & _ & _ & _ & _ & _ & Hv & Hs & Hd).
  unfold visited. destruct allowed; by rewrite ?Hs, ?Hd, Hv.
Qed.

Lemma update_first_is_deleted d l :
  Link.is_deleted (update_first d l) = Link.is_deleted l.
Proof.
  unfold update_first.
  by destruct (LinkUpdate.title d), (LinkUpdate.target_url d),
    (LinkUpdate.center_lat d), (LinkUpdate.center_lng d),
    (LinkUpdate.radius_meters d), (LinkUpdate.location_name d),
    (LinkUpdate.contact_wechat d).
Qed.

Lemma update_last_is_deleted d l :
  Link.is_deleted (update_last d l) = Link.is_deleted l.
Proof.
  unfold update_last.
  by destruct (LinkUpdate.expire_at d), (LinkUpdate.max_visits d).
Qed.

Lemma update_is_active_is_deleted a u l l' :
  Links.update_is_active a u l = Ok l' →
  Link.is_deleted l' = Link.is_deleted l.
Proof.
  unfold Links.update_is_active. intros Hupd.
  destruct a as [a|]; [|by injection Hupd as <-].
  destruct (Link.is_banned l && a && negb (Links.is_super_admin u)); [done|].
  injection Hupd as <-. by destruct (Links.is_super_admin u && a).
Qed.

(** [update_link], case by case. *)
Lemma update_link_cases link_id link_data current_user db :
  Links.update_link link_id link_data current_user db =
    match Links.query_link_by_id db link_id with
    | None => (db, Raise (HTTPException 404 "短链接不存在"))
    | Some (i, link) =>
        if Link.is_deleted link then
          (db, Raise (HTTPException 404 "短链接不存在"))
        else if Links.not_permitted current_user link then
          (db, Raise (HTTPException 403 "无权修改此短链接"))
        else
          match Links.update_is_active (LinkUpdate.is_active link_data)
                  current_user (update_first link_data link) with
          | Raise e => (db, Raise e)
          | Ok link =>
              (Links.commit_link i (update_last link_data link) db,
               Ok (update_last link_data link))
          end
    end.
Proof. reflexivity. Qed.

(** The rows after an operation: the same; or one row written back, with
    its key, short code and owner kept, by a caller who may; or one row
    added, with a new key and a new short code.  The row written or added
    is not both deleted and active. *)
Lemma run_links (op : operation) (db : Db) :
  links (run op db) = links db ∨
  (∃ i l l',
     links db !! i = Some l ∧
     (∀ B (f : Link.t → B), untouched f → f l' = f l) ∧
     (∀ u, operation_user op = Some u → Links.not_permitted u l = false) ∧
     (Link.is_deleted l' = true → Link.is_active l' = false) ∧
     links (run op db) = <[i := l']> (links db)) ∨
  (∃ l',
     Link.id l' = Links.next_link_id db ∧
     (Link.short_code l' ∉ (Link.short_code <$> links db)) ∧
     Link.is_deleted l' = false ∧
     links (run op db) = (links db ++ [l'])%list).
Proof.
  destruct op as [g d u|k d u|k u|k u|c|c loc r]; simpl.
  - destruct (Links.create_link g d u db) as [db' [link|e]] eqn:Hc.
    + apply create_link_Ok in Hc as (Hlink & -> & Hfresh).
      right. right. exists link.
      split_and!; [by rewrite Hlink|done|by rewrite Hlink|done].
    + left. revert Hc. unfold Links.create_link.
      destruct (match LinkCreate.short_code d with Some _ => _ | None => _ end)
        as [sc|e']; simpl; congruence.
  - rewrite update_link_cases.
    destruct (Links.query_link_by_id db k) as [[i l]|] eqn:Hq; [|by left].
    apply query_link_by_id_Some in Hq as [Hi _].
    destruct (Link.is_deleted l) eqn:Hdel; [by left|].
    destruct (Links.not_permitted u l) eqn:Hperm; [by left|].
    destruct (Links.update_is_active _ u _) as [l1|e] eqn:Hupd; [|by left].
    right. left. exists i, l, (update_last d l1).
    split_and!; [done| | | |done].
    + intros B f Hf. rewrite update_last_untouched by done.
      rewrite (update_is_active_untouched f _ _ _ _ Hf Hupd).
      by apply update_first_untouched.
    + by intros ? [= <-].
    + rewrite update_last_is_deleted,
        (update_is_active_is_deleted _ _ _ _ Hupd), update_first_is_deleted.
      congruence.
  - unfold Links.delete_link.
    destruct (Links.query_link_by_id db k) as [[i l]|] eqn:Hq; [|by left].
    apply query_link_by_id_Some in Hq as [Hi _].
    destruct (Link.is_deleted l); [by left|].
    destruct (Links.not_permitted u l) eqn:Hperm; [by left|].
    right. left. eexists i, l, _. split_and!; [done| | | |reflexivity].
    + intros B f (_ & _ & _ & _ & _ & _ & _ & _ & _ & Hact & Hban & Hdel & _).
      by destruct (_ && _); rewrite Hact, ?Hban, ?Hdel.
    + by intros ? [= <-].
    + by destruct (_ && _).
  - unfold Links.restore_link.
    destruct (Links.query_link_by_id db k) as [[i l]|] eqn:Hq; [|by left].
    apply query_link_by_id_Some in Hq as [Hi _].
    destruct (Links.not_permitted u l) eqn:Hperm; [by left|].
    destruct (Link.is_deleted l); [|by left].
    right. left. eexists i, l, _. split_and!; [done| | | |reflexivity].
    + intros B f (_ & _ & _ & _ & _ & _ & _ & _ & _ & Hact & Hban & Hdel & _).
      by rewrite Hact, Hdel.
    + by intros ? [= <-].
    + done.
  - left. unfold Links.get_public_link_info.
    destruct (Links.query_link_by_short_code db c) as [[i l]|]; [|done].
    by destruct (Link.is_deleted l).
  - rewrite verify_location_cases.
    destruct (Links.query_link_by_short_code db c) as [[i l]|] eqn:Hq;
      [|by left].
    apply query_link_by_short_code_Some in Hq as [Hi _].
    destruct (Link.is_deleted l) eqn:Hdel; [by left|].
    destruct (Link.is_active l); simpl; [|by left].
    destruct (Geo.is_within_radius _ _ _ _ _) as [[allowed distance]|e];
      [|by left].
    right. left. exists i, l, (visited allowed l).
    split_and!; [done| |done| |done].
    + intros B f Hf. by apply visited_untouched.
    + destruct allowed; simpl; congruence.
Qed.

End Rows.

(** X9.  No operation removes or moves a row of [links], and none changes
    the key, the short code or the owner of a row. *)
Theorem run_keeps_identity {libm : Libm} (op : operation) (db : Db) (j : nat)
    (link : Link.t) :
  links db !! j = Some link →
  ∃ link', links (run op db) !! j = Some link' ∧ same_identity link link'.
Proof.
  intros Hj.
  destruct (run_links op db)
    as [-> | [(i & l & l' & Hi & Hsame & _ & _ & ->) | (l' & _ & _ & _ & ->)]].
  - exists link. by split.
  - destruct (decide (i = j)) as [->|Hij].
    + assert (l = link) as -> by congruence. exists l'. split.
      * apply list_lookup_insert_eq. by eapply lookup_lt_Some.
      * split_and!; apply Hsame;
          [apply untouched_id|apply untouched_short_code
          |apply untouched_created_by].
    + exists link. split; [by rewrite list_lookup_insert_ne|done].
  - exists link. split; [by apply lookup_app_l_Some|done].
Qed.

Lemma run_keeps_identity_witness :
  ∃ link',
    links (run (libm := RefLibm.ref_libm)
             (UpdateLink 1 Scenario.rename owner) (db_of office)) !! 0%nat
      = Some link' ∧
    same_identity office link'.
Proof.
  apply (run_keeps_identity (libm := RefLibm.ref_libm)
           (UpdateLink 1 Scenario.rename owner) (db_of office) 0 office).
  reflexivity.
Defined.

(** X10.  A caller who is not a super admin cannot change a link of
    another user: whatever he creates, updates, deletes or restores, the
    rows he does not own are as they were. *)
Theorem foreign_links_unchanged {libm : Libm} (op : operation)
    (current_user : User.t) (db : Db) (j : nat) (link : Link.t) :
  operation_user op = Some current_user →
  Links.is_super_admin current_user = false →
  links db !! j = Some link →
  Link.created_by link ≠ User.id current_user →
  links (run op db) !! j = Some link.
Proof.
  intros Hop Hsuper Hj Hother.
  destruct (run_links op db)
    as [-> | [(i & l & l' & Hi & _ & Hperm & _ & ->) | (l' & _ & _ & _ & ->)]].
  - done.
  - destruct (decide (i = j)) as [->|Hij];
      [|by rewrite list_lookup_insert_ne].
    assert (l = link) as -> by congruence.
    specialize (Hperm current_user Hop). unfold Links.not_permitted in Hperm.
    rewrite Hsuper in Hperm. simpl in Hperm.
    apply negb_false_iff, Z.eqb_eq in Hperm. done.
  - by apply lookup_app_l_Some.
Qed.

Lemma foreign_links_unchanged_witness :
  links (run (libm := RefLibm.ref_libm) (DeleteLink 1 Scenario.other)
           (db_of office)) !! 0%nat = Some office.
Proof.
  apply (foreign_links_unchanged (libm := RefLibm.ref_libm)
           (DeleteLink 1 Scenario.other) Scenario.other (db_of office) 0
           office); [reflexivity|reflexivity|reflexivity|discriminate].
Defined.

(** X11.  In every database the handlers produce from the empty one, the
    keys of the links are distinct and so are their short codes: the
    handlers never run into the unique constraints of the table. *)
Theorem reachable_keys_unique {libm : Libm} (db : Db) :
  reachable db →
  NoDup (Link.id <$> links db) ∧ NoDup (Link.short_code <$> links db).
Proof.
  induction 1 as [|op db Hreach [IHid IHsc]].
  - split; apply NoDup_nil_2.
  - destruct (run_links op db)
      as [-> | [(i & l & l' & Hi & Hsame & _ & _ & ->)
           | (l' & Hid & Hsc & _ & ->)]].
    + done.
    + rewrite !list_fmap_insert.
      rewrite (Hsame _ Link.id untouched_id),
        (Hsame _ Link.short_code untouched_short_code).
      rewrite !list_insert_id by (by rewrite list_lookup_fmap, Hi).
      done.
    + rewrite !fmap_app. cbn [fmap list_fmap].
      split; (apply NoDup_app; split_and!; [done| |apply NoDup_singleton]).
      * intros x Hx ->%list_elem_of_singleton.
        apply (next_link_id_fresh db). by rewrite <-Hid.
      * by intros x Hx ->%list_elem_of_singleton.
Qed.

Lemma reachable_keys_unique_witness :
  NoDup [1; 2] ∧ NoDup ["abc123"; "lab"].
Proof.
  apply (reachable_keys_unique (libm := RefLibm.ref_libm)
           (run (libm := RefLibm.ref_libm)
              (CreateLink (λ _, "abc123") Scenario.custom owner)
              (run (libm := RefLibm.ref_libm) create_office empty_db))).
  do 2 apply reachable_run. apply reachable_empty.
Defined.

(** ** Deleting, restoring and updating *)

Section Lifecycle.

Lemma query_link_by_id_commit db link_id i link link' :
  Links.query_link_by_id db link_id = Some (i, link) →
  Link.id link' = link_id →
  Links.query_link_by_id (Links.commit_link i link' db) link_id
    = Some (i, link').
Proof.
  unfold Links.query_link_by_id, Links.commit_link. cbn [links].
  intros (Hi & _ & Hfirst)%list_find_Some Hid. apply list_find_Some.
  split_and!; [|done|].
  - apply list_lookup_insert_eq. by eapply lookup_lt_Some.
  - intros j y Hj Hlt. rewrite list_lookup_insert_ne in Hj by lia.
    by apply (Hfirst j).
Qed.

Lemma commit_link_commit_link i l1 l2 db :
  Links.commit_link i l2 (Links.commit_link i l1 db) = Links.commit_link i l2 db.
Proof.
  unfold Links.commit_link. cbn [links access_logs].
  by rewrite list_insert_insert_eq.
Qed.

Lemma commit_link_id i link db :
  links db !! i = Some link → Links.commit_link i link db = db.
Proof.
  intros Hi. unfold Links.commit_link. rewrite list_insert_id by done.
  by destruct db.
Qed.

Lemma restore_deleted link :
  Link.is_deleted link = false →
  Link.set_is_active true
    (Link.set_is_deleted false
       (Link.set_is_active false (Link.set_is_deleted true link)))
    = Link.set_is_active true link.
Proof. destruct link; simpl. by intros ->. Qed.

Lemma owner_permitted (u : User.t) (link : Link.t) :
  Link.created_by link = User.id u → Links.not_permitted u link = false.
Proof.
  intros Hown. unfold Links.not_permitted.
  by rewrite Hown, Z.eqb_refl, andb_false_r.
Qed.

End Lifecycle.

(** X12.  The owner deletes a link and restores it.  In between, the link
    answers 404 to [get_link], [get_link_stats], [update_link] and
    [delete_link], whoever calls.  The restore succeeds; the row it
    returns and commits is not deleted, is active, and has in every other
    column the handlers assign the value it had before the delete; the
    other rows and the access log are as they were. *)
Theorem soft_delete_then_restore (link_id : Z) (current_user : User.t)
    (db : Db) (i : nat) (link : Link.t) :
  Links.query_link_by_id db link_id = Some (i, link) →
  Link.is_deleted link = false →
  Link.created_by link = User.id current_user →
  ∃ db1 db2 link2,
    Links.delete_link link_id current_user db = (db1, Ok ()) ∧
    (∀ u d,
       LinkQueries.get_link link_id u db1
         = (db1, Raise (HTTPException 404 "短链接不存在")) ∧
       LinkQueries.get_link_stats link_id u db1
         = (db1, Raise (HTTPException 404 "短链接不存在")) ∧
       Links.update_link link_id d u db1
         = (db1, Raise (HTTPException 404 "短链接不存在")) ∧
       Links.delete_link link_id u db1
         = (db1, Raise (HTTPException 404 "短链接不存在"))) ∧
    Links.restore_link link_id current_user db1 = (db2, Ok link2) ∧
    links db2 !! i = Some link2 ∧
    Link.is_deleted link2 = false ∧ Link.is_active link2 = true ∧
    same_settings link link2 ∧
    (∀ j, j ≠ i → links db2 !! j = links db !! j) ∧
    length (links db2) = length (links db) ∧
    access_logs db2 = access_logs db.
Proof.
  intros Hq Hdel Hown.
  pose proof (owner_permitted current_user link Hown) as Hperm.
  pose proof Hq as [Hi Hid]%query_link_by_id_Some.
  set (link1 := Link.set_is_active false (Link.set_is_deleted true link)).
  assert (Hq1 : Links.query_link_by_id (Links.commit_link i link1 db) link_id
                = Some (i, link1)) by by apply (query_link_by_id_commit _ _ _ link).
  assert (Hrestore :
    Links.restore_link link_id current_user (Links.commit_link i link1 db)
      = (Links.commit_link i (Link.set_is_active true link) db,
         Ok (Link.set_is_active true link))).
  { unfold Links.restore_link. rewrite Hq1.
    change (Links.not_permitted current_user link1)
      with (Links.not_permitted current_user link).
    rewrite Hperm. cbn [link1 Link.is_deleted Link.set_is_active
                          Link.set_is_deleted negb].
    fold link1. unfold link1 at 1 3.
    by rewrite commit_link_commit_link, restore_deleted. }
  exists (Links.commit_link i link1 db),
    (Links.commit_link i (Link.set_is_active true link) db),
    (Link.set_is_active true link).
  split_and!.
  - unfold Links.delete_link. rewrite Hq, Hdel, Hperm, Hown, Z.eqb_refl.
    by rewrite andb_false_r.
  - intros u d. unfold LinkQueries.get_link, LinkQueries.get_link_stats,
      Links.update_link, Links.delete_link. by rewrite Hq1.
  - done.
  - rewrite lookup_commit_link, decide_True by done. by rewrite Hi.
  - done.
  - done.
  - by repeat split.
  - intros j Hj. by rewrite lookup_commit_link, decide_False.
  - unfold Links.commit_link. cbn [links]. apply length_insert.
  - done.
Qed.

Lemma soft_delete_then_restore_witness :
  ∃ db1 db2 link2,
    Links.delete_link 1 owner (db_of office) = (db1, Ok ()) ∧
    (∀ u d,
       LinkQueries.get_link 1 u db1
         = (db1, Raise (HTTPException 404 "短链接不存在")) ∧
       LinkQueries.get_link_stats 1 u db1
         = (db1, Raise (HTTPException 404 "短链接不存在")) ∧
       Links.update_link 1 d u db1
         = (db1, Raise (HTTPException 404 "短链接不存在")) ∧
       Links.delete_link 1 u db1
         = (db1, Raise (HTTPException 404 "短链接不存在"))) ∧
    Links.restore_link 1 owner db1 = (db2, Ok link2) ∧
    links db2 !! 0%nat = Some link2 ∧
    Link.is_deleted link2 = false ∧ Link.is_active link2 = true ∧
    same_settings office link2 ∧
    (∀ j, j ≠ 0%nat → links db2 !! j = links (db_of office) !! j) ∧
    length (links db2) = length (links (db_of office)) ∧
    access_logs db2 = access_logs (db_of office).
Proof.
  apply (soft_delete_then_restore 1 owner (db_of office) 0 office);
    reflexivity.
Defined.

Section Update.

Lemma update_first_optional d l :
  Link.title (update_first d l)
    = from_option Some (Link.title l) (LinkUpdate.title d) ∧
  Link.location_name (update_first d l)
    = from_option Some (Link.location_name l) (LinkUpdate.location_name d) ∧
  Link.contact_wechat (update_first d l)
    = from_option Some (Link.contact_wechat l) (LinkUpdate.contact_wechat d) ∧
  Link.expire_at (update_first d l) = Link.expire_at l ∧
  Link.max_visits (update_first d l) = Link.max_visits l.
Proof.
  unfold update_first.
  destruct (LinkUpdate.title d), (LinkUpdate.target_url d),
    (LinkUpdate.center_lat d), (LinkUpdate.center_lng d),
    (LinkUpdate.radius_meters d), (LinkUpdate.location_name d),
    (LinkUpdate.contact_wechat d); done.
Qed.

Lemma update_last_optional d l :
  Link.title (update_last d l) = Link.title l ∧
  Link.location_name (update_last d l) = Link.location_name l ∧
  Link.contact_wechat (update_last d l) = Link.contact_wechat l ∧
  Link.expire_at (update_last d l)
    = from_option Some (Link.expire_at l) (LinkUpdate.expire_at d) ∧
  Link.max_visits (update_last d l)
    = from_option Some (Link.max_visits l) (LinkUpdate.max_visits d).
Proof.
  unfold update_last.
  destruct (LinkUpdate.expire_at d), (LinkUpdate.max_visits d); done.
Qed.

Lemma update_is_active_optional a u l l' :
  Links.update_is_active a u l = Ok l' →
  Link.title l' = Link.title l ∧
  Link.location_name l' = Link.location_name l ∧
  Link.contact_wechat l' = Link.contact_wechat l ∧
  Link.expire_at l' = Link.expire_at l ∧
  Link.max_visits l' = Link.max_visits l.
Proof.
  unfold Links.update_is_active. intros Hupd.
  destruct a as [a|]; [|by injection Hupd as <-].
  destruct (Link.is_banned l && a && negb (Links.is_super_admin u)); [done|].
  injection Hupd as <-. by destruct (Links.is_super_admin u && a).
Qed.

Lemma from_option_is_Some {A} (x : option A) (v : option A) :
  is_Some x → is_Some (from_option Some x v).
Proof. by destruct v. Qed.

End Update.

(** X13.  [update_link] cannot clear an optional column: a title, a
    location name, a contact, an expiry or a cap on the visits that the
    link had is still set after the update. *)
Theorem update_link_never_clears (link_id : Z) (link_data : LinkUpdate.t)
    (current_user : User.t) (db db' : Db) (link' : Link.t) :
  Links.update_link link_id link_data current_user db = (db', Ok link') →
  ∃ i link,
    Links.query_link_by_id db link_id = Some (i, link) ∧
    db' = Links.commit_link i link' db ∧
    (is_Some (Link.title link) → is_Some (Link.title link')) ∧
    (is_Some (Link.location_name link) →
       is_Some (Link.location_name link')) ∧
    (is_Some (Link.contact_wechat link) →
       is_Some (Link.contact_wechat link')) ∧
    (is_Some (Link.expire_at link) → is_Some (Link.expire_at link')) ∧
    (is_Some (Link.max_visits link) → is_Some (Link.max_visits link')).
Proof.
  rewrite update_link_cases.
  destruct (Links.query_link_by_id db link_id) as [[i link]|]; [|done].
  destruct (Link.is_deleted link); [done|].
  destruct (Links.not_permitted current_user link); [done|].
  destruct (Links.update_is_active _ _ _) as [l1|e] eqn:Hupd; [|done].
  intros [= <- <-]. exists i, link. split; [done|]. split; [done|].
  destruct (update_last_optional link_data l1) as (-> & -> & -> & -> & ->).
  destruct (update_is_active_optional _ _ _ _ Hupd)
    as (-> & -> & -> & -> & ->).
  destruct (update_first_optional link_data link) as (-> & -> & -> & -> & ->).
  split_and!; apply from_option_is_Some.
Qed.

Lemma update_link_never_clears_witness :
  ∃ i link,
    Links.query_link_by_id (db_of expired) 1 = Some (i, link) ∧
    Links.commit_link 0 (Link.set_title (Some "Head office") expired)
      (db_of expired)
      = Links.commit_link i (Link.set_title (Some "Head office") expired)
          (db_of expired) ∧
    (is_Some (Link.title link) →
       is_Some (Link.title (Link.set_title (Some "Head office") expired))) ∧
    (is_Some (Link.location_name link) →
       is_Some (Link.location_name
                  (Link.set_title (Some "Head office") expired))) ∧
    (is_Some (Link.contact_wechat link) →
       is_Some (Link.contact_wechat
                  (Link.set_title (Some "Head office") expired))) ∧
    (is_Some (Link.expire_at link) →
       is_Some (Link.expire_at
                  (Link.set_title (Some "Head office") expired))) ∧
    (is_Some (Link.max_visits link) →
       is_Some (Link.max_visits
                  (Link.set_title (Some "Head office") expired))).
Proof.
  apply (update_link_never_clears 1 Scenario.rename owner (db_of expired)).
  reflexivity.
Defined.

(** X14.  An update with no field set changes nothing: on a link that is
    not deleted and that the caller may update, [update_link] returns the
    row and the database as they were. *)
Theorem update_link_empty (link_id : Z) (current_user : User.t) (db : Db)
    (i : nat) (link : Link.t) :
  Links.query_link_by_id db link_id = Some (i, link) →
  Link.is_deleted link = false →
  Links.not_permitted current_user link = false →
  Links.update_link link_id empty_update current_user db = (db, Ok link).
Proof.
  intros Hq Hdel Hperm. rewrite update_link_cases, Hq, Hdel, Hperm.
  apply query_link_by_id_Some in Hq as [Hi _].
  cbn. by rewrite commit_link_id.
Qed.

Lemma update_link_empty_witness :
  Links.update_link 1 empty_update owner (db_of banned)
    = (db_of banned, Ok banned).
Proof.
  apply (update_link_empty 1 owner (db_of banned) 0 banned); reflexivity.
Defined.

Section Access.

Lemma require_admin_Ok (u : User.t) :
  Security.require_admin u = Ok u ↔
  User.role u = "admin" ∨ User.role u = "super_admin".
Proof.
  unfold Security.require_admin. case_bool_decide as Hrole.
  - split; [done|]. intros Hor. exfalso. apply Hrole.
    rewrite !elem_of_cons. tauto.
  - split; [intros _|done].
    rewrite !elem_of_cons in Hrole.
    destruct Hrole as [?|[?|?%elem_of_nil]]; tauto.
Qed.

Lemma require_admin_cases (u : User.t) :
  Security.require_admin u = Ok u ∨
  Security.require_admin u = Raise (HTTPException 403 "需要管理员权限").
Proof. unfold Security.require_admin. case_bool_decide; auto. Qed.

Lemma is_super_admin_role (u : User.t) :
  Links.is_super_admin u = true ↔ User.role u = "super_admin".
Proof. apply String.eqb_eq. Qed.

(** The dependency and the check of the handler together. *)
Lemma may_manage_spec (u : User.t) (link : Link.t) :
  may_manage u link ↔
  Security.require_admin u = Ok u ∧ Links.not_permitted u link = false.
Proof.
  unfold may_manage, Links.not_permitted.
  rewrite require_admin_Ok, andb_false_iff, !negb_false_iff, Z.eqb_eq,
    is_super_admin_role.
  split; [|tauto].
  intros [Hsuper|[Hadmin Hown]]; [tauto|]. split; [tauto|].
  by right.
Qed.

End Access.

(** X15.  Through the admin routes a link is read, and deleted, exactly by
    a super admin or by the admin who created it: [GET /links/{id}] and
    [DELETE /links/{id}] succeed iff the link exists, is not deleted, and
    the caller's role is [super_admin], or is [admin] and the caller owns
    the link. *)
Theorem link_access_rule (link_id : Z) (current_user : User.t) (db : Db) :
  ((∃ link, Routes.get_link link_id current_user db = (db, Ok link)) ↔
   ∃ i link,
     Links.query_link_by_id db link_id = Some (i, link) ∧
     Link.is_deleted link = false ∧ may_manage current_user link) ∧
  ((∃ db', Routes.delete_link link_id current_user db = (db', Ok ())) ↔
   ∃ i link,
     Links.query_link_by_id db link_id = Some (i, link) ∧
     Link.is_deleted link = false ∧ may_manage current_user link).
Proof.
  unfold Routes.get_link, Routes.delete_link, Security.depends,
    LinkQueries.get_link, Links.delete_link.
  split; (split;
    [intros [x Hx]
    |intros (i & link & Hq & Hdel & [Hadm Hperm]%may_manage_spec);
     rewrite Hadm, Hq, Hdel, Hperm; by eexists]);
    (destruct (require_admin_cases current_user) as [Hadm|Hadm];
     rewrite Hadm in Hx; [|done];
     destruct (Links.query_link_by_id db link_id) as [[i link]|]; [|done];
     destruct (Link.is_deleted link) eqn:Hdel; [done|];
     destruct (Links.not_permitted current_user link) eqn:Hperm; [done|];
     exists i, link; split_and!; [done..|]; by apply may_manage_spec).
Qed.

(** ** Statistics *)

Section Stats.
Context {libm : Libm}.

Lemma count_logs_split link_id logs :
  count_logs (λ _, true) link_id logs
    = count_logs AccessLog.access_granted link_id logs
      + count_logs (λ g, negb (AccessLog.access_granted g)) link_id logs.
Proof.
  induction logs as [|g logs IH]; simpl; [done|]. rewrite IH.
  destruct (AccessLog.link_id g =? link_id), (AccessLog.access_granted g);
    simpl; lia.
Qed.

Lemma count_logs_nonneg p link_id logs : 0 ≤ count_logs p link_id logs.
Proof.
  induction logs as [|g logs IH]; simpl; [done|].
  destruct (_ && _); lia.
Qed.

(** One log entry is counted by exactly one of the links when the keys
    are distinct. *)
Lemma sum_indicator_absent (x : Z) (ls : list Link.t) :
  x ∉ (Link.id <$> ls) →
  foldr Z.add 0 ((λ l, if x =? Link.id l then 1 else 0) <$> ls) = 0.
Proof.
  induction ls as [|l ls IH]; [done|].
  rewrite !fmap_cons. cbn [foldr]. intros [Hne Hnotin]%not_elem_of_cons.
  rewrite IH by done. by destruct (Z.eqb_spec x (Link.id l)).
Qed.

Lemma sum_indicator (x : Z) (ls : list Link.t) :
  NoDup (Link.id <$> ls) → x ∈ (Link.id <$> ls) →
  foldr Z.add 0 ((λ l, if x =? Link.id l then 1 else 0) <$> ls) = 1.
Proof.
  induction ls as [|l ls IH]; [by intros _ ?%elem_of_nil|].
  rewrite !fmap_cons. cbn [foldr].
  intros [Hnotin Hnodup]%NoDup_cons [->|Hin]%elem_of_cons.
  - by rewrite Z.eqb_refl, sum_indicator_absent.
  - rewrite IH by done.
    destruct (Z.eqb_spec x (Link.id l)) as [->|]; [done|lia].
Qed.

Lemma sum_count_logs_cons (ls : list Link.t) g (logs : list AccessLog.t) :
  foldr Z.add 0
    ((λ l, count_logs (λ _, true) (Link.id l) (g :: logs)) <$> ls)
  = foldr Z.add 0
      ((λ l, if AccessLog.link_id g =? Link.id l then 1 else 0) <$> ls)
    + foldr Z.add 0 ((λ l, count_logs (λ _, true) (Link.id l) logs) <$> ls).
Proof.
  induction ls as [|l ls IH]; [done|].
  rewrite !fmap_cons. cbn [foldr]. rewrite IH. cbn [count_logs].
  rewrite andb_true_r. lia.
Qed.

Lemma sum_count_logs (ls : list Link.t) (logs : list AccessLog.t) :
  NoDup (Link.id <$> ls) →
  (∀ x, x ∈ (AccessLog.link_id <$> logs) → x ∈ (Link.id <$> ls)) →
  foldr Z.add 0 ((λ l, count_logs (λ _, true) (Link.id l) logs) <$> ls)
    = Z.of_nat (length logs).
Proof.
  intros Hnodup. induction logs as [|g logs IH]; intros Hin.
  - cbn [count_logs length]. clear.
    induction ls as [|l ls IH]; [done|]. rewrite fmap_cons. cbn [foldr]. lia.
  - rewrite sum_count_logs_cons, IH, sum_indicator.
    + cbn [length]. lia.
    + done.
    + apply Hin. rewrite fmap_cons. apply elem_of_cons. by left.
    + intros x Hx. apply Hin. rewrite fmap_cons. apply elem_of_cons.
      by right.
Qed.

Lemma or_zero_sum_scalar (column : list Z) :
  LinkQueries.or_zero (LinkQueries.sum_scalar column) = foldr Z.add 0 column.
Proof.
  destruct column as [|x column]; [done|].
  unfold LinkQueries.sum_scalar, LinkQueries.or_zero.
  by destruct (Z.eqb_spec (foldr Z.add 0 (x :: column)) 0) as [->|].
Qed.

End Stats.

(** X16.  The statistics of a link in a database the handlers produced
    from the empty one: the three totals are the numbers of the link's log
    entries (all, granted, denied), so the granted and the denied visits
    add up to the total; the rate is 0.0 for a link without visits; the
    database is not changed. *)
Theorem get_link_stats_summarise_log {libm : Libm} (link_id : Z)
    (current_user : User.t) (db db' : Db) (stats : LinkStats.t) :
  reachable db →
  LinkQueries.get_link_stats link_id current_user db = (db', Ok stats) →
  db' = db ∧
  LinkStats.total_visits stats
    = count_logs (λ _, true) link_id (access_logs db) ∧
  LinkStats.successful_visits stats
    = count_logs AccessLog.access_granted link_id (access_logs db) ∧
  LinkStats.denied_visits stats
    = count_logs (λ g, negb (AccessLog.access_granted g)) link_id
        (access_logs db) ∧
  LinkStats.total_visits stats
    = LinkStats.successful_visits stats + LinkStats.denied_visits stats ∧
  0 ≤ LinkStats.successful_visits stats ≤ LinkStats.total_visits stats ∧
  (LinkStats.total_visits stats = 0 →
   LinkStats.success_rate stats = 0%float).
Proof.
  intros (_ & _ & Hsum)%reachable_log_summary.
  unfold LinkQueries.get_link_stats.
  destruct (Links.query_link_by_id db link_id) as [[i link]|] eqn:Hq; [|done].
  apply query_link_by_id_Some in Hq as [Hi <-].
  destruct (Link.is_deleted link); [done|].
  destruct (Links.not_permitted current_user link); [done|].
  destruct (Hsum i link Hi) as (Hv & Hs & Hd).
  pose proof (count_logs_split (Link.id link) (access_logs db)) as Hsplit.
  pose proof (count_logs_nonneg AccessLog.access_granted (Link.id link)
                (access_logs db)) as Hs0.
  pose proof (count_logs_nonneg (λ g, negb (AccessLog.access_granted g))
                (Link.id link) (access_logs db)) as Hd0.
  cbv zeta.
  destruct (match Link.visit_count link with Zpos _ => _ | _ => _ end)
    as [rate|e] eqn:Hrate; [|done].
  intros [= <- <-]. cbn. rewrite <-Hv, <-Hs, <-Hd.
  split_and!; [done..|lia|lia|lia|].
  intros Hzero. rewrite Hzero in Hrate. by injection Hrate as <-.
Qed.

(** The link of the sample history was visited twice and admitted one
    visitor: 50 percent. *)
Lemma get_link_stats_summarise_log_witness :
  LinkQueries.get_link_stats 1 owner visited_twice
    = (visited_twice,
       Ok {| LinkStats.total_visits := 2; LinkStats.successful_visits := 1;
             LinkStats.denied_visits := 1;
             LinkStats.success_rate := 50%float |}) ∧
  2 = count_logs (λ _, true) 1 (access_logs visited_twice) ∧
  1 = count_logs AccessLog.access_granted 1 (access_logs visited_twice) ∧
  1 = count_logs (λ g, negb (AccessLog.access_granted g)) 1
        (access_logs visited_twice).
Proof.
  assert (Hstats :
    LinkQueries.get_link_stats 1 owner visited_twice
    = (visited_twice,
       Ok {| LinkStats.total_visits := 2; LinkStats.successful_visits := 1;
             LinkStats.denied_visits := 1;
             LinkStats.success_rate := 50%float |}))
    by (vm_compute; reflexivity).
  split; [exact Hstats|].
  destruct (get_link_stats_summarise_log (libm := RefLibm.ref_libm)
              1 owner visited_twice visited_twice _
              (reachable_run _ _ (reachable_run _ _
                 (reachable_run _ _ reachable_empty))) Hstats)
    as (_ & Hv & Hs & Hd & _).
  by split_and!.
Defined.

(** X17.  For a super admin, [get_global_stats] counts the links, deleted
    ones included, and its [totalVisits], the sum of the visit counters,
    is the number of rows of the access log, in every database the
    handlers produced from the empty one.  Anyone else gets 403. *)
Theorem get_global_stats_counts_log {libm : Libm} (users : list User.t)
    (current_user : User.t) (db : Db) :
  reachable db →
  LinkQueries.get_global_stats users current_user db =
    (db,
     if Links.is_super_admin current_user
     then Ok {| GlobalStats.totalAdmins := Z.of_nat (length users);
                GlobalStats.totalLinks := Z.of_nat (length (links db));
                GlobalStats.totalVisits :=
                  Z.of_nat (length (access_logs db)) |}
     else Raise (HTTPException 403 "无权访问")).
Proof.
  intros (Hnodup & Hlogs & Hsum)%reachable_log_summary.
  unfold LinkQueries.get_global_stats.
  destruct (Links.is_super_admin current_user); [|done]. cbn [negb].
  rewrite or_zero_sum_scalar.
  rewrite <-(sum_count_logs (links db) (access_logs db)) by done.
  do 4 f_equal. apply list_eq. intros j. rewrite !list_lookup_fmap.
  destruct (links db !! j) as [l|] eqn:Hj; [|done]. simpl.
  by destruct (Hsum j l Hj) as (-> & _).
Qed.

Lemma get_global_stats_counts_log_witness :
  LinkQueries.get_global_stats [root; owner] root visited_twice =
    (visited_twice,
     Ok {| GlobalStats.totalAdmins := 2; GlobalStats.totalLinks := 1;
           GlobalStats.totalVisits := 2 |}).
Proof.
  apply (get_global_stats_counts_log (libm := RefLibm.ref_libm)
           [root; owner] root visited_twice).
  do 3 apply reachable_run. apply reachable_empty.
Defined.

(** ** The distance at the centre and near the antipode *)

Section Centre.
Context {libm : Libm}.
#[local] Open Scope float_scope.

Lemma le_zero_radius (radius_meters : Z) :
  (0 ≤ radius_meters)%Z → Py.le 0 (Int radius_meters) = true.
Proof.
  intros Hr. unfold Py.le, float_compare, float_compare_int.
  change (Prim2SF 0) with (S754_zero false).
  by destruct (Z.compare_spec 0 radius_meters); [..|lia].
Qed.

Lemma sqrt_negative x : (x <? 0) = true → sqrt x = Raise ValueError.
Proof.
  rewrite FloatAxioms.ltb_spec. intros Hneg.
  unfold sqrt, math_1. cbv zeta.
  rewrite !isnan_spec, sqrt_spec.
  change (Prim2SF 0) with (S754_zero false) in Hneg.
  by destruct (Prim2SF x) as [s|s| |s m e]; try done; destruct s.
Qed.

Lemma sqrt_Raise x e : sqrt x = Raise e → e = ValueError.
Proof.
  unfold sqrt, math_1. cbv zeta.
  destruct (isnan (PrimFloat.sqrt x) && negb (isnan x)); [congruence|].
  destruct (isinf (PrimFloat.sqrt x) && isfinite x); congruence.
Qed.

Lemma central_angle_domain_error a :
  (1 - a <? 0) = true → central_angle a = Raise ValueError.
Proof.
  intros Hneg. unfold central_angle.
  destruct (sqrt a) as [q1|e] eqn:Hq1; simpl.
  - by rewrite sqrt_negative.
  - by apply sqrt_Raise in Hq1 as ->.
Qed.

End Centre.

(** X18.  A visitor at the centre of an active link is admitted, at
    distance 0.0, whenever the radius is not negative: for every libm with
    [sin 0 = 0] and [atan2 (0, 1) = 0], at a finite centre where the
    cosine of the library lies in [-1, 1]. *)
Theorem visitor_at_centre_is_admitted {libm : Libm} (short_code : string)
    (location : LocationVerifyRequest.t) (request : Request.t) (db : Db)
    (i : nat) (link : Link.t) :
  c_sin 0 = 0%float →
  c_atan2 0 1 = 0%float →
  Links.query_link_by_short_code db short_code = Some (i, link) →
  Link.is_deleted link = false →
  Link.is_active link = true →
  LocationVerifyRequest.latitude location = Link.center_lat link →
  LocationVerifyRequest.longitude location = Link.center_lng link →
  isfinite (Link.center_lat link) = true →
  isfinite (Link.center_lng link) = true →
  (abs (c_cos (radians (Link.center_lat link))) <=? 1)%float = true →
  0 ≤ Link.radius_meters link →
  ∃ db' response,
    Links.verify_location short_code location request db
      = (db', Ok response) ∧
    LocationVerifyResponse.allowed response = true ∧
    LocationVerifyResponse.target_url response
      = Some (Link.target_url link) ∧
    LocationVerifyResponse.distance response = 0%float.
Proof.
  intros Hsin Hatan Hq Hdel Hact Hlat Hlng Hflat Hflng Hcos Hr.
  rewrite verify_location_cases, Hq, Hdel, Hact, Hlat, Hlng. cbn [negb].
  unfold Geo.is_within_radius.
  rewrite (calculate_distance_self Hsin Hatan) by done. simpl.
  rewrite le_zero_radius by done.
  eexists _, _. split; [reflexivity|]. by split_and!.
Qed.

Lemma visitor_at_centre_is_admitted_witness :
  ∃ db' response,
    verify "abc123" centre request (db_of point) = (db', Ok response) ∧
    LocationVerifyResponse.allowed response = true ∧
    LocationVerifyResponse.target_url response
      = Some "https://example.com/doc" ∧
    LocationVerifyResponse.distance response = 0%float.
Proof.
  apply (visitor_at_centre_is_admitted (libm := RefLibm.ref_libm)
           "abc123" centre request (db_of point) 0 point);
    solve [reflexivity | vm_compute; discriminate].
Defined.

(** X19.  [calculate_distance] has a domain error.  When rounding leaves
    the haversine term [a] above 1, so that [1 - a < 0], [math.sqrt]
    raises [ValueError]; [verify_location] does not catch it, and records
    nothing.  With the reference library, as with CPython on glibc, this
    is what a visitor at (2.5, 0) gets from a link centred at
    (-2.5, 180). *)
Theorem calculate_distance_domain_error {libm : Libm}
    (lat1 lng1 lat2 lng2 p1 c1 c2 p2 : float) :
  half_chord2 (lat2 - lat1) = Ok p1 →
  cos (radians lat1) = Ok c1 →
  cos (radians lat2) = Ok c2 →
  half_chord2 (lng2 - lng1) = Ok p2 →
  (1 - (p1 + c1 * c2 * p2) <? 0)%float = true →
  Geo.calculate_distance lat1 lng1 lat2 lng2 = Raise ValueError ∧
  ∀ short_code location request db i link,
    Links.query_link_by_short_code db short_code = Some (i, link) →
    Link.is_deleted link = false →
    Link.is_active link = true →
    LocationVerifyRequest.latitude location = lat1 →
    LocationVerifyRequest.longitude location = lng1 →
    Link.center_lat link = lat2 →
    Link.center_lng link = lng2 →
    Links.verify_location short_code location request db
      = (db, Raise ValueError).
Proof.
  intros Hp1 Hc1 Hc2 Hp2 Hneg.
  assert (Hd : Geo.calculate_distance lat1 lng1 lat2 lng2 = Raise ValueError).
  { rewrite calculate_distance_unfold, Hp1, Hc1, Hc2, Hp2. simpl.
    by apply central_angle_domain_error. }
  split; [done|].
  intros short_code location request db i link Hq Hdel Hact <- <- <- <-.
  rewrite verify_location_cases, Hq, Hdel, Hact. cbn [negb].
  unfold Geo.is_within_radius. by rewrite Hd.
Qed.

Lemma calculate_distance_domain_error_witness :
  LocationVerifyRequest.valid Scenario.antipode = true ∧
  Sample.distance 2.5 0 (-2.5) 180 = Raise ValueError ∧
  verify "abc123" Scenario.antipode request (db_of Scenario.dateline)
    = (db_of Scenario.dateline, Raise ValueError).
Proof.
  split; [reflexivity|].
  destruct (calculate_distance_domain_error (libm := RefLibm.ref_libm)
              2.5 0 (-2.5) 180
              0.0019026509541272333 0.9990482215818578
              0.9990482215818578 1) as [Hd Hv];
    [vm_compute; reflexivity..|].
  split; [exact Hd|].
  by apply (Hv "abc123" Scenario.antipode request (db_of Scenario.dateline)
              0%nat Scenario.dateline).
Defined.

(** ** Generated short codes *)

Section ShortCode.

Lemma get_characters (s : string) (i : nat) :
  (i < String.length s)%nat →
  ∃ c, String.get i s = Some c ∧ c ∈ characters s.
Proof.
  revert i. induction s as [|a s IH]; simpl; intros i Hi; [lia|].
  destruct i as [|i].
  - exists a. split; [done|]. apply list_elem_of_here.
  - destruct (IH i) as (c & Hc & Hin); [lia|].
    exists c. split; [done|]. by apply list_elem_of_further.
Qed.

Lemma join_choices_shape (rng : nat → nat → nat) (chars : string) (n k : nat) :
  (∀ j m, (0 < m)%nat → (rng j m < m)%nat) →
  (0 < String.length chars)%nat →
  ∃ s, LinkQueries.join_choices rng k n chars = Some s ∧
    String.length s = n ∧
    Forall (λ c, c ∈ characters chars) (characters s).
Proof.
  intros Hrng Hlen. revert k. induction n as [|n IH]; intros k; simpl.
  - exists "". by split_and!.
  - destruct (get_characters chars (rng k (String.length chars)))
      as (c & Hc & Hin); [by apply Hrng|].
    destruct (IH (S k)) as (s & Hs & Hn & Hall).
    exists (String c s). unfold LinkQueries.choice. rewrite Hc. simpl.
    rewrite Hs. simpl. split_and!; [done|by rewrite Hn|by constructor].
Qed.

Lemma fresh_short_code_drawn g db (n a : nat) short_code :
  Links.fresh_short_code g a n db = Some short_code →
  ∃ k, short_code = g k.
Proof.
  revert a. induction n as [|n IH]; intros a; [done|]. simpl.
  destruct (Links.query_link_by_short_code db (g a)); [apply IH|].
  intros [= <-]. by exists a.
Qed.

End ShortCode.

(** X20.  A generated short code has [SHORT_CODE_LENGTH] = 6 characters,
    each one of [SHORT_CODE_CHARS], whatever the random source draws; such
    are the short codes of the links [create_link] makes for a request
    without a custom code. *)
Theorem generated_short_code_shape (rng : nat → nat → nat) :
  (∀ j n, (0 < n)%nat → (rng j n < n)%nat) →
  (∀ k, ∃ code,
     LinkQueries.generate_short_code rng k = Some code ∧
     String.length code = 6%nat ∧
     Forall (λ c, c ∈ characters Config.SHORT_CODE_CHARS) (characters code)) ∧
  (∀ link_data current_user db db' link,
     LinkCreate.short_code link_data = None →
     Links.create_link (LinkQueries.nth_short_code rng) link_data
       current_user db = (db', Ok link) →
     String.length (Link.short_code link) = 6%nat ∧
     Forall (λ c, c ∈ characters Config.SHORT_CODE_CHARS)
       (characters (Link.short_code link))).
Proof.
  intros Hrng.
  assert (Hgen : ∀ k, ∃ code,
     LinkQueries.generate_short_code rng k = Some code ∧
     String.length code = 6%nat ∧
     Forall (λ c, c ∈ characters Config.SHORT_CODE_CHARS) (characters code)).
  { intros k. apply join_choices_shape; [done|]. simpl. lia. }
  split; [done|].
  intros d u db db' link Hsc. unfold Links.create_link. rewrite Hsc.
  destruct (Links.fresh_short_code _ 0 10 db) as [sc|] eqn:Hf; [|done].
  intros [= _ <-]. simpl.
  apply fresh_short_code_drawn in Hf as [k ->].
  unfold LinkQueries.nth_short_code.
  by destruct (Hgen (Config.SHORT_CODE_LENGTH * k)%nat) as (code & -> & ?).
Qed.

Lemma generated_short_code_shape_witness :
  LinkQueries.generate_short_code Scenario.counting 0 = Some "abcdef" ∧
  ∃ code,
    LinkQueries.generate_short_code Scenario.counting 60 = Some code ∧
    String.length code = 6%nat ∧
    Forall (λ c, c ∈ characters Config.SHORT_CODE_CHARS) (characters code).
Proof.
  split; [reflexivity|].
  apply (proj1 (generated_short_code_shape Scenario.counting
                  (λ j n Hn, Nat.mod_upper_bound j n (Nat.neq_sym _ _
                     (Nat.lt_neq _ _ Hn)))) 60%nat).
Defined.

(** ** The blocklist and the middleware *)

Section Blocklist.

Lemma block_ip_Ok ip_data current_user db db' row :
  Admin.block_ip ip_data current_user db = (db', Ok row) →
  (BlockedIpCreate.ip_address ip_data
     ∉ (BlockedIp.ip_address <$> blocked_rows db)) ∧
  BlockedIp.id row = blocked_seq db + 1 ∧
  BlockedIp.ip_address row = BlockedIpCreate.ip_address ip_data ∧
  db' = {| blocked_rows := blocked_rows db ++ [row];
           blocked_seq := blocked_seq db + 1 |}.
Proof.
  unfold Admin.block_ip.
  destruct (list_find _ (blocked_rows db)) as [?|] eqn:Hfind; [done|].
  intros [= <- <-]. split_and!; [|done..].
  rewrite list_find_None, Forall_forall in Hfind.
  intros (r & Hr & Hin)%list_elem_of_fmap. by apply (Hfind r).
Qed.

Lemma block_ip_Raise ip_data current_user db db' e :
  Admin.block_ip ip_data current_user db = (db', Raise e) → db' = db.
Proof.
  unfold Admin.block_ip.
  destruct (list_find _ (blocked_rows db)); congruence.
Qed.

Lemma filter_all {A} (P : A → Prop) `{∀ x, Decision (P x)} (l : list A) :
  Forall P l → filter P l = l.
Proof.
  induction 1 as [|x l Hx Hl IH]; [done|].
  by rewrite filter_cons, decide_True, IH.
Qed.

Lemma NoDup_fmap_filter {A B} (f : A → B) (P : A → Prop)
    `{∀ x, Decision (P x)} (l : list A) :
  NoDup (f <$> l) → NoDup (f <$> filter P l).
Proof.
  induction l as [|a l IH]; [done|]. rewrite fmap_cons, filter_cons.
  intros [Hnotin Hnodup]%NoDup_cons. destruct (decide (P a)); [|by apply IH].
  rewrite fmap_cons. apply NoDup_cons. split; [|by apply IH].
  intros (x & Hx & [_ Hin]%list_elem_of_filter)%list_elem_of_fmap.
  apply Hnotin, list_elem_of_fmap. by exists x.
Qed.

Lemma Forall_filter {A} (P Q : A → Prop) `{∀ x, Decision (Q x)}
    (l : list A) :
  Forall P l → Forall P (filter Q l).
Proof.
  rewrite !Forall_forall. intros Hall x [_ Hin]%list_elem_of_filter.
  by apply Hall.
Qed.

(** The invariant of the table: distinct keys, none above the sequence,
    and distinct addresses. *)
Lemma run_blocklist_invariant op db :
  NoDup (BlockedIp.id <$> blocked_rows db) ∧
  Forall (λ r, BlockedIp.id r ≤ blocked_seq db) (blocked_rows db) ∧
  NoDup (BlockedIp.ip_address <$> blocked_rows db) →
  NoDup (BlockedIp.id <$> blocked_rows (run_blocklist op db)) ∧
  Forall (λ r, BlockedIp.id r ≤ blocked_seq (run_blocklist op db))
    (blocked_rows (run_blocklist op db)) ∧
  NoDup (BlockedIp.ip_address <$> blocked_rows (run_blocklist op db)).
Proof.
  intros (Hid & Hseq & Hip).
  destruct op as [d u|k u]; simpl; unfold Security.depends;
    (destruct (Security.require_super_admin u) as [u'|e]; [|done]).
  - destruct (Admin.block_ip d u' db) as [db' [row|e]] eqn:Hb.
    + apply block_ip_Ok in Hb as (Hnew & Hrow & Haddr & ->). simpl.
      rewrite !fmap_app. cbn [fmap list_fmap]. split_and!.
      * apply NoDup_app. split_and!; [done| |apply NoDup_singleton].
        intros x (r & -> & Hr)%list_elem_of_fmap Heq%list_elem_of_singleton.
        rewrite Forall_forall in Hseq. specialize (Hseq r Hr). lia.
      * apply Forall_app. split.
        -- eapply Forall_impl; [exact Hseq|]. simpl. intros; lia.
        -- apply Forall_singleton. lia.
      * apply NoDup_app. split_and!; [done| |apply NoDup_singleton].
        intros x Hx ->%list_elem_of_singleton. by rewrite Haddr in Hx.
    + by apply block_ip_Raise in Hb as ->.
  - unfold Admin.unblock_ip.
    destruct (list_find _ (blocked_rows db)) as [[i row]|]; [|done]. simpl.
    split_and!.
    + by apply NoDup_fmap_filter.
    + by apply Forall_filter.
    + by apply NoDup_fmap_filter.
Qed.

Lemma blocklist_reachable_invariant db :
  blocklist_reachable db →
  NoDup (BlockedIp.id <$> blocked_rows db) ∧
  Forall (λ r, BlockedIp.id r ≤ blocked_seq db) (blocked_rows db) ∧
  NoDup (BlockedIp.ip_address <$> blocked_rows db).
Proof.
  induction 1 as [|op db Hreach IH].
  - split_and!; [apply NoDup_nil_2|apply Forall_nil_2|apply NoDup_nil_2].
  - by apply run_blocklist_invariant.
Qed.

End Blocklist.

Section Middleware.

Lemma refreshed_blocked_ips current_time table self ip :
  Py.gt (current_time - IPBlockMiddleware.last_update self)%float
    (Int (IPBlockMiddleware.update_interval self)) = true →
  ip ∈ IPBlockMiddleware.blocked_ips
         (IPBlockMiddleware._update_blocked_ips current_time table self)
  ↔ ip ∈ (BlockedIp.ip_address <$> table).
Proof.
  intros Hgt. unfold IPBlockMiddleware._update_blocked_ips. rewrite Hgt.
  cbn [IPBlockMiddleware.blocked_ips]. apply elem_of_list_to_set.
Qed.

Lemma stale_blocked_ips current_time table self :
  Py.gt (current_time - IPBlockMiddleware.last_update self)%float
    (Int (IPBlockMiddleware.update_interval self)) = false →
  IPBlockMiddleware._update_blocked_ips current_time table self = self.
Proof.
  intros Hgt. unfold IPBlockMiddleware._update_blocked_ips. by rewrite Hgt.
Qed.

End Middleware.

(** X21.  Blocking an address takes effect at the next refresh of the
    middleware's cache.  After [block_ip] added an address that the cache
    does not hold, a request from that address is still passed to the
    handler while no more than [update_interval] seconds have gone by
    since the last refresh; the first request after that refreshes the
    cache and is answered 403 without the handler being called. *)
Theorem block_ip_takes_effect_at_refresh {State Resp : Type}
    (ip_data : BlockedIpCreate.t) (current_user : User.t)
    (table table' : BlockedIps) (row : BlockedIp.t) (current_time : float)
    (request : Request.t) (call_next : State → State * Resp)
    (self : IPBlockMiddleware.t) (s : State) :
  Admin.block_ip ip_data current_user table = (table', Ok row) →
  Request.client_host request = Some (BlockedIpCreate.ip_address ip_data) →
  BlockedIpCreate.ip_address ip_data ∉ IPBlockMiddleware.blocked_ips self →
  IPBlockMiddleware.dispatch current_time (blocked_rows table') request
    call_next self s =
    if Py.gt (current_time - IPBlockMiddleware.last_update self)%float
         (Int (IPBlockMiddleware.update_interval self))
    then
      (IPBlockMiddleware._update_blocked_ips current_time
         (blocked_rows table') self,
       s,
       IPBlockMiddleware.JSONResponse 403 "Your IP address has been blocked.")
    else
      (self, fst (call_next s),
       IPBlockMiddleware.Forwarded (snd (call_next s))).
Proof.
  intros (_ & _ & Haddr & ->)%block_ip_Ok Hclient Hcache.
  unfold IPBlockMiddleware.dispatch. cbv zeta. rewrite Hclient.
  destruct (Py.gt _ _) eqn:Hgt.
  - rewrite bool_decide_eq_true_2; [done|].
    apply refreshed_blocked_ips; [done|]. cbn [blocked_rows].
    rewrite fmap_app, <-Haddr. apply elem_of_app. right.
    apply list_elem_of_here.
  - rewrite stale_blocked_ips by done.
    rewrite bool_decide_eq_false_2 by done. by destruct (call_next s).
Qed.

Lemma block_ip_takes_effect_at_refresh_witness :
  IPBlockMiddleware.dispatch Scenario.t1 (blocked_rows Scenario.one_blocked)
    request (verify "abc123" near request) Scenario.refreshed (db_of office)
  = (Scenario.refreshed,
     fst (verify "abc123" near request (db_of office)),
     IPBlockMiddleware.Forwarded
       (snd (verify "abc123" near request (db_of office)))) ∧
  IPBlockMiddleware.dispatch Scenario.t2 (blocked_rows Scenario.one_blocked)
    request (verify "abc123" near request) Scenario.refreshed (db_of office)
  = (IPBlockMiddleware._update_blocked_ips Scenario.t2
       (blocked_rows Scenario.one_blocked) Scenario.refreshed,
     db_of office,
     IPBlockMiddleware.JSONResponse 403 "Your IP address has been blocked.").
Proof.
  assert (Hblock :
    Admin.block_ip Scenario.spammer root Scenario.no_blocked
    = (Scenario.one_blocked,
       Ok {| BlockedIp.id := 1; BlockedIp.ip_address := "203.0.113.7";
             BlockedIp.reason := Some "abuse"; BlockedIp.created_by := 1 |}))
    by reflexivity.
  assert (Hcache : "203.0.113.7"
                     ∉ IPBlockMiddleware.blocked_ips Scenario.refreshed).
  { change (IPBlockMiddleware.blocked_ips Scenario.refreshed)
      with (list_to_set (C := gset string) []). apply not_elem_of_empty. }
  split.
  - apply (block_ip_takes_effect_at_refresh Scenario.spammer root
             Scenario.no_blocked Scenario.one_blocked _ Scenario.t1 request
             (verify "abc123" near request) Scenario.refreshed (db_of office)
             Hblock eq_refl Hcache).
  - apply (block_ip_takes_effect_at_refresh Scenario.spammer root
             Scenario.no_blocked Scenario.one_blocked _ Scenario.t2 request
             (verify "abc123" near request) Scenario.refreshed (db_of office)
             Hblock eq_refl Hcache).
Defined.

(** X22.  Unblocking is as slow: after [unblock_ip] removed the row of an
    address that the cache holds, a request from that address is still
    answered 403 until the cache is refreshed, and is passed to the
    handler by the request that refreshes it. *)
Theorem unblock_ip_takes_effect_at_refresh {State Resp : Type}
    (current_user : User.t) (table : BlockedIps) (row : BlockedIp.t)
    (current_time : float) (request : Request.t)
    (call_next : State → State * Resp) (self : IPBlockMiddleware.t)
    (s : State) :
  blocklist_reachable table →
  row ∈ blocked_rows table →
  Request.client_host request = Some (BlockedIp.ip_address row) →
  BlockedIp.ip_address row ∈ IPBlockMiddleware.blocked_ips self →
  ∃ table',
    Admin.unblock_ip (BlockedIp.id row) current_user table = (table', Ok ()) ∧
    IPBlockMiddleware.dispatch current_time (blocked_rows table') request
      call_next self s =
      if Py.gt (current_time - IPBlockMiddleware.last_update self)%float
           (Int (IPBlockMiddleware.update_interval self))
      then
        (IPBlockMiddleware._update_blocked_ips current_time
           (blocked_rows table') self,
         fst (call_next s),
         IPBlockMiddleware.Forwarded (snd (call_next s)))
      else
        (self, s,
         IPBlockMiddleware.JSONResponse 403
           "Your IP address has been blocked.").
Proof.
  intros (_ & _ & Hip)%blocklist_reachable_invariant Hrow Hclient Hcache.
  unfold Admin.unblock_ip.
  destruct (list_find (λ r, BlockedIp.id r = BlockedIp.id row)
              (blocked_rows table)) as [[i row']|] eqn:Hfind.
  2:{ rewrite list_find_None, Forall_forall in Hfind. by destruct (Hfind row). }
  apply list_find_Some in Hfind as (_ & Hid & _).
  eexists. split; [reflexivity|]. cbn [blocked_rows].
  unfold IPBlockMiddleware.dispatch. cbv zeta. rewrite Hclient.
  destruct (Py.gt _ _) eqn:Hgt.
  - rewrite bool_decide_eq_false_2; [by destruct (call_next s)|].
    rewrite refreshed_blocked_ips by done.
    intros (r & Haddr & [Hne Hr]%list_elem_of_filter)%list_elem_of_fmap.
    apply Hne. rewrite Hid. f_equal.
    by apply (NoDup_fmap_inj_on BlockedIp.ip_address (blocked_rows table)).
  - rewrite stale_blocked_ips by done.
    by rewrite bool_decide_eq_true_2 by done.
Qed.

Lemma unblock_ip_takes_effect_at_refresh_witness :
  ∃ table',
    Admin.unblock_ip 1 root Scenario.one_blocked = (table', Ok ()) ∧
    blocked_rows table' = [] ∧
    IPBlockMiddleware.dispatch Scenario.t1 (blocked_rows table') request
      (verify "abc123" near request) Scenario.listed (db_of office)
    = (Scenario.listed, db_of office,
       IPBlockMiddleware.JSONResponse 403
         "Your IP address has been blocked.").
Proof.
  assert (Hreach : blocklist_reachable Scenario.one_blocked).
  { apply (blocklist_run (BlockIp Scenario.spammer root)), blocklist_empty. }
  assert (Hcache : "203.0.113.7"
                     ∈ IPBlockMiddleware.blocked_ips Scenario.listed).
  { apply refreshed_blocked_ips; [reflexivity|]. apply list_elem_of_here. }
  destruct (unblock_ip_takes_effect_at_refresh root Scenario.one_blocked
              Scenario.spammer_row Scenario.t1 request
              (verify "abc123" near request) Scenario.listed (db_of office)
              Hreach (list_elem_of_here _ _) eq_refl Hcache)
    as (table' & Hun & Hdispatch).
  exists table'. split; [exact Hun|]. split; [|exact Hdispatch].
  by injection Hun as <-.
Defined.

(** X23.  Blocking an address and unblocking the row returned gives back
    the rows the table had; only the key of the row is used up. *)
Theorem block_unblock_round_trip (ip_data : BlockedIpCreate.t)
    (current_user current_user' : User.t) (table table' : BlockedIps)
    (row : BlockedIp.t) :
  blocklist_reachable table →
  Admin.block_ip ip_data current_user table = (table', Ok row) →
  Admin.unblock_ip (BlockedIp.id row) current_user' table' =
    ({| blocked_rows := blocked_rows table;
        blocked_seq := blocked_seq table + 1 |}, Ok ()).
Proof.
  intros (_ & Hseq & _)%blocklist_reachable_invariant
    (_ & Hid & _ & ->)%block_ip_Ok.
  assert (Hold : Forall (λ r, BlockedIp.id r ≠ BlockedIp.id row)
                   (blocked_rows table)).
  { eapply Forall_impl; [exact Hseq|]. simpl. intros r Hr. lia. }
  unfold Admin.unblock_ip. cbn [blocked_rows blocked_seq].
  rewrite list_find_app_r.
  2:{ apply list_find_None. eapply Forall_impl; [exact Hold|]. done. }
  simpl. rewrite decide_True by done. simpl.
  rewrite filter_app, filter_all by done.
  rewrite filter_cons, decide_False by (by intros Hne). simpl.
  by rewrite app_nil_r.
Qed.

Lemma block_unblock_round_trip_witness :
  Admin.unblock_ip 1 root Scenario.one_blocked =
    ({| blocked_rows := []; blocked_seq := 1 |}, Ok ()).
Proof.
  apply (block_unblock_round_trip Scenario.spammer root root
           Scenario.no_blocked Scenario.one_blocked Scenario.spammer_row).
  - apply blocklist_empty.
  - reflexivity.
Defined.

(** X24.  In every state of the blocklist that [block_ip] and
    [unblock_ip] produce from the empty table, the addresses are distinct,
    the keys are distinct, and no key is above the sequence: the handlers
    never run into the unique constraint on [ip_address]. *)
Theorem blocklist_addresses_unique (table : BlockedIps) :
  blocklist_reachable table →
  NoDup (BlockedIp.ip_address <$> blocked_rows table) ∧
  NoDup (BlockedIp.id <$> blocked_rows table) ∧
  Forall (λ r, BlockedIp.id r ≤ blocked_seq table) (blocked_rows table).
Proof.
  intros (Hid & Hseq & Hip)%blocklist_reachable_invariant. by split_and!.
Qed.

Lemma blocklist_addresses_unique_witness :
  NoDup ["203.0.113.7"] ∧ NoDup [1] ∧
  Forall (λ r, BlockedIp.id r ≤ 1) [Scenario.spammer_row].
Proof.
  apply (blocklist_addresses_unique
           (run_blocklist (BlockIp Scenario.spammer root)
              (run_blocklist (BlockIp Scenario.spammer root)
                 Scenario.no_blocked))).
  do 2 apply blocklist_run. apply blocklist_empty.
Defined.

(** ** Two more invariants *)

(** X25.  A deleted link is never active: in every database the handlers
    produce from the empty one, a row with [is_deleted] has [is_active]
    false. *)
Theorem reachable_deleted_inactive {libm : Libm} (db : Db) (j : nat)
    (link : Link.t) :
  reachable db → links db !! j = Some link →
  Link.is_deleted link = true → Link.is_active link = false.
Proof.
  intros Hreach. revert j link.
  induction Hreach as [|op db Hreach IH]; intros j link; [done|].
  destruct (run_links op db)
    as [-> | [(i & l & l' & Hi & _ & _ & Hflags & ->)
             | (l' & _ & _ & Hdel & ->)]].
  - apply IH.
  - destruct (decide (i = j)) as [->|Hij].
    + rewrite list_lookup_insert_eq by (by eapply lookup_lt_Some).
      by intros [= <-].
    + rewrite list_lookup_insert_ne by done. apply IH.
  - intros [Hj|[_ Hj]]%lookup_app_Some; [by apply (IH j)|].
    apply list_lookup_singleton_Some in Hj as [_ <-]. congruence.
Qed.

Lemma reachable_deleted_inactive_witness :
  Link.is_active deleted = false.
Proof.
  apply (reachable_deleted_inactive (libm := RefLibm.ref_libm)
           (run (libm := RefLibm.ref_libm) (DeleteLink 1 owner)
              (run (libm := RefLibm.ref_libm) create_office empty_db))
           0 deleted).
  - do 2 apply reachable_run. apply reachable_empty.
  - reflexivity.
  - reflexivity.
Defined.

(** X26.  The access log is append-only.  No operation removes or
    rewrites a log entry, deleting a link included; an operation adds at
    most one entry, and only a verification adds one: every operation
    that is not a call of [verify_location], [get_public_link_info]
    included, leaves the log as it was. *)
Theorem access_log_append_only {libm : Libm} (op : operation) (db : Db) :
  access_logs db `prefix_of` access_logs (run op db) ∧
  (length (access_logs (run op db)) ≤ S (length (access_logs db)))%nat ∧
  ((∀ short_code location request,
      op ≠ VerifyLocation short_code location request) →
   access_logs (run op db) = access_logs db).
Proof.
  assert (Hcases : access_logs (run op db) = access_logs db ∨
    ((∃ short_code location request,
        op = VerifyLocation short_code location request) ∧
     ∃ g, access_logs (run op db) = (access_logs db ++ [g])%list)).
  { destruct op as [g d u|k d u|k u|k u|c|c loc r]; simpl.
    - left. unfold Links.create_link.
      by destruct (match LinkCreate.short_code d with
                   | Some _ => _ | None => _ end).
    - left. rewrite update_link_cases.
      destruct (Links.query_link_by_id db k) as [[i l]|]; [|done].
      destruct (Link.is_deleted l); [done|].
      destruct (Links.not_permitted u l); [done|].
      by destruct (Links.update_is_active _ u _).
    - left. unfold Links.delete_link.
      destruct (Links.query_link_by_id db k) as [[i l]|]; [|done].
      destruct (Link.is_deleted l); [done|].
      by destruct (Links.not_permitted u l).
    - left. unfold Links.restore_link.
      destruct (Links.query_link_by_id db k) as [[i l]|]; [|done].
      destruct (Links.not_permitted u l); [done|].
      by destruct (Link.is_deleted l).
    - left. unfold Links.get_public_link_info.
      destruct (Links.query_link_by_short_code db c) as [[i l]|]; [|done].
      by destruct (Link.is_deleted l).
    - rewrite verify_location_cases.
      destruct (Links.query_link_by_short_code db c) as [[i l]|]; [|by left].
      destruct (Link.is_deleted l); [by left|].
      destruct (Link.is_active l); simpl; [|by left].
      destruct (Geo.is_within_radius _ _ _ _ _) as [[allowed distance]|e];
        [|by left].
      right. split; [by eexists _, _, _|]. by eexists. }
  destruct Hcases as [-> | [(c & loc & r & ->) [g Hg]]].
  - split_and!; [done|lia|done].
  - rewrite Hg.
    split_and!; [by apply prefix_app_r|rewrite length_app; simpl; lia|].
    intros Hne. by destruct (Hne c loc r).
Qed.

(** ** Updating twice *)

Section Idempotent.

Lemma update_first_idempotent d l :
  update_first d (update_first d l) = update_first d l.
Proof.
  unfold update_first, Links.assign.
  destruct (LinkUpdate.title d), (LinkUpdate.target_url d),
    (LinkUpdate.center_lat d), (LinkUpdate.center_lng d),
    (LinkUpdate.radius_meters d), (LinkUpdate.location_name d),
    (LinkUpdate.contact_wechat d); reflexivity.
Qed.

Lemma update_last_idempotent d l :
  update_last d (update_last d l) = update_last d l.
Proof.
  unfold update_last, Links.assign.
  by destruct (LinkUpdate.expire_at d), (LinkUpdate.max_visits d).
Qed.

Lemma update_first_last d l :
  update_first d (update_last d l) = update_last d (update_first d l).
Proof.
  unfold update_first, update_last, Links.assign.
  destruct (LinkUpdate.title d), (LinkUpdate.target_url d),
    (LinkUpdate.center_lat d), (LinkUpdate.center_lng d),
    (LinkUpdate.radius_meters d), (LinkUpdate.location_name d),
    (LinkUpdate.contact_wechat d), (LinkUpdate.expire_at d),
    (LinkUpdate.max_visits d); reflexivity.
Qed.

Lemma update_first_flags d l :
  Link.is_banned (update_first d l) = Link.is_banned l ∧
  (∀ v, update_first d (Link.set_is_active v l)
        = Link.set_is_active v (update_first d l)) ∧
  (∀ v, update_first d (Link.set_is_banned v l)
        = Link.set_is_banned v (update_first d l)).
Proof.
  unfold update_first, Links.assign.
  destruct (LinkUpdate.title d), (LinkUpdate.target_url d),
    (LinkUpdate.center_lat d), (LinkUpdate.center_lng d),
    (LinkUpdate.radius_meters d), (LinkUpdate.location_name d),
    (LinkUpdate.contact_wechat d); by split_and!.
Qed.

Lemma update_last_flags d l :
  Link.is_banned (update_last d l) = Link.is_banned l ∧
  (∀ v, update_last d (Link.set_is_active v l)
        = Link.set_is_active v (update_last d l)) ∧
  (∀ v, update_last d (Link.set_is_banned v l)
        = Link.set_is_banned v (update_last d l)).
Proof.
  unfold update_last, Links.assign.
  destruct (LinkUpdate.expire_at d), (LinkUpdate.max_visits d);
    by split_and!.
Qed.

(** The block on [is_active] commutes with the other assignments. *)
Lemma update_is_active_commute (f : Link.t → Link.t) a u l :
  Link.is_banned (f l) = Link.is_banned l →
  (∀ v l, f (Link.set_is_active v l) = Link.set_is_active v (f l)) →
  (∀ v l, f (Link.set_is_banned v l) = Link.set_is_banned v (f l)) →
  Links.update_is_active a u (f l) = f <$> Links.update_is_active a u l.
Proof.
  intros Hban Hact Hsetban. unfold Links.update_is_active. rewrite Hban.
  destruct a as [a|]; [|done].
  destruct (Link.is_banned l && a && negb (Links.is_super_admin u)); [done|].
  simpl. destruct (Links.is_super_admin u && a); by rewrite Hact, ?Hsetban.
Qed.

Lemma update_is_active_idempotent a u l l1 :
  Links.update_is_active a u l = Ok l1 →
  Links.update_is_active a u l1 = Ok l1.
Proof.
  unfold Links.update_is_active. destruct a as [a|]; [|done].
  destruct l as [? ? ? ? ? ? ? ? ? ? ? ? ? banned ? ? ? ?]. simpl.
  destruct banned, a, (Links.is_super_admin u); simpl; try done;
    by intros [= <-].
Qed.

Lemma update_fields_idempotent d u l l0 :
  Links.update_is_active (LinkUpdate.is_active d) u (update_first d l)
    = Ok l0 →
  Links.update_is_active (LinkUpdate.is_active d) u
    (update_first d (update_last d l0)) = Ok (update_last d l0).
Proof.
  intros Hupd.
  assert (Hfix : update_first d l0 = l0).
  { pose proof Hupd as Hupd'.
    rewrite <-update_first_idempotent in Hupd'.
    destruct (update_first_flags d (update_first d l)) as (Hb & Ha & Hs).
    rewrite (update_is_active_commute (update_first d)), Hupd in Hupd';
      [|done|intros; apply update_first_flags..].
    by injection Hupd'. }
  rewrite update_first_last, Hfix.
  rewrite (update_is_active_commute (update_last d));
    [|apply update_last_flags|intros; apply update_last_flags..].
  by rewrite (update_is_active_idempotent _ _ _ _ Hupd).
Qed.

End Idempotent.

(** X27.  [update_link] is idempotent on the columns the handlers assign.
    Repeating an update that succeeded, with the same data and caller,
    succeeds again; the row it returns and commits agrees with the row
    the first update returned in every one of these columns; the other
    rows and the access log are as the first update left them. *)
Theorem update_link_idempotent (link_id : Z) (link_data : LinkUpdate.t)
    (current_user : User.t) (db db1 : Db) (link1 : Link.t) :
  Links.update_link link_id link_data current_user db = (db1, Ok link1) →
  ∃ i db2 link2,
    links db1 !! i = Some link1 ∧
    Links.update_link link_id link_data current_user db1 = (db2, Ok link2) ∧
    links db2 !! i = Some link2 ∧
    same_columns link1 link2 ∧
    (∀ j, j ≠ i → links db2 !! j = links db1 !! j) ∧
    length (links db2) = length (links db1) ∧
    access_logs db2 = access_logs db1.
Proof.
  rewrite !update_link_cases.
  destruct (Links.query_link_by_id db link_id) as [[i link]|] eqn:Hq; [|done].
  destruct (Link.is_deleted link) eqn:Hdel; [done|].
  destruct (Links.not_permitted current_user link) eqn:Hperm; [done|].
  destruct (Links.update_is_active _ _ _) as [l0|e] eqn:Hupd; [|done].
  intros [= <- <-].
  assert (Hsame : ∀ B (f : Link.t → B), untouched f →
            f (update_last link_data l0) = f link).
  { intros B f Hf. rewrite update_last_untouched by done.
    rewrite (update_is_active_untouched f _ _ _ _ Hf Hupd).
    by apply update_first_untouched. }
  pose proof Hq as [Hi Hid]%query_link_by_id_Some.
  exists i, (Links.commit_link i (update_last link_data l0) db),
    (update_last link_data l0).
  assert (Hi1 : links (Links.commit_link i (update_last link_data l0) db) !! i
                = Some (update_last link_data l0)).
  { rewrite lookup_commit_link, decide_True by done. by rewrite Hi. }
  split_and!; [done| |done|by repeat split|done..].
  rewrite (query_link_by_id_commit db link_id i link)
    by (by rewrite ?(Hsame _ Link.id untouched_id)).
  rewrite update_last_is_deleted, (update_is_active_is_deleted _ _ _ _ Hupd),
    update_first_is_deleted, Hdel.
  unfold Links.not_permitted in Hperm |- *.
  rewrite (Hsame _ Link.created_by untouched_created_by), Hperm.
  rewrite (update_fields_idempotent _ _ _ _ Hupd), update_last_idempotent.
  by rewrite commit_link_commit_link.
Qed.

Lemma update_link_idempotent_witness :
  ∃ i db2 link2,
    links (Links.commit_link 0 office (db_of banned)) !! i = Some office ∧
    Links.update_link 1 enable root
      (Links.commit_link 0 office (db_of banned)) = (db2, Ok link2) ∧
    links db2 !! i = Some link2 ∧
    same_columns office link2 ∧
    (∀ j, j ≠ i →
       links db2 !! j
         = links (Links.commit_link 0 office (db_of banned)) !! j) ∧
    length (links db2)
      = length (links (Links.commit_link 0 office (db_of banned))) ∧
    access_logs db2
      = access_logs (Links.commit_link 0 office (db_of banned)).
Proof.
  apply (update_link_idempotent 1 enable root (db_of banned)).
  reflexivity.
Defined.

(** ** The admin routes *)

(** X28.  A user whose role is neither [admin] nor [super_admin] gets 403
    from every admin route of links.py, whatever he asks for, also for a
    link that carries his key as its owner; the database is not
    changed. *)
Theorem admin_routes_require_admin (current_user : User.t) (db : Db) :
  User.role current_user ≠ "admin" →
  User.role current_user ≠ "super_admin" →
  let refused {A} : Db * result A :=
    (db, Raise (HTTPException 403 "需要管理员权限")) in
  (∀ g d, Routes.create_link g d current_user db = refused) ∧
  (∀ k, Routes.get_link k current_user db = refused) ∧
  (∀ k d, Routes.update_link k d current_user db = refused) ∧
  (∀ k, Routes.delete_link k current_user db = refused) ∧
  (∀ k, Routes.restore_link k current_user db = refused) ∧
  (∀ k, Routes.get_link_stats k current_user db = refused) ∧
  (∀ users, Routes.get_global_stats users current_user db = refused).
Proof.
  intros Hadmin Hsuper.
  assert (Hreq : Security.require_admin current_user
                 = Raise (HTTPException 403 "需要管理员权限")).
  { destruct (require_admin_cases current_user) as [Hok|Hno]; [|done].
    apply require_admin_Ok in Hok. tauto. }
  unfold Routes.create_link, Routes.get_link, Routes.update_link,
    Routes.delete_link, Routes.restore_link, Routes.get_link_stats,
    Routes.get_global_stats, Security.depends.
  rewrite Hreq. by split_and!.
Qed.

Lemma admin_routes_require_admin_witness :
  let refused {A} : Db * result A :=
    (db_of office, Raise (HTTPException 403 "需要管理员权限")) in
  (∀ g d, Routes.create_link g d Scenario.guest (db_of office) = refused) ∧
  (∀ k, Routes.get_link k Scenario.guest (db_of office) = refused) ∧
  (∀ k d, Routes.update_link k d Scenario.guest (db_of office) = refused) ∧
  (∀ k, Routes.delete_link k Scenario.guest (db_of office) = refused) ∧
  (∀ k, Routes.restore_link k Scenario.guest (db_of office) = refused) ∧
  (∀ k, Routes.get_link_stats k Scenario.guest (db_of office) = refused) ∧
  (∀ users,
     Routes.get_global_stats users Scenario.guest (db_of office) = refused).
Proof.
  apply (admin_routes_require_admin Scenario.guest (db_of office));
    discriminate.
Defined.
